(** * Tiles-R-Us showroom: pricing calculator, parish matching and order ledger

    A shallow embedding of the calculator, delivery-cost, parish-matching and
    order-ledger code of the [App] component (the part of
    [public/service-worker.js] headed [App.jsx]), and the theorems that settle
    the specification's claims about it.  The modules after the ledger cover
    the rest of the page: the sales reps (registration, login, logout, the
    first render), what an order records, the invariants of a session, the
    scene objects with their gizmo, the draggable panel, and the calculator of
    the first showroom ([src/TilesRUsShowroom.jsx]).

    Conventions.
    - A JavaScript number is an IEEE-754 binary64 value, modelled by the
      Standard Library's [spec_float] with [prec = 53] and [emax = 1024]; every
      arithmetic operator is the correctly rounded one of [SpecFloat].
    - A JavaScript string is a [string] of code units below 128; code units
      above 127 are carried through unchanged by the case and white-space
      functions.
    - [undefined], [null] and a missing property are [None].
    - React state is a record; a handler reads the state of the render it was
      created in and returns the state after its updates. *)

From Stdlib Require Import ZArith List String Ascii Bool Lia SpecFloat DecimalString.
From stdpp Require Import gmap strings list.

Open Scope string_scope.

(** ** JavaScript strings *)

Module JSString.

(** White space and line terminators among the code units below 128: what
    [trim], [parseFloat] and the regular expression class [\s] skip. *)
Definition is_ws (c : ascii) : bool :=
  let n := nat_of_ascii c in
  ((9 <=? n) && (n <=? 13) || (n =? 32))%nat.

Definition lower_char (c : ascii) : ascii :=
  let n := nat_of_ascii c in
  if ((65 <=? n) && (n <=? 90))%nat then ascii_of_nat (n + 32) else c.

Definition upper_char (c : ascii) : ascii :=
  let n := nat_of_ascii c in
  if ((97 <=? n) && (n <=? 122))%nat then ascii_of_nat (n - 32) else c.

Fixpoint map_chars (f : ascii -> ascii) (s : string) : string :=
  match s with
  | String c r => String (f c) (map_chars f r)
  | EmptyString => EmptyString
  end.

Definition toLowerCase : string -> string := map_chars lower_char.
Definition toUpperCase : string -> string := map_chars upper_char.

Fixpoint trimStart (s : string) : string :=
  match s with
  | String c r => if is_ws c then trimStart r else s
  | EmptyString => s
  end.

(** [trimEnd]: a suffix made of white space only is dropped. *)
Fixpoint trimEnd (s : string) : string :=
  match s with
  | String c r =>
      match trimEnd r with
      | EmptyString => if is_ws c then EmptyString else String c EmptyString
      | r' => String c r'
      end
  | EmptyString => EmptyString
  end.

Definition trim (s : string) : string := trimEnd (trimStart s).

(** [s.startsWith(p)]. *)
Fixpoint startsWith (p s : string) : bool :=
  match p, s with
  | EmptyString, _ => true
  | String a p', String b s' => Ascii.eqb a b && startsWith p' s'
  | String _ _, EmptyString => false
  end.

(** [s.includes(p)]. *)
Fixpoint includes (s p : string) : bool :=
  startsWith p s ||
  match s with
  | String _ r => includes r p
  | EmptyString => false
  end.

Fixpoint drop (n : nat) (s : string) : string :=
  match n, s with
  | O, _ => s
  | S n', String _ r => drop n' r
  | S _, EmptyString => EmptyString
  end.

Fixpoint take (n : nat) (s : string) : string :=
  match n, s with
  | O, _ => EmptyString
  | S n', String c r => String c (take n' r)
  | S _, EmptyString => EmptyString
  end.

(** [s.slice(i, j)] for indices [0 <= i] and [0 <= j]. *)
Definition slice (i j : nat) (s : string) : string := take (j - i) (drop i s).

Fixpoint repeat (c : ascii) (n : nat) : string :=
  match n with
  | O => EmptyString
  | S n' => String c (repeat c n')
  end.

End JSString.

(** ** JavaScript numbers *)

Module JSNumber.

Import JSString.

Definition prec : Z := 53.
Definition emax : Z := 1024.

Abbreviation number := spec_float.

Definition NaN : number := S754_nan.
Definition Infinity : number := S754_infinity false.

Definition add : number -> number -> number := SFadd prec emax.
Definition sub : number -> number -> number := SFsub prec emax.
Definition mul : number -> number -> number := SFmul prec emax.
Definition div : number -> number -> number := SFdiv prec emax.
Definition neg : number -> number := SFopp.

(** [a < b] and [a <= b] on numbers: false as soon as one side is NaN. *)
Definition ltb : number -> number -> bool := SFltb.
Definition leb : number -> number -> bool := SFleb.

(** The global [isNaN] applied to a number. *)
Definition isNaN (x : number) : bool :=
  match x with S754_nan => true | _ => false end.

(** ToBoolean on a number: [+0], [-0] and [NaN] are falsy. *)
Definition truthy (x : number) : bool :=
  match x with S754_zero _ | S754_nan => false | _ => true end.

(** [a || b] on numbers. *)
Definition or_else (a b : number) : number := if truthy a then a else b.

(** The number nearest to an integer. *)
Definition ofZ (z : Z) : number := binary_normalize prec emax z 0 false.

(** The number nearest to [m * 10^e], ties to even: the value of a decimal
    literal with digits [m] and decimal exponent [e]. *)
Definition ofDecimal (m : Z) (e : Z) : number :=
  match m with
  | Z0 => S754_zero false
  | Zneg _ => NaN
  | Zpos p =>
      if (0 <=? e)%Z then ofZ (m * 10 ^ e)
      else div (S754_finite false p 0)
               (S754_finite false (Z.to_pos (10 ^ (- e))) 0)
  end.

(** [Math.ceil]. *)
Definition Math_ceil (x : number) : number :=
  match x with
  | S754_finite s m e =>
      if (0 <=? e)%Z then x
      else
        let d := (2 ^ (- e))%Z in
        let q := (Zpos m / d)%Z in
        let r := (Zpos m mod d)%Z in
        if s then
          (if (q =? 0)%Z then S754_zero true else neg (ofZ q))
        else ofZ (if (r =? 0)%Z then q else q + 1)
  | _ => x
  end.

(** [Math.max] of two numbers: NaN if either is NaN, and [+0] above [-0]. *)
Definition Math_max (a b : number) : number :=
  if isNaN a || isNaN b then NaN
  else if ltb a b then b
  else if ltb b a then a
  else match a, b with
       | S754_zero true, S754_zero _ => b
       | _, _ => a
       end.

(** *** Reading numbers from strings *)

Definition is_digit (c : ascii) : bool :=
  let n := nat_of_ascii c in ((48 <=? n) && (n <=? 57))%nat.

Definition digit_val (c : ascii) : Z := Z.of_nat (nat_of_ascii c) - 48.

(** A maximal run of decimal digits: the value accumulated onto [acc], the
    number of digits read, and the rest of the string. *)
Fixpoint read_digits (acc : Z) (n : Z) (s : string) : Z * Z * string :=
  match s with
  | String c r =>
      if is_digit c then read_digits (10 * acc + digit_val c) (n + 1) r
      else (acc, n, s)
  | EmptyString => (acc, n, s)
  end.

(** An optional ExponentPart: [e] or [E], an optional sign, at least one
    digit.  When it is incomplete nothing is consumed. *)
Definition read_exponent (s : string) : Z * string :=
  match s with
  | String c r =>
      if (Ascii.eqb c "e" || Ascii.eqb c "E")%char then
        let '(sg, r1) :=
          match r with
          | String "+"%char r' => (1%Z, r')
          | String "-"%char r' => ((-1)%Z, r')
          | _ => (1%Z, r)
          end in
        let '(v, n, rest) := read_digits 0 0 r1 in
        if (n =? 0)%Z then (0%Z, s) else ((sg * v)%Z, rest)
      else (0%Z, s)
  | EmptyString => (0%Z, s)
  end.

(** The longest prefix that is a StrUnsignedDecimalLiteral, with its value. *)
Definition read_unsigned (s : string) : option (number * string) :=
  if startsWith "Infinity" s then Some (Infinity, drop 8 s)
  else
    let '(i, ni, r1) := read_digits 0 0 s in
    match r1 with
    | String "."%char r2 =>
        let '(m, nf, r3) := read_digits i 0 r2 in
        if ((ni =? 0) && (nf =? 0))%Z then None
        else let '(e, r4) := read_exponent r3 in
             Some (ofDecimal m (e - nf), r4)
    | _ =>
        if (ni =? 0)%Z then None
        else let '(e, r4) := read_exponent r1 in
             Some (ofDecimal i e, r4)
    end.

(** An optional sign followed by [read_unsigned]. *)
Definition read_signed (s : string) : option (number * string) :=
  match s with
  | String "-"%char r =>
      match read_unsigned r with
      | Some (v, rest) => Some (neg v, rest)
      | None => None
      end
  | String "+"%char r => read_unsigned r
  | _ => read_unsigned s
  end.

(** The global [parseFloat] applied to a string. *)
Definition parseFloat (s : string) : number :=
  match read_signed (trimStart s) with
  | Some (v, _) => v
  | None => NaN
  end.

(** *** Writing numbers as strings *)

(** The decimal digits of a non-negative integer, without leading zeros. *)
Definition Zdigits10 (n : Z) : string :=
  NilZero.string_of_uint (N.to_uint (Z.to_N n)).

(** Structural equality of numbers: the same value with the same sign, and NaN
    equal to itself. *)
Definition same (a b : number) : bool :=
  match a, b with
  | S754_nan, S754_nan => true
  | S754_zero s, S754_zero t => Bool.eqb s t
  | S754_infinity s, S754_infinity t => Bool.eqb s t
  | S754_finite s m e, S754_finite t m' e' =>
      Bool.eqb s t && Pos.eqb m m' && Z.eqb e e'
  | _, _ => false
  end.

(** The positive number [m * 2^e] times [10^j], as a fraction. *)
Definition scaled (m : positive) (e j : Z) : Z * Z :=
  ((Zpos m * 2 ^ Z.max e 0 * 10 ^ Z.max j 0)%Z,
   (2 ^ Z.max (- e) 0 * 10 ^ Z.max (- j) 0)%Z).

(** [10^c <= m * 2^e]. *)
Definition pow10_le (c : Z) (m : positive) (e : Z) : bool :=
  let '(a, b) := scaled m e (- c) in (b <=? a)%Z.

(** The [n] with [10^(n-1) <= m * 2^e < 10^n]. *)
Definition decimal_exponent (m : positive) (e : Z) : Z :=
  let b := (Zpos (digits2_pos m) + e)%Z in
  let est := (b * 30103 / 100000)%Z in
  if pow10_le (est + 1) m e then est + 2
  else if pow10_le est m e then est + 1
  else if pow10_le (est - 1) m e then est
  else est - 1.

(** The shortest digits [s] (with [k] of them, tried from [k] upwards) whose
    value [s * 10^(n-k)] reads back as [m * 2^e]; of two candidates the nearer,
    and the even one on a tie. *)
Fixpoint shortest_digits (fuel : nat) (k : Z) (n : Z) (m : positive) (e : Z)
  : Z * Z :=
  let '(a, b) := scaled m e (k - n) in
  let lo := (a / b)%Z in
  let r := (a mod b)%Z in
  let hi := (lo + 1)%Z in
  let x := S754_finite false m e in
  let ok_lo := same (ofDecimal lo (n - k)) x in
  let ok_hi := same (ofDecimal hi (n - k)) x in
  let pick :=
    match (2 * r ?= b)%Z with
    | Lt => lo
    | Gt => hi
    | Eq => if Z.even lo then lo else hi
    end in
  match fuel with
  | O => (lo, k)
  | S fuel' =>
      if ok_lo && ok_hi then (pick, k)
      else if ok_lo then (lo, k)
      else if ok_hi then (hi, k)
      else shortest_digits fuel' (k + 1) n m e
  end.

(** Number::toString in radix 10 for a positive finite number. *)
Definition positive_toString (m : positive) (e : Z) : string :=
  let n0 := decimal_exponent m e in
  let '(s0, k) := shortest_digits 17 1 n0 m e in
  let '(s, n) := if (s0 =? 10 ^ k)%Z then ((10 ^ (k - 1))%Z, (n0 + 1)%Z)
                 else (s0, n0) in
  let ds := Zdigits10 s in
  if ((k <=? n) && (n <=? 21))%Z then
    ds ++ repeat "0" (Z.to_nat (n - k))
  else if ((0 <? n) && (n <=? 21))%Z then
    take (Z.to_nat n) ds ++ "." ++ drop (Z.to_nat n) ds
  else if ((-6 <? n) && (n <=? 0))%Z then
    "0." ++ repeat "0" (Z.to_nat (- n)) ++ ds
  else
    let ex := (n - 1)%Z in
    let es := (if (0 <=? ex)%Z then "+" else "-") ++ Zdigits10 (Z.abs ex) in
    if (k =? 1)%Z then ds ++ "e" ++ es
    else take 1 ds ++ "." ++ drop 1 ds ++ "e" ++ es.

(** [String(x)] for a number [x]. *)
Definition toString (x : number) : string :=
  match x with
  | S754_nan => "NaN"
  | S754_zero _ => "0"
  | S754_infinity s => if s then "-Infinity" else "Infinity"
  | S754_finite s m e =>
      (if s then "-" else "") ++ positive_toString m e
  end.

(** The digits of [n] with a point before the last [f] of them. *)
Definition fixed_digits (n : Z) (f : nat) : string :=
  let m := Zdigits10 n in
  match f with
  | O => m
  | S _ =>
      let k := String.length m in
      let m' := if (k <=? f)%nat then repeat "0" (f + 1 - k) ++ m else m in
      let k' := String.length m' in
      take (k' - f) m' ++ "." ++ drop (k' - f) m'
  end.

(** The integer nearest to [m * 2^e * 10^f], the larger one on a tie. *)
Definition nearest_scaled (m : positive) (e : Z) (f : nat) : Z :=
  let a := (Zpos m * 10 ^ Z.of_nat f)%Z in
  if (0 <=? e)%Z then (a * 2 ^ e)%Z
  else ((2 * a + 2 ^ (- e)) / 2 ^ (- e + 1))%Z.

(** [x.toFixed(f)]. *)
Definition toFixed (x : number) (f : nat) : string :=
  match x with
  | S754_finite s m e =>
      (if s then "-" else "") ++
      (if leb (ofZ (10 ^ 21)) (S754_finite false m e)
       then positive_toString m e
       else fixed_digits (nearest_scaled m e f) f)
  | S754_zero _ => fixed_digits 0 f
  | _ => toString x
  end.

(** The value of a digit of the radix [b] (at most 16). *)
Definition radix_digit (b : Z) (c : ascii) : option Z :=
  let n := Z.of_nat (nat_of_ascii (lower_char c)) in
  let v := if ((48 <=? n) && (n <=? 57))%Z then (n - 48)%Z
           else if ((97 <=? n) && (n <=? 102))%Z then (n - 87)%Z
           else b in
  if (v <? b)%Z then Some v else None.

(** A string made of digits of the radix [b] only, as an integer. *)
Fixpoint read_radix (b : Z) (acc : Z) (s : string) : option Z :=
  match s with
  | String c r =>
      match radix_digit b c with
      | Some v => read_radix b (b * acc + v)%Z r
      | None => None
      end
  | EmptyString => Some acc
  end.

(** ToNumber applied to a string (the unary [+]): the whole trimmed string has
    to be a numeric literal, and the empty string is [+0]. *)
Definition ToNumber (s : string) : number :=
  let t := trim s in
  match t with
  | EmptyString => S754_zero false
  | String "0"%char (String c (String d r)) =>
      let body := String d r in
      let radix :=
        if Ascii.eqb (lower_char c) "x" then Some 16%Z
        else if Ascii.eqb (lower_char c) "o" then Some 8%Z
        else if Ascii.eqb (lower_char c) "b" then Some 2%Z
        else None in
      match radix with
      | Some b =>
          match read_radix b 0 body with
          | Some v => ofZ v
          | None => NaN
          end
      | None =>
          match read_signed t with
          | Some (v, EmptyString) => v
          | _ => NaN
          end
      end
  | _ =>
      match read_signed t with
      | Some (v, EmptyString) => v
      | _ => NaN
      end
  end.

End JSNumber.

(** ** Parish names *)

Module Geo.

Import JSString.

Definition JAMAICA_PARISHES : list string :=
  [ "Kingston"; "Saint Andrew"; "Saint Thomas"; "Portland"; "Saint Mary";
    "Saint Ann"; "Trelawny"; "Saint James"; "Hanover"; "Westmoreland";
    "Saint Elizabeth"; "Manchester"; "Clarendon"; "Saint Catherine" ].

(** [s.replace(/parish/gi, "")]: every occurrence of the word, in any case, is
    removed, scanning from the left; [skip] counts the code units of the
    current match that are still to be dropped. *)
Fixpoint remove_parish (skip : nat) (s : string) : string :=
  match s with
  | EmptyString => EmptyString
  | String c r =>
      match skip with
      | S k => remove_parish k r
      | O => if startsWith "parish" (toLowerCase s) then remove_parish 5 r
             else String c (remove_parish 0 r)
      end
  end.

(** [s.replace(/^st[.\s]/i, "Saint ")]: a leading [st] followed by a point or
    a white-space character is replaced, all three code units of it. *)
Definition expand_st (s : string) : string :=
  match s with
  | String a (String b (String c r)) =>
      if Ascii.eqb (lower_char a) "s" && Ascii.eqb (lower_char b) "t"
         && (Ascii.eqb c "." || is_ws c)
      then "Saint " ++ r
      else s
  | _ => s
  end.

Definition normalizeParish (name : option string) : string :=
  match name with
  | None => ""
  | Some EmptyString => ""
  | Some n => toLowerCase (trim (expand_st (remove_parish 0 n)))
  end.

Definition matchParishName (anyString : option string) : option string :=
  match anyString with
  | None => None
  | Some EmptyString => None
  | Some _ =>
      let s := normalizeParish anyString in
      List.find
        (fun p => String.eqb (normalizeParish (Some p)) s
                  || includes s (normalizeParish (Some p)))
        JAMAICA_PARISHES
  end.

End Geo.

(** ** The application: data *)

Module App.

Import JSString JSNumber Geo.

(** A decimal number literal of the source text. *)
Definition lit (s : string) : number := parseFloat s.

Record Store := mkStore {
  store_id : string;
  store_name : string;
  store_lat : number;
  store_lon : number;
  store_parish : string }.

(** [STORES[0]]. *)
Definition STORES_0 : Store :=
  mkStore "KNG" "Kingston (HWT)" (lit "18.0179") (lit "-76.7936") "Saint Andrew".

Definition STORES : list Store :=
  [ STORES_0;
    mkStore "MBJ" "Montego Bay"    (lit "18.4667") (lit "-77.9167") "Saint James";
    mkStore "MAN" "Mandeville"     (lit "18.0425") (lit "-77.5075") "Manchester";
    mkStore "OCH" "Ocho Rios"      (lit "18.4075") (lit "-77.1031") "Saint Ann";
    mkStore "SPN" "Spanish Town"   (lit "17.9970") (lit "-76.9570") "Saint Catherine" ].

Record SalesRep := mkSalesRep {
  rep_id : Z;
  rep_name : string;
  rep_username : string;
  rep_password : string;
  rep_employeeId : string }.

(** The [auto] part of a delivery quote. *)
Record AutoEstimate := mkAutoEstimate {
  totalMilesEstimate : number;
  auto_detectedParish : string;
  auto_roadFactor : number }.

(** The [delivery] part of a result and of an order. *)
Record DeliveryQuote := mkDeliveryQuote {
  dq_method : string;
  dq_isNewParish : bool;
  dq_miles : number;
  dq_cost : number;
  dq_store : Store;
  dq_auto : AutoEstimate }.

(** The object given to [setResult]. *)
Record Result := mkResult {
  tilesNeeded : number;
  totalCost : number;
  roomAreaM2 : number;
  roomAreaSqFt : number;
  thinsetBags : number;
  thinsetBagCoverageSqFt : number;
  thinsetBagPrice : number;
  thinsetCost : number;
  delivery : DeliveryQuote;
  grandTotal : number }.

Record Customer := mkCustomer {
  cust_name : string;
  cust_phone : string;
  cust_email : string;
  cust_address : string;
  cust_notes : string }.

Record Dimensions := mkDimensions {
  dim_length : string;
  dim_width : string;
  dim_unit : string }.

Record Thinset := mkThinset {
  ts_bags : number;
  ts_bagPrice : number;
  ts_cost : number }.

Record Order := mkOrder {
  orderId : string;
  ticketNumber : string;
  salesRep : string;
  employeeId : string;
  customer : Customer;
  order_tile : string;
  order_wallTile : string;
  tileDimensions : Dimensions;
  order_tilePrice : string;
  roomDimensions : Dimensions;
  order_tilesNeeded : number;
  order_totalCost : number;
  thinset : Thinset;
  order_delivery : DeliveryQuote;
  order_grandTotal : number;
  createdAt : string }.

(** What a storage key holds: the JSON text of a stored item is identified
    with the value it was serialised from. *)
Inductive Doc :=
  | OrdersDoc (l : list Order)
  | RepsDoc (l : list SalesRep)
  | UserDoc (u : SalesRep).

Inductive Alert :=
  | AlertEnterValues        (* "Please enter all values correctly" *)
  | AlertCalculateFirst     (* "Please calculate tiles and cost first." *)
  | AlertNoSalesRep         (* "No sales rep logged in." *)
  | AlertCustomerMissing    (* "Please enter customer name and phone number." *)
  | AlertDeliveryMiles      (* "Please enter delivery miles (within parish)." *)
  | AlertOrderCreated (o : Order)
  | AlertFillAllFields      (* "Please fill in all fields" *)
  | AlertUsernameExists     (* "Username already exists" *)
  | AlertRegistered         (* "Registered! You can now log in." *)
  | AlertInvalidLogin.      (* "Invalid username or password" *)

(** The browser around the component: the two storages, the alerts shown so
    far (oldest first) and the number of [Math.random] draws made so far. *)
Record Browser := mkBrowser {
  localStorage : gmap string Doc;
  sessionStorage : gmap string Doc;
  alerts : list Alert;
  draws : nat }.

Definition alert (a : Alert) (b : Browser) : Browser :=
  mkBrowser (localStorage b) (sessionStorage b) (alerts b ++ [a]) (draws b).

Definition localStorage_setItem (k : string) (d : Doc) (b : Browser) : Browser :=
  mkBrowser (<[k := d]> (localStorage b)) (sessionStorage b) (alerts b) (draws b).

Definition localStorage_removeItem (k : string) (b : Browser) : Browser :=
  mkBrowser (delete k (localStorage b)) (sessionStorage b) (alerts b) (draws b).

Definition sessionStorage_setItem (k : string) (d : Doc) (b : Browser) : Browser :=
  mkBrowser (localStorage b) (<[k := d]> (sessionStorage b)) (alerts b) (draws b).

Definition sessionStorage_removeItem (k : string) (b : Browser) : Browser :=
  mkBrowser (localStorage b) (delete k (sessionStorage b)) (alerts b) (draws b).

Definition with_draws (n : nat) (b : Browser) : Browser :=
  mkBrowser (localStorage b) (sessionStorage b) (alerts b) n.

(** The component's state, grouped the way the source declares it. *)
Record AuthState := mkAuthState {
  loggedInUser : option SalesRep;
  username : string;
  password : string;
  name : string;
  employeeId_input : string;
  rememberMe : bool;
  isRegistering : bool }.

Record CalcInputs := mkCalcInputs {
  tileLength : string;
  tileWidth : string;
  tileUnit : string;
  tilePrice : string;
  roomLength : string;
  roomWidth : string;
  roomUnit : string }.

Record DeliveryInputs := mkDeliveryInputs {
  deliveryMethod : string;
  deliveryMiles : string;
  isNewParish : bool;
  deliveryCost : number;
  selectedStoreId : string;
  autoTotalMiles : number;
  detectedParish : string;
  roadFactor : number }.

Record CustomerInputs := mkCustomerInputs {
  customerName : string;
  customerPhone : string;
  customerEmail : string;
  customerAddress : string;
  customerNotes : string }.

Record AppState := mkAppState {
  auth : AuthState;
  orders : list Order;
  tile : string;
  wallTile : string;
  calc : CalcInputs;
  result : option Result;
  dlv : DeliveryInputs;
  cust : CustomerInputs }.

Definition setResult (r : Result) (st : AppState) : AppState :=
  mkAppState (auth st) (orders st) (tile st) (wallTile st) (calc st) (Some r)
             (dlv st) (cust st).

Definition setOrders (l : list Order) (st : AppState) : AppState :=
  mkAppState (auth st) l (tile st) (wallTile st) (calc st) (result st)
             (dlv st) (cust st).

Definition set_auth (a : AuthState) (st : AppState) : AppState :=
  mkAppState a (orders st) (tile st) (wallTile st) (calc st) (result st)
             (dlv st) (cust st).

Definition set_calc (c : CalcInputs) (st : AppState) : AppState :=
  mkAppState (auth st) (orders st) (tile st) (wallTile st) c (result st)
             (dlv st) (cust st).

Definition set_dlv (d : DeliveryInputs) (st : AppState) : AppState :=
  mkAppState (auth st) (orders st) (tile st) (wallTile st) (calc st) (result st)
             d (cust st).

Definition set_cust (c : CustomerInputs) (st : AppState) : AppState :=
  mkAppState (auth st) (orders st) (tile st) (wallTile st) (calc st) (result st)
             (dlv st) c.

Definition setDeliveryCost (c : number) (st : AppState) : AppState :=
  let d := dlv st in
  set_dlv (mkDeliveryInputs (deliveryMethod d) (deliveryMiles d) (isNewParish d) c
             (selectedStoreId d) (autoTotalMiles d) (detectedParish d)
             (roadFactor d)) st.

(** ** The application: helpers *)

Definition convertToMeters (value unit : string) : number :=
  let v := parseFloat value in
  if isNaN v || leb v (ofZ 0) then ofZ 0
  else if String.eqb unit "ft" then mul v (lit "0.3048")
  else if String.eqb unit "in" then mul v (lit "0.0254")
  else v.

Definition computeDeliveryCost (method milesInput : string) (newParish : bool)
  : number :=
  if negb (String.eqb method "delivery") then ofZ 0
  else
    let miles := parseFloat milesInput in
    if newParish then
      let insideMiles := if isNaN miles || ltb miles (ofZ 0) then ofZ 0 else miles in
      add (ofZ 3500) (mul insideMiles (ofZ 450))
    else
      if isNaN miles || leb miles (ofZ 0) then ofZ 0
      else if leb miles (ofZ 5) then ofZ 1500
           else add (ofZ 1500) (mul (sub miles (ofZ 5)) (ofZ 250)).

(** The effect that keeps [deliveryCost] in step with the delivery inputs; it
    runs after every render in which one of them changed. *)
Definition sync_deliveryCost (st : AppState) : AppState :=
  setDeliveryCost
    (computeDeliveryCost (deliveryMethod (dlv st)) (deliveryMiles (dlv st))
       (isNewParish (dlv st))) st.

Definition selectedStore (st : AppState) : Store :=
  match List.find (fun s => String.eqb (store_id s) (selectedStoreId (dlv st)))
                  STORES with
  | Some s => s
  | None => STORES_0
  end.

(** A string as a condition: [undefined], [null] and the empty string are
    falsy. *)
Definition nonempty (v : option string) : bool :=
  match v with
  | Some (String _ _) => true
  | _ => false
  end.

Definition applyAutoDistanceToUI (totalMiles : number)
    (destParishGuess : option string) (st : AppState) : AppState :=
  let d := dlv st in
  let rounded := toString (ToNumber (toFixed totalMiles 1)) in
  let detected := if nonempty destParishGuess then default "" destParishGuess
                  else "" in
  if nonempty destParishGuess then
    let cross :=
      negb (String.eqb (normalizeParish destParishGuess)
                       (normalizeParish (Some (store_parish (selectedStore st))))) in
    if cross then
      let estimateInside :=
        Math_max (ofZ 1) (ToNumber (toFixed (mul totalMiles (lit "0.3")) 1)) in
      set_dlv (mkDeliveryInputs (deliveryMethod d) (toString estimateInside) cross
                 (deliveryCost d) (selectedStoreId d) totalMiles detected
                 (roadFactor d)) st
    else
      set_dlv (mkDeliveryInputs (deliveryMethod d) rounded cross
                 (deliveryCost d) (selectedStoreId d) totalMiles detected
                 (roadFactor d)) st
  else
    set_dlv (mkDeliveryInputs (deliveryMethod d) rounded (isNewParish d)
               (deliveryCost d) (selectedStoreId d) totalMiles detected
               (roadFactor d)) st.

(** ** The calculator *)

Definition handleCalculate (st : AppState) (b : Browser) : AppState * Browser :=
  let c := calc st in
  let d := dlv st in
  let tLength := convertToMeters (tileLength c) (tileUnit c) in
  let tWidth  := convertToMeters (tileWidth c)  (tileUnit c) in
  let rLength := convertToMeters (roomLength c) (roomUnit c) in
  let rWidth  := convertToMeters (roomWidth c)  (roomUnit c) in
  let price   := parseFloat (tilePrice c) in
  if negb (truthy tLength) || negb (truthy tWidth) || negb (truthy rLength)
     || negb (truthy rWidth) || negb (truthy price)
  then (st, alert AlertEnterValues b)
  else
    let tileArea := mul tLength tWidth in
    let roomArea := mul rLength rWidth in
    let tilesNeeded := Math_ceil (div roomArea tileArea) in
    let tileTotalCost := mul tilesNeeded price in
    let roomAreaSqFt := mul roomArea (lit "10.7639") in
    let THINSET_BAG_COVERAGE_SQFT := ofZ 50 in
    let THINSET_BAG_PRICE := ofZ 1500 in
    let thinsetBags :=
      Math_max (ofZ 0) (Math_ceil (div roomAreaSqFt THINSET_BAG_COVERAGE_SQFT)) in
    let thinsetCost := mul thinsetBags THINSET_BAG_PRICE in
    let deliveryCostNow :=
      computeDeliveryCost (deliveryMethod d) (deliveryMiles d) (isNewParish d) in
    let grandTotal := add (add tileTotalCost thinsetCost) deliveryCostNow in
    (setResult
       (mkResult tilesNeeded tileTotalCost roomArea roomAreaSqFt thinsetBags
          THINSET_BAG_COVERAGE_SQFT THINSET_BAG_PRICE thinsetCost
          (mkDeliveryQuote (deliveryMethod d) (isNewParish d)
             (or_else (parseFloat (deliveryMiles d)) (ofZ 0))
             deliveryCostNow
             (mkStore (store_id (selectedStore st)) (store_name (selectedStore st))
                (store_lat (selectedStore st)) (store_lon (selectedStore st))
                (store_parish (selectedStore st)))
             (mkAutoEstimate (or_else (autoTotalMiles d) (ofZ 0))
                (detectedParish d) (roadFactor d)))
          grandTotal)
       st, b).

(** ** The order ledger *)

(** What a handler reads from outside during one call: the text
    [Math.random().toString(36)] of the [n]-th draw of the session, the clock
    [Date.now()] in milliseconds and [new Date().toISOString()]. *)
Record Env := mkEnv {
  Math_random36 : nat -> string;
  Date_now : Z;
  Date_toISOString : string }.

(** How a call ends: with a value, or with an exception. *)
Inductive completion (A : Type) :=
  | Normal (a : A)
  | Throw.
Arguments Normal {A} a.
Arguments Throw {A}.

(** [JSON.parse(localStorage.getItem("orders") || "[]")]; a key that holds a
    document of another shape is outside what the application writes, and
    reading it ends the call. *)
Definition stored_orders (b : Browser) : completion (list Order) :=
  match localStorage b !! "orders" with
  | None => Normal []
  | Some (OrdersDoc l) => Normal l
  | Some _ => Throw
  end.

Definition stored_reps (b : Browser) : completion (list SalesRep) :=
  match localStorage b !! "salesReps" with
  | None => Normal []
  | Some (RepsDoc l) => Normal l
  | Some _ => Throw
  end.

Definition digit36 (d : Z) : ascii :=
  ascii_of_nat (Z.to_nat (if (d <? 10)%Z then 48 + d else 87 + d)%Z).

Fixpoint digits36 (fuel : nat) (z : Z) (acc : string) : string :=
  match fuel with
  | O => acc
  | S f =>
      let acc' := String (digit36 (z mod 36)) acc in
      if (z / 36 =? 0)%Z then acc' else digits36 f (z / 36)%Z acc'
  end.

(** [z.toString(36)] for an integer [z]. *)
Definition Z_toString36 (z : Z) : string :=
  (if (z <? 0)%Z then "-" else "")
  ++ digits36 (S (Z.to_nat (Z.log2 (Z.abs z)))) (Z.abs z) "".

Definition generateOrderId (env : Env) (b : Browser) : string * Browser :=
  let timestamp := Z_toString36 (Date_now env) in
  let randomPart := toUpperCase (slice 2 7 (Math_random36 env (draws b))) in
  ("ORD-" ++ timestamp ++ "-" ++ randomPart, with_draws (S (draws b)) b).

(** The ticket one round of the loop builds from the [n]-th and the next
    draw. *)
Definition ticket_of (env : Env) (n : nat) : string :=
  let chunk1 := toUpperCase (slice 2 6 (Math_random36 env n)) in
  let chunk2 := toUpperCase (slice 2 6 (Math_random36 env (S n))) in
  "TRU-" ++ chunk1 ++ "-" ++ chunk2.

(** The [do ... while (existing.has(ticket))] loop from the [n]-th draw on;
    [fuel] bounds the number of rounds. *)
Fixpoint ticket_loop (env : Env) (fuel : nat) (existing : gset string) (n : nat)
  : option (string * nat) :=
  match fuel with
  | O => None
  | S fuel' =>
      let ticket := ticket_of env n in
      if bool_decide (ticket ∈ existing)
      then ticket_loop env fuel' existing (S (S n))
      else Some (ticket, S (S n))
  end.

(** [None] when [fuel] rounds were not enough. *)
Definition generateTicketNumber (env : Env) (fuel : nat) (b : Browser)
  : option (completion (string * Browser)) :=
  match stored_orders b with
  | Throw => Some Throw
  | Normal l =>
      let existing : gset string := list_to_set (map ticketNumber l) in
      match ticket_loop env fuel existing (draws b) with
      | None => None
      | Some (ticket, n) => Some (Normal (ticket, with_draws n b))
      end
  end.

Definition is_empty (s : string) : bool :=
  match s with EmptyString => true | _ => false end.

(** The defaults of the destructuring of [result] stand for fields that are
    [undefined]; a result stored by [handleCalculate] has every field, so the
    fields are read as they are. *)
Definition handlePlaceOrder (env : Env) (fuel : nat) (st : AppState) (b : Browser)
  : option (completion (AppState * Browser)) :=
  let c := calc st in
  let d := dlv st in
  let cu := cust st in
  match result st with
  | None => Some (Normal (st, alert AlertCalculateFirst b))
  | Some r =>
  match loggedInUser (auth st) with
  | None => Some (Normal (st, alert AlertNoSalesRep b))
  | Some user =>
  if is_empty (trim (customerName cu)) || is_empty (trim (customerPhone cu))
  then Some (Normal (st, alert AlertCustomerMissing b))
  else if String.eqb (deliveryMethod d) "delivery" && negb (isNewParish d)
          && (isNaN (parseFloat (deliveryMiles d))
              || leb (parseFloat (deliveryMiles d)) (ofZ 0))
  then Some (Normal (st, alert AlertDeliveryMiles b))
  else
    let '(oid, b1) := generateOrderId env b in
    match generateTicketNumber env fuel b1 with
    | None => None
    | Some Throw => Some Throw
    | Some (Normal (ticket, b2)) =>
        let order :=
          mkOrder oid ticket (rep_name user) (rep_employeeId user)
            (mkCustomer (trim (customerName cu)) (trim (customerPhone cu))
               (trim (customerEmail cu)) (trim (customerAddress cu))
               (trim (customerNotes cu)))
            (tile st) (wallTile st)
            (mkDimensions (tileLength c) (tileWidth c) (tileUnit c))
            (tilePrice c)
            (mkDimensions (roomLength c) (roomWidth c) (roomUnit c))
            (tilesNeeded r) (totalCost r)
            (mkThinset (thinsetBags r) (thinsetBagPrice r) (thinsetCost r))
            (delivery r) (grandTotal r) (Date_toISOString env) in
        let updatedOrders := (orders st ++ [order])%list in
        let b3 := localStorage_setItem "orders" (OrdersDoc updatedOrders) b2 in
        let b4 := alert (AlertOrderCreated order) b3 in
        Some (Normal (set_cust (mkCustomerInputs "" "" "" "" "")
                        (setOrders updatedOrders st), b4))
    end
  end
  end.

(** ** Registration and login *)

Definition handleRegister (env : Env) (st : AppState) (b : Browser)
  : completion (AppState * Browser) :=
  let a := auth st in
  if is_empty (name a) || is_empty (username a) || is_empty (password a)
     || is_empty (employeeId_input a)
  then Normal (st, alert AlertFillAllFields b)
  else
    match stored_reps b with
    | Throw => Throw
    | Normal reps =>
        if existsb (fun rep => String.eqb (rep_username rep) (username a)) reps
        then Normal (st, alert AlertUsernameExists b)
        else
          let newRep := mkSalesRep (Date_now env) (name a) (username a)
                          (password a) (employeeId_input a) in
          let b1 := localStorage_setItem "salesReps"
                      (RepsDoc (reps ++ [newRep])) b in
          Normal (set_auth (mkAuthState (loggedInUser a) "" "" "" ""
                              (rememberMe a) false) st,
                  alert AlertRegistered b1)
    end.

Definition handleLogin (st : AppState) (b : Browser)
  : completion (AppState * Browser) :=
  let a := auth st in
  match stored_reps b with
  | Throw => Throw
  | Normal reps =>
      match List.find (fun rep => String.eqb (rep_username rep) (username a)
                                  && String.eqb (rep_password rep) (password a))
                      reps with
      | Some found =>
          let b1 :=
            if rememberMe a
            then sessionStorage_removeItem "loggedInUser"
                   (localStorage_setItem "loggedInUser" (UserDoc found) b)
            else localStorage_removeItem "loggedInUser"
                   (sessionStorage_setItem "loggedInUser" (UserDoc found) b) in
          Normal (set_auth (mkAuthState (Some found) "" "" (name a)
                              (employeeId_input a) false (isRegistering a)) st,
                  b1)
      | None => Normal (st, alert AlertInvalidLogin b)
      end
  end.

Definition handleLogout (st : AppState) (b : Browser) : AppState * Browser :=
  let a := auth st in
  (set_auth (mkAuthState None (username a) (password a) (name a)
               (employeeId_input a) (rememberMe a) (isRegistering a)) st,
   sessionStorage_removeItem "loggedInUser"
     (localStorage_removeItem "loggedInUser" b)).

(** The effect of the first render: a default sales rep is stored when none is
    registered, and a remembered user is logged in again.  Reading the
    remembered user sits in a [try] whose [catch] ignores the failure. *)
Definition mount (st : AppState) (b : Browser) : completion (AppState * Browser) :=
  match stored_reps b with
  | Throw => Throw
  | Normal reps =>
      let defaultRep := mkSalesRep 1 "Default Rep" "rep1" "1234" "EMP001" in
      let b1 := match reps with
                | [] => localStorage_setItem "salesReps" (RepsDoc [defaultRep]) b
                | _ :: _ => b
                end in
      let storedUser :=
        match localStorage b1 !! "loggedInUser" with
        | Some (UserDoc u) => Some u
        | Some _ => None
        | None =>
            match sessionStorage b1 !! "loggedInUser" with
            | Some (UserDoc u) => Some u
            | _ => None
            end
        end in
      let a := auth st in
      match storedUser with
      | Some u =>
          Normal (set_auth (mkAuthState (Some u) (username a) (password a)
                              (name a) (employeeId_input a) (rememberMe a)
                              (isRegistering a)) st, b1)
      | None => Normal (st, b1)
      end
  end.

(** The state of the first render: [orders] is read from storage, every other
    field has its default. *)
Definition initialState (b : Browser) : completion AppState :=
  match stored_orders b with
  | Throw => Throw
  | Normal saved =>
      Normal (mkAppState (mkAuthState None "" "" "" "" false false) saved
                "Marble" "Marble" (mkCalcInputs "" "" "m" "" "" "" "m") None
                (mkDeliveryInputs "pickup" "" false (ofZ 0) (store_id STORES_0)
                   (ofZ 0) "" (lit "1.25"))
                (mkCustomerInputs "" "" "" "" ""))
  end.

(** ** The events of the page *)

Inductive Event :=
  | Mount
  | EditCalc (c : CalcInputs)
  | EditCustomer (c : CustomerInputs)
  | EditAuth (u p n e : string) (remember registering : bool)
  | SetTile (t : string)
  | SetWallTile (t : string)
  | SetDeliveryMethod (m : string)
  | SetDeliveryMiles (s : string)
  | SetIsNewParish (v : bool)
  | SetSelectedStoreId (s : string)
  | SetRoadFactor (s : string)
  | AutoDistance (totalMiles : number) (destParishGuess : option string)
  | Calculate
  | PlaceOrder
  | Register
  | Login
  | Logout.

Definition edit_delivery (ev : Event) (d : DeliveryInputs) : DeliveryInputs :=
  match ev with
  | SetDeliveryMethod m =>
      mkDeliveryInputs m (deliveryMiles d) (isNewParish d) (deliveryCost d)
        (selectedStoreId d) (autoTotalMiles d) (detectedParish d) (roadFactor d)
  | SetDeliveryMiles s =>
      mkDeliveryInputs (deliveryMethod d) s (isNewParish d) (deliveryCost d)
        (selectedStoreId d) (autoTotalMiles d) (detectedParish d) (roadFactor d)
  | SetIsNewParish v =>
      mkDeliveryInputs (deliveryMethod d) (deliveryMiles d) v (deliveryCost d)
        (selectedStoreId d) (autoTotalMiles d) (detectedParish d) (roadFactor d)
  | SetSelectedStoreId s =>
      mkDeliveryInputs (deliveryMethod d) (deliveryMiles d) (isNewParish d)
        (deliveryCost d) s (autoTotalMiles d) (detectedParish d) (roadFactor d)
  | SetRoadFactor s =>
      mkDeliveryInputs (deliveryMethod d) (deliveryMiles d) (isNewParish d)
        (deliveryCost d) (selectedStoreId d) (autoTotalMiles d)
        (detectedParish d) (or_else (parseFloat s) (lit "1.25"))
  | _ => d
  end.

(** One event: the handler, then the effect that refreshes [deliveryCost]. *)
Definition step (env : Env) (fuel : nat) (ev : Event) (st : AppState)
    (b : Browser) : option (completion (AppState * Browser)) :=
  let after (r : completion (AppState * Browser)) :=
    match r with
    | Normal (st', b') => Some (Normal (sync_deliveryCost st', b'))
    | Throw => Some Throw
    end in
  match ev with
  | Mount => after (mount st b)
  | EditCalc c => after (Normal (set_calc c st, b))
  | EditCustomer c => after (Normal (set_cust c st, b))
  | EditAuth u p n e remember registering =>
      after (Normal (set_auth (mkAuthState (loggedInUser (auth st)) u p n e
                                 remember registering) st, b))
  | SetTile t =>
      after (Normal (mkAppState (auth st) (orders st) t (wallTile st) (calc st)
                       (result st) (dlv st) (cust st), b))
  | SetWallTile t =>
      after (Normal (mkAppState (auth st) (orders st) (tile st) t (calc st)
                       (result st) (dlv st) (cust st), b))
  | SetDeliveryMethod _ | SetDeliveryMiles _ | SetIsNewParish _
  | SetSelectedStoreId _ | SetRoadFactor _ =>
      after (Normal (set_dlv (edit_delivery ev (dlv st)) st, b))
  | AutoDistance totalMiles destParishGuess =>
      after (Normal (applyAutoDistanceToUI totalMiles destParishGuess st, b))
  | Calculate => after (Normal (handleCalculate st b))
  | PlaceOrder =>
      match handlePlaceOrder env fuel st b with
      | Some r => after r
      | None => None
      end
  | Register => after (handleRegister env st b)
  | Login => after (handleLogin st b)
  | Logout => after (Normal (handleLogout st b))
  end.

(** A session: events one after the other, each with what it reads from
    outside; it stops at the first call that throws or runs out of fuel. *)
Fixpoint run (fuel : nat) (evs : list (Env * Event)) (st : AppState)
    (b : Browser) : option (completion (AppState * Browser)) :=
  match evs with
  | [] => Some (Normal (st, b))
  | (env, ev) :: rest =>
      match step env fuel ev st b with
      | Some (Normal (st', b')) => run fuel rest st' b'
      | other => other
      end
  end.

End App.

(** ** What the specification says, and the inputs of its examples *)

Module Spec.

Import JSString JSNumber Geo App.

(** [x] is NaN or carries the sign [s]. *)
Definition signed (s : bool) (x : number) : Prop :=
  match x with
  | S754_nan => True
  | S754_zero t | S754_infinity t | S754_finite t _ _ => t = s
  end.

(** [0 < x]. *)
Definition positive_number (x : number) : Prop := ltb (ofZ 0) x = true.

(** Conversion to metres with the fixed factors of the specification:
    1 ft = 0.3048 m and 1 in = 0.0254 m. *)
Definition meters (v : number) (unit : string) : number :=
  if String.eqb unit "ft" then mul v (lit "0.3048")
  else if String.eqb unit "in" then mul v (lit "0.0254")
  else v.

Definition tileArea (c : CalcInputs) : number :=
  mul (meters (parseFloat (tileLength c)) (tileUnit c))
      (meters (parseFloat (tileWidth c)) (tileUnit c)).

Definition roomArea (c : CalcInputs) : number :=
  mul (meters (parseFloat (roomLength c)) (roomUnit c))
      (meters (parseFloat (roomWidth c)) (roomUnit c)).

(** A valid calculator input: the four lengths are positive once converted to
    metres, and the tile price is a positive number. *)
Definition valid_input (c : CalcInputs) : Prop :=
  positive_number (meters (parseFloat (tileLength c)) (tileUnit c)) /\
  positive_number (meters (parseFloat (tileWidth c)) (tileUnit c)) /\
  positive_number (meters (parseFloat (roomLength c)) (roomUnit c)) /\
  positive_number (meters (parseFloat (roomWidth c)) (roomUnit c)) /\
  positive_number (parseFloat (tilePrice c)).

(** The room of 4 m by 5 m with tiles of 0.3 m by 0.3 m at 100 a tile, to be
    delivered 8 miles inside the store's parish. *)
Definition example_calc : CalcInputs :=
  mkCalcInputs "0.3" "0.3" "m" "100" "4" "5" "m".

Definition example_state : AppState :=
  mkAppState (mkAuthState None "" "" "" "" false false) [] "Marble" "Marble"
    example_calc None
    (mkDeliveryInputs "delivery" "8" false (ofZ 0) "KNG" (ofZ 0) "" (lit "1.25"))
    (mkCustomerInputs "" "" "" "" "").

Definition example_browser : Browser := mkBrowser ∅ ∅ [] 0.

(** The same input with a tile price of -5. *)
Definition negative_price_state : AppState :=
  set_calc (mkCalcInputs "0.3" "0.3" "m" "-5" "4" "5" "m") example_state.

(** The ticket numbers of a ledger. *)
Definition tickets (l : list Order) : list string := map ticketNumber l.

(** The order form is complete: a result has been calculated, a sales rep is
    logged in, the customer has a name and a phone number, and a delivery
    inside the parish has a positive mileage. *)
Definition can_place (st : AppState) : bool :=
  match result st, loggedInUser (auth st) with
  | Some _, Some _ =>
      negb (is_empty (trim (customerName (cust st))))
      && negb (is_empty (trim (customerPhone (cust st))))
      && negb (String.eqb (deliveryMethod (dlv st)) "delivery"
               && negb (isNewParish (dlv st))
               && (isNaN (parseFloat (deliveryMiles (dlv st)))
                   || leb (parseFloat (deliveryMiles (dlv st))) (ofZ 0)))
  | _, _ => false
  end.

(** The stored ledger is the one in the component's state. *)
Definition synced (st : AppState) (b : Browser) : Prop :=
  stored_orders b = Normal (orders st).

(** Two names have equal normal forms exactly when they are equal. *)
Definition normalize_agrees (p q : string) : bool :=
  Bool.eqb (String.eqb (normalizeParish (Some p)) (normalizeParish (Some q)))
           (String.eqb p q).

(** A session for the examples: the clock, and draws of which the second and
    third make the ticket TRU-A1B2-ZZZZ and the fourth and fifth the ticket
    TRU-K3K3-QWER. *)
Definition example_env : Env :=
  mkEnv (fun n => match n with
                  | 0 => "0.4fzyo82mvyr"
                  | 1 => "0.a1b2c3d4e5f"
                  | 2 => "0.zzzz1111"
                  | 3 => "0.k3k3k3"
                  | _ => "0.qwertyuiop"
                  end)
        1762041600000 "2025-11-02T00:00:00.000Z".

Definition example_rep : SalesRep :=
  mkSalesRep 1 "Default Rep" "rep1" "1234" "EMP001".

(** The example input after Calculate, with a sales rep logged in and the
    customer's name and phone number entered. *)
Definition ready_state : AppState :=
  set_cust (mkCustomerInputs " Ann Lee " "876-555-0101" "" "12 Hope Rd" "")
    (set_auth (mkAuthState (Some example_rep) "" "" "" "" false false)
       (fst (handleCalculate example_state example_browser))).

(** An order that already holds the ticket TRU-A1B2-ZZZZ, and a browser whose
    storage holds a ledger with it. *)
Definition taken_order : Order :=
  mkOrder "ORD-mhgxyz00-AAAAA" "TRU-A1B2-ZZZZ" "Default Rep" "EMP001"
    (mkCustomer "Bo" "876-555-0100" "" "" "") "Marble" "Marble"
    (mkDimensions "0.3" "0.3" "m") "100" (mkDimensions "4" "5" "m")
    (ofZ 223) (ofZ 22300) (mkThinset (ofZ 5) (ofZ 1500) (ofZ 7500))
    (mkDeliveryQuote "pickup" false (ofZ 0) (ofZ 0) STORES_0
       (mkAutoEstimate (ofZ 0) "" (lit "1.25")))
    (ofZ 29800) "2025-11-01T00:00:00.000Z".

Definition stocked_browser : Browser :=
  mkBrowser {[ "orders" := OrdersDoc [taken_order] ]} ∅ [] 1.

(** The same ledger in a browser that has made no draw yet: the first ticket
    drawn for a new order is the one [taken_order] holds. *)
Definition colliding_browser : Browser :=
  mkBrowser {[ "orders" := OrdersDoc [taken_order] ]} ∅ [] 0.

(** The ready state of a page that shows that ledger, and the state of the
    first render on that browser. *)
Definition stocked_ready : AppState := setOrders [taken_order] ready_state.

Definition stocked_start : AppState :=
  match initialState colliding_browser with
  | Normal st => st
  | Throw => example_state
  end.

(** *** The tile count of the specification, in exact arithmetic *)

(** The digits [m] and the decimal exponent [e] of an unsigned decimal text:
    its value is exactly [m * 10^e]. *)
Definition exact_decimal (s : string) : option (Z * Z) :=
  let '(i, ni, r1) := read_digits 0 0 (trimStart s) in
  match r1 with
  | String "."%char r2 =>
      let '(m, nf, r3) := read_digits i 0 r2 in
      if ((ni =? 0) && (nf =? 0))%Z then None
      else let '(e, _) := read_exponent r3 in Some (m, (e - nf)%Z)
  | _ =>
      if (ni =? 0)%Z then None
      else let '(e, _) := read_exponent r1 in Some (i, e)
  end.

(** A length in metres as a fraction of integers, with the factors of the
    specification taken exactly: 1 ft = 3048/10000 m, 1 in = 254/10000 m. *)
Definition exact_meters (value unit : string) : option (Z * Z) :=
  match exact_decimal value with
  | None => None
  | Some (m, e) =>
      let '(n, d) := if (0 <=? e)%Z then ((m * 10 ^ e)%Z, 1%Z)
                     else (m, (10 ^ (- e))%Z) in
      if String.eqb unit "ft" then Some ((n * 3048)%Z, (d * 10000)%Z)
      else if String.eqb unit "in" then Some ((n * 254)%Z, (d * 10000)%Z)
      else Some (n, d)
  end.

(** The tile count as the specification words it: the ceiling of the room
    area over the tile area, both exact. *)
Definition exact_tiles (c : CalcInputs) : option Z :=
  match exact_meters (tileLength c) (tileUnit c),
        exact_meters (tileWidth c) (tileUnit c),
        exact_meters (roomLength c) (roomUnit c),
        exact_meters (roomWidth c) (roomUnit c) with
  | Some (tl, tld), Some (tw, twd), Some (rl, rld), Some (rw, rwd) =>
      let num := (rl * rw * (tld * twd))%Z in
      let den := (rld * rwd * (tl * tw))%Z in
      if (0 <? num)%Z && (0 <? den)%Z then Some (- ((- num) / den))%Z else None
  | _, _, _, _ => None
  end.

(** The calculator stores one tile more than the exact count for the input. *)
Definition overcounts_by_one (c : CalcInputs) : Prop :=
  valid_input c
  /\ exists n r,
       exact_tiles c = Some n
       /\ handleCalculate (set_calc c example_state) example_browser
          = (setResult r (set_calc c example_state), example_browser)
       /\ tilesNeeded r = ofZ (n + 1).

(** Tiles of 12 in by 12 in in a room given in feet, and square tiles in a
    room given in metres. *)
Definition foot_room (a b : string) : CalcInputs :=
  mkCalcInputs "12" "12" "in" "100" a b "ft".

Definition metre_room (t a b : string) : CalcInputs :=
  mkCalcInputs t t "m" "100" a b "m".

(** Rooms that a whole number of tiles fills exactly. *)
Definition exact_fits : list CalcInputs :=
  [ foot_room "10" "10"; foot_room "1" "1"; foot_room "2" "3";
    foot_room "8" "10"; foot_room "12" "15"; foot_room "20" "20";
    metre_room "0.3" "3.6" "3.6" ].

End Spec.

(** ** The rest of the page: room dimensions, scene objects, the panel *)

Module Scene.

Import JSString JSNumber App.

(** [Math.min] of two numbers: NaN if either is NaN, and [-0] below [+0]. *)
Definition Math_min (a b : number) : number :=
  if isNaN a || isNaN b then NaN
  else if ltb a b then a
  else if ltb b a then b
  else match a, b with
       | S754_zero false, S754_zero _ => b
       | _, _ => a
       end.

(** The dimensions the room is drawn with, computed in the body of the
    component: a length that does not convert falls back to 10 m for the room
    and to 0.3 m for the tile. *)
Definition roomWm (st : AppState) : number :=
  or_else (convertToMeters (roomWidth (calc st)) (roomUnit (calc st))) (ofZ 10).

Definition roomLm (st : AppState) : number :=
  or_else (convertToMeters (roomLength (calc st)) (roomUnit (calc st))) (ofZ 10).

Definition tileWm (st : AppState) : number :=
  or_else (convertToMeters (tileWidth (calc st)) (tileUnit (calc st))) (lit "0.3").

Definition tileLm (st : AppState) : number :=
  or_else (convertToMeters (tileLength (calc st)) (tileUnit (calc st))) (lit "0.3").

Definition floorSizeX (useRealScale : bool) (st : AppState) : number :=
  if useRealScale then roomWm st else ofZ 10.

Definition floorSizeY (useRealScale : bool) (st : AppState) : number :=
  if useRealScale then roomLm st else ofZ 10.

(** The grout thickness handed to the floor and wall grout lines. *)
Definition groutThickness (groutMm : number) : number :=
  Math_max (lit "0.0005") (Math_min (lit "0.03") (div groutMm (ofZ 1000))).

(** [clampedSoft] of the light rig. *)
Definition clampedSoft (softness : number) : number :=
  Math_min (ofZ 1) (Math_max (ofZ 0) softness).

Record Asset := mkAsset {
  assetId : string;
  asset_label : string;
  asset_url : string;
  category : string;
  asset_modelScale : number }.

Definition OBJECT_CATALOG : list Asset :=
  [ mkAsset "bed_queen"   "Bed (Queen)"     "/models/bed_queen.glb"       "Bedroom" (ofZ 1);
    mkAsset "nightstand"  "Nightstand"      "/models/nightstand.glb"      "Bedroom" (ofZ 1);
    mkAsset "wardrobe"    "Wardrobe"        "/models/wardrobe.glb"        "Bedroom" (ofZ 1);
    mkAsset "sofa_3"      "Sofa (3-Seater)" "/models/sofa_3.glb"          "Living Room" (ofZ 1);
    mkAsset "coffee_tbl"  "Coffee Table"    "/models/coffee_table.glb"    "Living Room" (ofZ 1);
    mkAsset "kitchen_cab" "Kitchen Cabinet" "/models/kitchen_cabinet.glb" "Kitchen" (ofZ 1);
    mkAsset "fridge"      "Fridge"          "/models/fridge.glb"          "Kitchen" (ofZ 1);
    mkAsset "toilet"      "Toilet"          "/models/toilet.glb"          "Bathroom" (ofZ 1);
    mkAsset "sink"        "Sink"            "/models/sink.glb"            "Bathroom" (ofZ 1);
    mkAsset "bathtub"     "Bathtub"         "/models/bathtub.glb"         "Bathroom" (ofZ 1);
    mkAsset "plant"       "Plant"           "/models/plant.glb"           "Misc" (ofZ 1) ].

Definition vec3 : Type := number * number * number.

(** An object placed in the scene. *)
Record PlacedObject := mkPlacedObject {
  obj_id : string;
  obj_assetId : string;
  obj_label : string;
  obj_url : string;
  obj_modelScale : number;
  obj_position : vec3;
  obj_rotationY : number;
  obj_scale : number }.

(** The object given to [updateObject]: the properties it has. *)
Record Patch := mkPatch {
  patch_position : option vec3;
  patch_rotationY : option number;
  patch_scale : option number }.

Record SceneState := mkSceneState {
  objects : list PlacedObject;
  selectedObjectId : option string }.

(** [{ ...o, ...patch }]. *)
Definition apply_patch (o : PlacedObject) (p : Patch) : PlacedObject :=
  mkPlacedObject (obj_id o) (obj_assetId o) (obj_label o) (obj_url o)
    (obj_modelScale o)
    (default (obj_position o) (patch_position p))
    (default (obj_rotationY o) (patch_rotationY p))
    (default (obj_scale o) (patch_scale p)).

Definition selectedObject (sc : SceneState) : option PlacedObject :=
  match selectedObjectId sc with
  | Some sel => List.find (fun o => String.eqb (obj_id o) sel) (objects sc)
  | None => None
  end.

Definition addObject (env : Env) (a : string) (sc : SceneState) (b : Browser)
  : SceneState * Browser :=
  match List.find (fun x => String.eqb (assetId x) a) OBJECT_CATALOG with
  | None => (sc, b)
  | Some asset =>
      let id := "obj-" ++ toString (ofZ (Date_now env)) ++ "-"
                ++ slice 2 7 (Math_random36 env (draws b)) in
      let newObj :=
        mkPlacedObject id a (asset_label asset) (asset_url asset)
          (or_else (asset_modelScale asset) (ofZ 1))
          (ofZ 0, ofZ 0, ofZ 0) (ofZ 0) (ofZ 1) in
      (mkSceneState (objects sc ++ [newObj]) (Some id),
       with_draws (S (draws b)) b)
  end.

Definition removeObject (id : string) (sc : SceneState) : SceneState :=
  mkSceneState
    (List.filter (fun o => negb (String.eqb (obj_id o) id)) (objects sc))
    (match selectedObjectId sc with
     | Some sel => if String.eqb sel id then None else Some sel
     | None => None
     end).

Definition updateObject (id : string) (patch : Patch) (sc : SceneState)
  : SceneState :=
  mkSceneState
    (List.map (fun o => if String.eqb (obj_id o) id then apply_patch o patch
                        else o) (objects sc))
    (selectedObjectId sc).

(** The transform of the group a gizmo moves. *)
Record Transform := mkTransform {
  g_position : vec3;
  g_rotation : vec3;
  g_scale : vec3 }.

Definition clampToRoom (sizeX sizeY : number) (x z : number) : number * number :=
  let halfX := div sizeX (ofZ 2) in
  let halfZ := div sizeY (ofZ 2) in
  (Math_min halfX (Math_max (neg halfX) x),
   Math_min halfZ (Math_max (neg halfZ) z)).

(** [handleChange] of a scene object: the corrected transform of the group and
    the patch reported through [onChange]; nothing when the group is not
    mounted. *)
Definition handleChange (sizeX sizeY : number) (g : option Transform)
  : option (Transform * Patch) :=
  match g with
  | None => None
  | Some t =>
      let '(px, _, pz) := g_position t in
      let '(_, ry, _) := g_rotation t in
      let '(sx, _, _) := g_scale t in
      let '(cx, cz) := clampToRoom sizeX sizeY px pz in
      let s := Math_max (lit "0.01") sx in
      Some (mkTransform (cx, ofZ 0, cz) (ofZ 0, ry, ofZ 0) (s, s, s),
            mkPatch (Some (cx, ofZ 0, cz)) (Some ry) (Some s))
  end.

(** A transform-gizmo change on the object [id]: [handleChange], then the
    [onChange] of the page, which is [updateObject]. *)
Definition gizmo_change (useRealScale : bool) (st : AppState) (id : string)
    (g : option Transform) (sc : SceneState) : SceneState :=
  match handleChange (floorSizeX useRealScale st) (floorSizeY useRealScale st) g with
  | None => sc
  | Some (_, patch) => updateObject id patch sc
  end.

(** The draggable panel. *)
Record Rect := mkRect {
  rect_left : number;
  rect_top : number;
  rect_width : number;
  rect_height : number }.

Record PanelState := mkPanelState {
  pos : number * number;
  dragging : bool;
  offset : number * number;
  collapsed : bool }.

Definition onPointerDown (clientX clientY : number) (panel : option Rect)
    (ps : PanelState) : PanelState :=
  match panel with
  | Some rect =>
      mkPanelState (pos ps) true
        (sub clientX (rect_left rect), sub clientY (rect_top rect)) (collapsed ps)
  | None => mkPanelState (pos ps) true (offset ps) (collapsed ps)
  end.

Definition onMove (clientX clientY : number) (container panel : option Rect)
    (ps : PanelState) : PanelState :=
  if negb (dragging ps) then ps
  else
    match container, panel with
    | Some cRect, Some pRect =>
        let x := sub (sub clientX (rect_left cRect)) (fst (offset ps)) in
        let y := sub (sub clientY (rect_top cRect)) (snd (offset ps)) in
        let padding := ofZ 8 in
        let maxX := Math_max padding
                      (sub (sub (rect_width cRect) (rect_width pRect)) padding) in
        let maxY := Math_max padding
                      (sub (sub (rect_height cRect) (rect_height pRect)) padding) in
        mkPanelState (Math_min maxX (Math_max padding x),
                      Math_min maxY (Math_max padding y))
          (dragging ps) (offset ps) (collapsed ps)
    | _, _ => ps
    end.

Definition onUp (ps : PanelState) : PanelState :=
  mkPanelState (pos ps) false (offset ps) (collapsed ps).

End Scene.

(** ** The first showroom: [TilesRUsShowroom.jsx] *)

Module Showroom.

Import JSString JSNumber App.

Record State := mkState {
  sr_tile : string;
  sr_wallColor : string;
  sr_length : string;
  sr_width : string;
  sr_unit : string;
  sr_result : option number }.

(** The calculator of the first showroom; the alerts shown so far are the
    second component. *)
Definition handleCalculate (st : State) (shown : list string)
  : State * list string :=
  let l := parseFloat (sr_length st) in
  let w := parseFloat (sr_width st) in
  if isNaN l || isNaN w
  then (st, (shown ++ ["Please enter valid dimensions"])%list)
  else
    let area := if String.eqb (sr_unit st) "ft"
                then mul (mul l (lit "0.3048")) (mul w (lit "0.3048"))
                else mul l w in
    let tilesNeeded := Math_ceil (div area (lit "0.25")) in
    (mkState (sr_tile st) (sr_wallColor st) (sr_length st) (sr_width st)
       (sr_unit st) (Some tilesNeeded), shown).

End Showroom.

(** ** Predicates and example data for the rest of the page *)

Module Props.

Import JSString JSNumber Geo App Spec Scene.

(** "Not negative": a zero, a finite number or infinity with the sign plus. *)
Definition nonneg (x : number) : Prop := signed false x /\ isNaN x = false.

(** A zero or a finite number. *)
Definition is_finite (x : number) : bool :=
  match x with S754_zero _ | S754_finite _ _ _ => true | _ => false end.

(** An input the calculator cannot use as a length: it has no leading number,
    or the number is zero or negative. *)
Definition unusable (s : string) : Prop :=
  isNaN (parseFloat s) = true \/ leb (parseFloat s) (ofZ 0) = true.

(** A change of case: a map on code units that keeps the lower-case form,
    white space and the point. *)
Definition case_map (f : ascii -> ascii) : Prop :=
  forall c, lower_char (f c) = lower_char c
            /\ is_ws (f c) = is_ws c
            /\ Ascii.eqb (f c) "." = Ascii.eqb c ".".

(** A text of code units below 128 only, the texts on which the case and
    white-space functions above are those of JavaScript. *)
Fixpoint ascii_only (s : string) : bool :=
  match s with
  | String c r => (nat_of_ascii c <? 128)%nat && ascii_only r
  | EmptyString => true
  end.

(** A string of white space only. *)
Fixpoint all_ws (s : string) : bool :=
  match s with
  | String c r => is_ws c && all_ws r
  | EmptyString => true
  end.

(** *** Sales reps *)

Definition usernames (l : list SalesRep) : list string := map rep_username l.

(** The rep a registration form describes. *)
Definition newRep (env : Env) (st : AppState) : SalesRep :=
  mkSalesRep (Date_now env) (name (auth st)) (username (auth st))
    (password (auth st)) (employeeId_input (auth st)).

(** Every field of the registration form is filled in. *)
Definition form_filled (st : AppState) : bool :=
  negb (is_empty (name (auth st))) && negb (is_empty (username (auth st)))
  && negb (is_empty (password (auth st)))
  && negb (is_empty (employeeId_input (auth st))).

Definition username_taken (u : string) (reps : list SalesRep) : bool :=
  existsb (fun rep => String.eqb (rep_username rep) u) reps.

(** The rep has the username and the password of the login form. *)
Definition credentials_of (st : AppState) (rep : SalesRep) : bool :=
  String.eqb (rep_username rep) (username (auth st))
  && String.eqb (rep_password rep) (password (auth st)).

(** The browser a successful login leaves. *)
Definition remember (st : AppState) (found : SalesRep) (b : Browser) : Browser :=
  if rememberMe (auth st)
  then sessionStorage_removeItem "loggedInUser"
         (localStorage_setItem "loggedInUser" (UserDoc found) b)
  else localStorage_removeItem "loggedInUser"
         (sessionStorage_setItem "loggedInUser" (UserDoc found) b).

(** The rep the first render stores when none is registered. *)
Definition defaultRep : SalesRep :=
  mkSalesRep 1 "Default Rep" "rep1" "1234" "EMP001".

(** *** Totals and orders *)

(** The totals of a result, and of an order, add up. *)
Definition result_consistent (r : Result) : Prop :=
  thinsetBagPrice r = ofZ 1500
  /\ thinsetCost r = mul (thinsetBags r) (thinsetBagPrice r)
  /\ grandTotal r = add (add (totalCost r) (thinsetCost r)) (dq_cost (delivery r)).

Definition order_consistent (o : Order) : Prop :=
  ts_bagPrice (thinset o) = ofZ 1500
  /\ ts_cost (thinset o) = mul (ts_bags (thinset o)) (ts_bagPrice (thinset o))
  /\ order_grandTotal o
     = add (add (order_totalCost o) (ts_cost (thinset o)))
           (dq_cost (order_delivery o)).

Definition totals_consistent (st : AppState) : Prop :=
  (forall r, result st = Some r -> result_consistent r)
  /\ Forall order_consistent (orders st).

(** What an order records of a state: the numbers of the stored result, the
    calculator inputs as they are now, the trimmed customer fields and the
    rep who is logged in. *)
Definition records (o : Order) (st : AppState) (r : Result) (u : SalesRep) : Prop :=
  salesRep o = rep_name u /\ employeeId o = rep_employeeId u
  /\ customer o = mkCustomer (trim (customerName (cust st)))
                    (trim (customerPhone (cust st)))
                    (trim (customerEmail (cust st)))
                    (trim (customerAddress (cust st)))
                    (trim (customerNotes (cust st)))
  /\ order_tile o = tile st /\ order_wallTile o = wallTile st
  /\ tileDimensions o = mkDimensions (tileLength (calc st)) (tileWidth (calc st))
                          (tileUnit (calc st))
  /\ order_tilePrice o = tilePrice (calc st)
  /\ roomDimensions o = mkDimensions (roomLength (calc st)) (roomWidth (calc st))
                          (roomUnit (calc st))
  /\ order_tilesNeeded o = tilesNeeded r /\ order_totalCost o = totalCost r
  /\ thinset o = mkThinset (thinsetBags r) (thinsetBagPrice r) (thinsetCost r)
  /\ order_delivery o = delivery r /\ order_grandTotal o = grandTotal r.

(** The calculator input of the page that describes the room of the first
    showroom with tiles of 0.5 m by 0.5 m. *)
Definition showroom_calc (sr : Showroom.State) (price : string) : CalcInputs :=
  mkCalcInputs "0.5" "0.5" "m" price (Showroom.sr_length sr)
    (Showroom.sr_width sr) (Showroom.sr_unit sr).

(** *** The scene and the panel *)

Definition ids (sc : SceneState) : list string := map obj_id (objects sc).

(** The id [addObject] gives the next object. *)
Definition new_id (env : Env) (b : Browser) : string :=
  "obj-" ++ toString (ofZ (Date_now env)) ++ "-"
  ++ slice 2 7 (Math_random36 env (draws b)).

(** The patch of two updates one after the other: a later property wins. *)
Definition merge_patch (p q : Patch) : Patch :=
  mkPatch (match patch_position q with Some v => Some v | None => patch_position p end)
          (match patch_rotationY q with Some v => Some v | None => patch_rotationY p end)
          (match patch_scale q with Some v => Some v | None => patch_scale p end).

(** The largest coordinate of the panel in a container of extent [c] for a
    panel of extent [p]: 8 pixels from the far edge, and never below 8. *)
Definition panel_max (c p : number) : number :=
  Math_max (ofZ 8) (sub (sub c p) (ofZ 8)).

(** *** Example data *)

(** The example input with a room length that is not a number. *)
Definition bad_room_state : AppState :=
  set_calc (mkCalcInputs "0.3" "0.3" "m" "100" "abc" "5" "m") example_state.

(** A room of 4 by 5 metres in the first showroom. *)
Definition example_showroom : Showroom.State :=
  Showroom.mkState "Marble" "#ffffff" "4" "5" "m" None.

(** A browser in which the default rep is registered. *)
Definition rep_browser : Browser :=
  mkBrowser {[ "salesReps" := RepsDoc [defaultRep] ]} ∅ [] 0.

(** The same browser after the default rep has logged in with "remember me". *)
Definition remembered_browser : Browser :=
  mkBrowser (<["loggedInUser" := UserDoc defaultRep]>
               {[ "salesReps" := RepsDoc [defaultRep] ]}) ∅ [] 0.

(** The login form with the credentials of the default rep, to be remembered. *)
Definition login_form : AppState :=
  set_auth (mkAuthState None "rep1" "1234" "" "" true false) example_state.

(** A registration form for a new rep, the login form with her credentials,
    and a registration form that asks for the username of the default rep. *)
Definition register_form : AppState :=
  set_auth (mkAuthState None "ann" "pw1" "Ann Lee" "EMP002" false true)
    example_state.

Definition ann_login_form : AppState :=
  set_auth (mkAuthState None "ann" "pw1" "" "" false false) example_state.

Definition taken_form : AppState :=
  set_auth (mkAuthState None "rep1" "abcd" "Bo" "EMP003" false true)
    example_state.

(** The state of the first render in a browser whose storage is empty. *)
Definition fresh_state : AppState :=
  match initialState example_browser with
  | Normal st => st
  | Throw => example_state
  end.

(** A session: the page loads, the default rep logs in, the example input is
    calculated with a delivery of 8 miles, and two orders are placed. *)
Definition session : list (Env * Event) :=
  map (fun ev => (example_env, ev))
    [ Mount; EditAuth "rep1" "1234" "" "" false false; Login;
      EditCalc example_calc; SetDeliveryMethod "delivery"; SetDeliveryMiles "8";
      Calculate;
      EditCustomer (mkCustomerInputs " Ann Lee " "876-555-0101" "" "" "");
      PlaceOrder;
      EditCustomer (mkCustomerInputs "Bo" "876-555-0100" "" "" "");
      PlaceOrder ].

(** The ready state with a customer name of white space only. *)
Definition blank_customer_state : AppState :=
  set_cust (mkCustomerInputs "   " "876-555-0101" "" "" "") ready_state.

(** The example input with a rep logged in and a customer entered, before
    Calculate. *)
Definition filled_state : AppState :=
  set_cust (mkCustomerInputs " Ann Lee " "876-555-0101" "" "12 Hope Rd" "")
    (set_auth (mkAuthState (Some example_rep) "" "" "" "" false false)
       example_state).

(** The same form for tiles of 12 in by 12 in in a room of 10 ft by 10 ft,
    which 100 tiles fill exactly. *)
Definition exact_fit_state : AppState :=
  set_calc (foot_room "10" "10") filled_state.

(** Larger and dearer tiles for the same room. *)
Definition edited_calc : CalcInputs :=
  mkCalcInputs "0.6" "0.6" "m" "250" "4" "5" "m".

(** A scene with a sofa and a plant, the sofa selected. *)
Definition sofa : PlacedObject :=
  mkPlacedObject "obj-1-aaaaa" "sofa_3" "Sofa (3-Seater)" "/models/sofa_3.glb"
    (ofZ 1) (ofZ 1, ofZ 0, ofZ 2) (ofZ 0) (ofZ 1).

Definition plant : PlacedObject :=
  mkPlacedObject "obj-2-bbbbb" "plant" "Plant" "/models/plant.glb"
    (ofZ 1) (ofZ 0, ofZ 0, ofZ 0) (ofZ 0) (ofZ 1).

Definition example_scene : SceneState :=
  mkSceneState [sofa; plant] (Some "obj-1-aaaaa").

(** A gizmo transform that lifts the object, tilts it, drags it out of the
    room and shrinks it below the smallest scale. *)
Definition example_transform : Transform :=
  mkTransform (ofZ 7, ofZ 1, ofZ (-9)) (lit "0.2", lit "1.5", lit "0.1")
    (lit "0.001", ofZ 2, ofZ 3).

(** A container of 800 by 600 pixels, a panel of 300 by 200 pixels, and a
    panel being dragged that was grabbed 10 pixels inside its corner. *)
Definition example_container : Rect := mkRect (ofZ 0) (ofZ 0) (ofZ 800) (ofZ 600).

Definition example_panel : Rect := mkRect (ofZ 16) (ofZ 16) (ofZ 300) (ofZ 200).

Definition dragged_panel : PanelState :=
  mkPanelState (ofZ 16, ofZ 16) true (ofZ 10, ofZ 10) false.

End Props.

(** ** Facts about numbers *)

Module NumberFacts.

Import JSString JSNumber Spec.

(** The conversions between strings and numbers on known values. *)
Example parseFloat_examples :
  map (fun s => toString (parseFloat s))
      ["0.3"; " 12.5abc"; "-0"; "1e400"; ".5e-3"; "1."; "1e+"; "abc"; "";
       "-Infinity"; "2e-324"; "9007199254740993"]
  = ["0.3"; "12.5"; "0"; "Infinity"; "0.0005"; "1"; "1"; "NaN"; "NaN";
     "-Infinity"; "0"; "9007199254740992"].
Proof. vm_compute. reflexivity. Qed.

Example toString_examples :
  toString (add (parseFloat "0.1") (parseFloat "0.2")) = "0.30000000000000004"
  /\ toString (mul (parseFloat "12") (parseFloat "0.0254"))
     = "0.30479999999999996"
  /\ toString (mul (parseFloat "10") (parseFloat "0.3048")) = "3.048"
  /\ toString (parseFloat "1e21") = "1e+21"
  /\ toString (parseFloat "123456789012345680000") = "123456789012345680000"
  /\ toString (parseFloat "0.000001") = "0.000001"
  /\ toString (parseFloat "0.0000001") = "1e-7"
  /\ toString (parseFloat "5e-324") = "5e-324".
Proof. repeat split; vm_compute; reflexivity. Qed.

Example toFixed_examples :
  map (fun s => toFixed (parseFloat s) 1)
      ["0.6"; "0.05"; "0.25"; "0.35"; "1.45"; "12.34"; "0"; "-0.01"; "-1.25";
       "9.96"; "1e21"; "abc"]
  = ["0.6"; "0.1"; "0.3"; "0.3"; "1.4"; "12.3"; "0.0"; "-0.0"; "-1.3";
     "10.0"; "1e+21"; "NaN"]
  /\ toFixed (parseFloat "1.005") 2 = "1.00"
  /\ toFixed (parseFloat "2.5") 0 = "3".
Proof. repeat split; vm_compute; reflexivity. Qed.

Example ToNumber_examples :
  map (fun s => toString (ToNumber s))
      ["0.6"; " 12 "; ""; "0x1F"; "12px"; "-0.0"; "1e+21"; "0b101"; "1."]
  = ["0.6"; "12"; "0"; "31"; "NaN"; "0"; "1e+21"; "5"; "1"].
Proof. vm_compute. reflexivity. Qed.

Example Math_ceil_examples :
  map (fun s => toString (Math_ceil (parseFloat s)))
      ["222.22222222222223"; "4.30556"; "4"; "-0.5"; "-1.5"; "0.2"; "1e300";
       "abc"]
  = ["223"; "5"; "4"; "0"; "-1"; "1"; "1e+300"; "NaN"].
Proof. vm_compute. reflexivity. Qed.

Lemma binary_round_aux_signed s m e l :
  signed s (binary_round_aux prec emax s m e l).
Proof.
  unfold binary_round_aux.
  destruct (shr_fexp prec emax m e l) as [mrs e1].
  destruct (shr_fexp prec emax _ e1 loc_Exact) as [mrs2 e2].
  destruct (shr_m mrs2); simpl; trivial.
  destruct (Z.leb _ _); simpl; trivial.
Qed.



Lemma positive_number_inv x :
  positive_number x ->
  (exists m e, x = S754_finite false m e) \/ x = S754_infinity false.
Proof.
  unfold positive_number, ltb, SFltb, ofZ. simpl.
  destruct x as [s|s| |s m e]; simpl; try discriminate.
  - destruct s; [discriminate|]. now right.
  - destruct s; [discriminate|]. left; eauto.
Qed.


Lemma positive_number_truthy x : positive_number x -> truthy x = true.
Proof. intros [(m & e & ->)| ->]%positive_number_inv; reflexivity. Qed.

Lemma positive_number_guard x :
  positive_number x -> isNaN x || leb x (ofZ 0) = false.
Proof. intros [(m & e & ->)| ->]%positive_number_inv; reflexivity. Qed.

Lemma mul_signed x y s t :
  signed s x -> signed t y -> signed (xorb s t) (mul x y).
Proof.
  unfold mul, SFmul.
  destruct x as [a|a| |a mx ex], y as [c|c| |c my ey]; simpl; intros; subst;
    trivial.
  apply binary_round_aux_signed.
Qed.

Lemma div_signed x y s t :
  signed s x -> signed t y -> signed (xorb s t) (div x y).
Proof.
  unfold div, SFdiv.
  destruct x as [a|a| |a mx ex], y as [c|c| |c my ey]; simpl; intros; subst;
    trivial.
  destruct (SFdiv_core_binary _ _ _ _ _ _) as [[mz ez] lz].
  apply binary_round_aux_signed.
Qed.



Lemma SFcompare_antisym x y c :
  SFcompare x y = Some c -> SFcompare y x = Some (CompOpp c).
Proof.
  destruct x as [a|a| |a mx ex], y as [d|d| |d my ey]; simpl;
    try discriminate; intros H; injection H as <-;
    try (destruct a; reflexivity); try (destruct d; reflexivity);
    try (destruct a, d; reflexivity).
  destruct a, d; simpl; try reflexivity.
  - rewrite (Z.compare_antisym ex ey).
    destruct (ex ?= ey)%Z eqn:E; simpl; try reflexivity.
    pose proof (Pos.compare_cont_antisym mx my Eq) as H; simpl in H.
    now rewrite <- H.
  - rewrite (Z.compare_antisym ex ey).
    destruct (ex ?= ey)%Z eqn:E; simpl; try reflexivity.
    pose proof (Pos.compare_cont_antisym mx my Eq) as H; simpl in H.
    now rewrite <- H.
Qed.

(** A product with a positive factor is positive only if the other factor
    is. *)
Lemma positive_mul_inv v c :
  positive_number c -> positive_number (mul v c) -> positive_number v.
Proof.
  intros [(m & e & ->)| ->]%positive_number_inv;
    destruct v as [a|a| |a mv ev]; try destruct a;
    unfold positive_number, mul; simpl; try discriminate; trivial.
  intros H.
  pose proof (binary_round_aux_signed true (Z.pos (mv * m)) (ev + e) loc_Exact)
    as S.
  destruct (binary_round_aux _ _ _ _ _ _) as [t|t| |t m' e']; simpl in S; subst;
    discriminate.
Qed.

End NumberFacts.

(** ** The calculator: tile count, thinset and totals *)

Module Calculator.

Import JSString JSNumber App Spec NumberFacts.

Lemma lit_ft_positive : positive_number (lit "0.3048").
Proof. vm_compute. reflexivity. Qed.

Lemma lit_in_positive : positive_number (lit "0.0254").
Proof. vm_compute. reflexivity. Qed.

Lemma meters_positive_inv v u :
  positive_number (meters v u) -> positive_number v.
Proof.
  unfold meters.
  destruct (String.eqb u "ft"); [apply positive_mul_inv, lit_ft_positive|].
  destruct (String.eqb u "in"); [apply positive_mul_inv, lit_in_positive|].
  trivial.
Qed.

(** On a length that is positive in metres, the guard of [convertToMeters]
    does not fire and the function is the specification's conversion. *)
Lemma convertToMeters_valid s u :
  positive_number (meters (parseFloat s) u) ->
  convertToMeters s u = meters (parseFloat s) u.
Proof.
  intros H. unfold convertToMeters.
  rewrite (positive_number_guard _ (meters_positive_inv _ _ H)).
  reflexivity.
Qed.

(** A length that is missing, not a number or not positive converts to [0]. *)
Lemma convertToMeters_invalid s u :
  isNaN (parseFloat s) = true \/ leb (parseFloat s) (ofZ 0) = true ->
  convertToMeters s u = ofZ 0.
Proof.
  intros H. unfold convertToMeters.
  destruct H as [-> | ->]; [reflexivity | now rewrite orb_true_r].
Qed.

(** A valid input is accepted, and every field of the result is computed by
    the formula of the source. *)
Lemma handleCalculate_accepts st b :
  valid_input (calc st) ->
  exists r, handleCalculate st b = (setResult r st, b)
    /\ tilesNeeded r = Math_ceil (div (roomArea (calc st)) (tileArea (calc st)))
    /\ totalCost r = mul (tilesNeeded r) (parseFloat (tilePrice (calc st)))
    /\ roomAreaM2 r = roomArea (calc st)
    /\ roomAreaSqFt r = mul (roomArea (calc st)) (lit "10.7639")
    /\ thinsetBags r
       = Math_max (ofZ 0) (Math_ceil (div (roomAreaSqFt r) (ofZ 50)))
    /\ thinsetBagPrice r = ofZ 1500
    /\ thinsetCost r = mul (thinsetBags r) (ofZ 1500)
    /\ dq_cost (delivery r) =
         computeDeliveryCost (deliveryMethod (dlv st)) (deliveryMiles (dlv st))
           (isNewParish (dlv st))
    /\ grandTotal r =
         add (add (totalCost r) (thinsetCost r)) (dq_cost (delivery r)).
Proof.
  intros (H1 & H2 & H3 & H4 & H5).
  unfold handleCalculate.
  rewrite !convertToMeters_valid by assumption.
  rewrite (positive_number_truthy _ H1), (positive_number_truthy _ H2),
    (positive_number_truthy _ H3), (positive_number_truthy _ H4),
    (positive_number_truthy _ H5).
  cbn [negb orb].
  eexists. split; [reflexivity|].
  cbn [tilesNeeded totalCost roomAreaM2 roomAreaSqFt thinsetBags thinsetBagPrice
       thinsetCost delivery dq_cost grandTotal].
  repeat split; reflexivity.
Qed.

(** An input with a length that is missing, not a number or not positive, or
    with a price that is missing, not a number or zero, is rejected: one
    alert, and the state with its stored result is left as it was. *)
Lemma handleCalculate_rejects st b :
  let c := calc st in
  let bad s := isNaN (parseFloat s) = true \/ leb (parseFloat s) (ofZ 0) = true in
  bad (tileLength c) \/ bad (tileWidth c) \/ bad (roomLength c)
  \/ bad (roomWidth c) \/ truthy (parseFloat (tilePrice c)) = false ->
  handleCalculate st b = (st, alert AlertEnterValues b).
Proof.
  intros c bad H. unfold handleCalculate. fold c.
  destruct H as [H|[H|[H|[H|H]]]];
    [rewrite (convertToMeters_invalid (tileLength c) _ H)
    |rewrite (convertToMeters_invalid (tileWidth c) _ H)
    |rewrite (convertToMeters_invalid (roomLength c) _ H)
    |rewrite (convertToMeters_invalid (roomWidth c) _ H)
    |rewrite H];
    change (truthy (ofZ 0)) with false; cbn [negb]; rewrite ?orb_true_r;
    reflexivity.
Qed.

(** What the code computes: for every valid calculator input [handleCalculate]
    stores a result whose tile count is [Math.ceil] of the binary64 quotient
    of the two binary64 areas; for a room of 4 m by 5 m and tiles of 0.3 m by
    0.3 m that is 223 tiles. *)
Lemma handleCalculate_tilesNeeded st b :
  valid_input (calc st) ->
  exists r, handleCalculate st b = (setResult r st, b)
    /\ tilesNeeded r = Math_ceil (div (roomArea (calc st)) (tileArea (calc st)))
    /\ (forall price,
          calc st = mkCalcInputs "0.3" "0.3" "m" price "4" "5" "m" ->
          tilesNeeded r = ofZ 223).
Proof.
  intros Hv. destruct (handleCalculate_accepts st b Hv) as (r & Hr & Ht & _).
  exists r. repeat (split; [assumption|]).
  intros price Hc. rewrite Ht, Hc. vm_compute. reflexivity.
Qed.

Lemma handleCalculate_tilesNeeded_witness :
  valid_input (calc example_state) /\
  exists r, handleCalculate example_state example_browser
            = (setResult r example_state, example_browser)
    /\ tilesNeeded r = ofZ 223.
Proof.
  assert (Hv : valid_input (calc example_state))
    by (repeat split; vm_compute; reflexivity).
  split; [exact Hv|].
  destruct (handleCalculate_tilesNeeded example_state example_browser Hv)
    as (r & Hr & _ & H223).
  exists r. split; [exact Hr|]. apply (H223 "100"). reflexivity.
Defined.

(** The areas, their quotient and its ceiling are the binary64 values the
    source computes.  For tiles of 12 in by 12 in in a room of 10 ft by 10 ft
    the quotient of the two areas is 100.00000000000003, and the tile count
    is 101. *)
Remark tile_count_is_binary64 :
  toString (div (roomArea (mkCalcInputs "12" "12" "in" "100" "10" "10" "ft"))
                (tileArea (mkCalcInputs "12" "12" "in" "100" "10" "10" "ft")))
  = "100.00000000000003"
  /\ Math_ceil
       (div (roomArea (mkCalcInputs "12" "12" "in" "100" "10" "10" "ft"))
            (tileArea (mkCalcInputs "12" "12" "in" "100" "10" "10" "ft")))
     = ofZ 101.
Proof. split; vm_compute; reflexivity. Qed.

(** C1.  The tile count of the claim is the ceiling of the room area over the
    tile area.  On the claim's example, a room of 4 m by 5 m with tiles of
    0.3 m by 0.3 m, the exact count and the stored count are both 223.  But
    [handleCalculate] takes [Math.ceil] of a quotient of rounded areas, and on
    rooms that a whole number of tiles fills exactly it stores one tile too
    many: 100 tiles of 12 in by 12 in fill a room of 10 ft by 10 ft and 101
    are stored, and the same happens for rooms of 1 by 1, 2 by 3, 8 by 10,
    12 by 15 and 20 by 20 feet and, with no unit conversion at all, for tiles
    of 0.3 m in a room of 3.6 m by 3.6 m (144 fit, 145 are stored). *)
Theorem handleCalculate_overcounts_exact_fit :
  (exact_tiles example_calc = Some 223%Z
   /\ exists r, handleCalculate example_state example_browser
                = (setResult r example_state, example_browser)
                /\ tilesNeeded r = ofZ 223)
  /\ (exact_tiles (foot_room "10" "10") = Some 100%Z
      /\ exists r,
           handleCalculate (set_calc (foot_room "10" "10") example_state)
             example_browser
           = (setResult r (set_calc (foot_room "10" "10") example_state),
              example_browser)
           /\ tilesNeeded r = ofZ 101)
  /\ Forall overcounts_by_one exact_fits.
Proof.
  split; [split; [vm_compute; reflexivity|]|split; [split; [vm_compute; reflexivity|]|]].
  - eexists. split; vm_compute; reflexivity.
  - eexists. split; vm_compute; reflexivity.
  - unfold exact_fits.
    repeat (apply List.Forall_cons;
            [split; [repeat split; vm_compute; reflexivity|];
             eexists _, _; split; [vm_compute; reflexivity|];
             split; vm_compute; reflexivity|]).
    apply List.Forall_nil.
Qed.




(** C5.  With a tile price of -5 and valid lengths [handleCalculate] does not
    reject: it raises no alert and stores a result, with 223 tiles at a total
    tile cost of -1115. *)
Theorem handleCalculate_accepts_negative_price :
  ltb (parseFloat (tilePrice (calc negative_price_state))) (ofZ 0) = true
  /\ snd (handleCalculate negative_price_state example_browser) = example_browser
  /\ exists r,
       result (fst (handleCalculate negative_price_state example_browser))
       = Some r
       /\ result negative_price_state = None
       /\ tilesNeeded r = ofZ 223
       /\ totalCost r = ofZ (-1115).
Proof.
  split; [vm_compute; reflexivity|].
  split; [vm_compute; reflexivity|].
  eexists. split; [vm_compute; reflexivity|].
  repeat split; vm_compute; reflexivity.
Qed.

End Calculator.

(** ** The delivery cost *)

Module Delivery.

Import JSString JSNumber App Spec NumberFacts.

Lemma ltb_leb_false x y : ltb x y = true -> leb y x = false.
Proof.
  unfold ltb, leb, SFltb, SFleb.
  destruct (SFcompare x y) as [[| |]|] eqn:E; try discriminate.
  intros _. now rewrite (SFcompare_antisym _ _ _ E).
Qed.

Lemma leb_ltb_false x y : leb x y = true -> ltb y x = false.
Proof.
  unfold ltb, leb, SFltb, SFleb.
  destruct (SFcompare x y) as [[| |]|] eqn:E; try discriminate;
    intros _; now rewrite (SFcompare_antisym _ _ _ E).
Qed.

Lemma leb_not_NaN_r x y : leb x y = true -> isNaN y = false.
Proof. destruct y; trivial. destruct x; discriminate. Qed.

(** Above five is above zero. *)
Lemma above_five_positive x : ltb (ofZ 5) x = true -> positive_number x.
Proof.
  unfold positive_number.
  destruct x as [s|s| |s m e]; try destruct s; vm_compute; trivial.
Qed.

(** Enter the body of [computeDeliveryCost] for the method delivery. *)
Ltac delivery_body :=
  unfold computeDeliveryCost;
  change (negb ("delivery" =? "delivery")) with false; cbv iota.

(** Pickup, and any method other than delivery, costs nothing. *)
Lemma computeDeliveryCost_not_delivery method milesInput newParish :
  method <> "delivery" ->
  computeDeliveryCost method milesInput newParish = ofZ 0.
Proof.
  intros H. unfold computeDeliveryCost.
  apply String.eqb_neq in H. now rewrite H.
Qed.

(** C2, as the source has it.  For a delivery inside the parish the cost is
    the flat fee 1500 when [0 < miles <= 5], and [1500 + (miles - 5) * 250]
    when [miles > 5], so 2250 for 8 miles; a mileage that is missing, not a
    number, zero or negative costs 0. *)
Theorem computeDeliveryCost_in_parish (milesInput : string) :
  (ltb (ofZ 0) (parseFloat milesInput) = true ->
   leb (parseFloat milesInput) (ofZ 5) = true ->
   computeDeliveryCost "delivery" milesInput false = ofZ 1500)
  /\ (ltb (ofZ 5) (parseFloat milesInput) = true ->
      computeDeliveryCost "delivery" milesInput false
      = add (ofZ 1500) (mul (sub (parseFloat milesInput) (ofZ 5)) (ofZ 250)))
  /\ (isNaN (parseFloat milesInput) = true
      \/ leb (parseFloat milesInput) (ofZ 0) = true ->
      computeDeliveryCost "delivery" milesInput false = ofZ 0)
  /\ computeDeliveryCost "delivery" "8" false = ofZ 2250.
Proof.
  delivery_body.
  split; [|split; [|split]].
  - intros H0 H5. rewrite (positive_number_guard _ H0), H5. reflexivity.
  - intros H5. rewrite (positive_number_guard _ (above_five_positive _ H5)).
    now rewrite (ltb_leb_false _ _ H5).
  - intros [-> | ->]; [reflexivity | now rewrite orb_true_r].
  - vm_compute. reflexivity.
Qed.

Lemma computeDeliveryCost_in_parish_witness :
  computeDeliveryCost "delivery" "3.5" false = ofZ 1500
  /\ computeDeliveryCost "delivery" "5" false = ofZ 1500
  /\ computeDeliveryCost "delivery" "12" false
     = add (ofZ 1500) (mul (sub (parseFloat "12") (ofZ 5)) (ofZ 250))
  /\ computeDeliveryCost "delivery" "" false = ofZ 0.
Proof.
  split; [|split; [|split]].
  - apply (proj1 (computeDeliveryCost_in_parish "3.5")); vm_compute; reflexivity.
  - apply (proj1 (computeDeliveryCost_in_parish "5")); vm_compute; reflexivity.
  - apply (proj1 (proj2 (computeDeliveryCost_in_parish "12"))).
    vm_compute. reflexivity.
  - apply (proj1 (proj2 (proj2 (computeDeliveryCost_in_parish "")))).
    left. vm_compute. reflexivity.
Defined.

(** C2, as the claim states it, fails at zero miles: 0 is at most 5, and the
    cost is 0, not the flat fee 1500. *)
Lemma in_parish_zero_miles_costs_nothing :
  leb (parseFloat "0") (ofZ 5) = true
  /\ computeDeliveryCost "delivery" "0" false = ofZ 0
  /\ computeDeliveryCost "delivery" "0" false <> ofZ 1500.
Proof.
  split; [vm_compute; reflexivity|].
  split; [vm_compute; reflexivity|].
  vm_compute. discriminate.
Qed.

(** C3.  For a delivery into a new parish with a mileage [miles >= 0] the cost
    is [3500 + miles * 450], so 4400 for 2 miles; and pickup costs 0. *)
Theorem computeDeliveryCost_new_parish (milesInput : string) (newParish : bool) :
  (leb (ofZ 0) (parseFloat milesInput) = true ->
   computeDeliveryCost "delivery" milesInput true
   = add (ofZ 3500) (mul (parseFloat milesInput) (ofZ 450)))
  /\ computeDeliveryCost "delivery" "2" true = ofZ 4400
  /\ computeDeliveryCost "pickup" milesInput newParish = ofZ 0.
Proof.
  split; [|split].
  - intros H. delivery_body.
    now rewrite (leb_not_NaN_r _ _ H), (leb_ltb_false _ _ H).
  - vm_compute. reflexivity.
  - reflexivity.
Qed.

Lemma computeDeliveryCost_new_parish_witness :
  leb (ofZ 0) (parseFloat "7.5") = true
  /\ computeDeliveryCost "delivery" "7.5" true
     = add (ofZ 3500) (mul (parseFloat "7.5") (ofZ 450))
  /\ computeDeliveryCost "delivery" "7.5" true = ofZ 6875.
Proof.
  assert (H : leb (ofZ 0) (parseFloat "7.5") = true) by (vm_compute; reflexivity).
  split; [exact H|].
  pose proof (proj1 (computeDeliveryCost_new_parish "7.5" true) H) as E.
  split; [exact E|]. rewrite E. vm_compute. reflexivity.
Defined.

(** C10.  For a delivery into a new parish whose mileage is missing, not a
    number or negative, the cost is the base fee 3500: the mileage counts as
    0, and the function returns a number in every case. *)
Theorem computeDeliveryCost_new_parish_invalid (milesInput : string) :
  isNaN (parseFloat milesInput) = true
  \/ ltb (parseFloat milesInput) (ofZ 0) = true ->
  computeDeliveryCost "delivery" milesInput true = ofZ 3500.
Proof.
  intros H. delivery_body.
  replace (isNaN (parseFloat milesInput) || ltb (parseFloat milesInput) (ofZ 0))
    with true by (destruct H as [-> | ->]; [reflexivity | now rewrite orb_true_r]).
  vm_compute. reflexivity.
Qed.

Lemma computeDeliveryCost_new_parish_invalid_witness :
  computeDeliveryCost "delivery" "" true = ofZ 3500
  /\ computeDeliveryCost "delivery" "abc" true = ofZ 3500
  /\ computeDeliveryCost "delivery" "-3" true = ofZ 3500.
Proof.
  split; [|split].
  - apply (computeDeliveryCost_new_parish_invalid ""). left. vm_compute. reflexivity.
  - apply (computeDeliveryCost_new_parish_invalid "abc"). left. vm_compute. reflexivity.
  - apply (computeDeliveryCost_new_parish_invalid "-3"). right. vm_compute. reflexivity.
Defined.

End Delivery.

(** ** Parish matching *)

Module Parish.

Import JSString JSNumber Geo App Spec.

(** Every canonical name is matched to itself, also in upper case, in lower
    case and with the word Parish after it. *)
Lemma matchParishName_canonical p :
  In p JAMAICA_PARISHES ->
  matchParishName (Some p) = Some p
  /\ matchParishName (Some (toUpperCase p)) = Some p
  /\ matchParishName (Some (toLowerCase p)) = Some p
  /\ matchParishName (Some (p ++ " Parish")) = Some p.
Proof.
  intros H. simpl in H.
  repeat (destruct H as [<- | H]; [repeat split; vm_compute; reflexivity|]).
  destruct H.
Qed.

(** The abbreviation is expanded when a point or a space alone follows it. *)
Lemma matchParishName_St_forms rest :
  In ("Saint " ++ rest) JAMAICA_PARISHES ->
  matchParishName (Some ("St." ++ rest)) = Some ("Saint " ++ rest)
  /\ matchParishName (Some ("St " ++ rest)) = Some ("Saint " ++ rest).
Proof.
  intros H. cbv in H.
  repeat (destruct H as [H | H];
          [try discriminate H; injection H as <-; split; vm_compute; reflexivity|]).
  destruct H.
Qed.

Lemma find_all_false {A : Type} (f : A -> bool) (l : list A) :
  (forall x, In x l -> f x = false) -> List.find f l = None.
Proof.
  induction l as [|a l IH]; intros H; simpl; [reflexivity|].
  rewrite (H a) by (left; reflexivity). apply IH.
  intros x Hx. apply H. now right.
Qed.

(** A string whose normal form contains no parish name is not matched. *)
Lemma matchParishName_none s :
  (forall p, In p JAMAICA_PARISHES ->
             includes (normalizeParish (Some s)) (normalizeParish (Some p)) = false) ->
  matchParishName (Some s) = None.
Proof.
  intros H. unfold matchParishName. destruct s as [|c s]; [reflexivity|].
  apply find_all_false. intros p Hp.
  rewrite (H p Hp), orb_false_r.
  apply String.eqb_neq. intros E.
  specialize (H p Hp). rewrite <- E in H.
  assert (R : forall t, includes t t = true).
  { assert (S : forall t, startsWith t t = true).
    { induction t as [|a t IH]; simpl; [reflexivity|].
      now rewrite Ascii.eqb_refl, IH. }
    intros t. destruct t; simpl; [reflexivity|].
    now rewrite Ascii.eqb_refl, S. }
  rewrite R in H. discriminate.
Qed.

(** With a point and a space after the abbreviation no Saint parish is
    matched. *)
Lemma matchParishName_St_dot_space_all rest :
  In ("Saint " ++ rest) JAMAICA_PARISHES ->
  matchParishName (Some ("St. " ++ rest)) = None.
Proof.
  intros H. cbv in H.
  repeat (destruct H as [H | H];
          [try discriminate H; injection H as <-; vm_compute; reflexivity|]).
  destruct H.
Qed.

(** C8.  The usual abbreviation, [St.] followed by a space, is not matched:
    the three code units [St.] are replaced by [Saint ] and the space that
    followed stays, so the normal form has two spaces and contains no parish
    name.  [matchParishName("St. Andrew")] is [null], and so it is for each of
    the seven parishes whose name starts with Saint, while [St Andrew] and
    [St.Andrew] are matched. *)
Theorem matchParishName_St_dot_space :
  normalizeParish (Some "St. Andrew") = "saint  andrew"
  /\ matchParishName (Some "St. Andrew") = None
  /\ map (fun rest => matchParishName (Some ("St. " ++ rest)))
         ["Andrew"; "Thomas"; "Mary"; "Ann"; "James"; "Elizabeth"; "Catherine"]
     = [None; None; None; None; None; None; None]
  /\ matchParishName (Some "St Andrew") = Some "Saint Andrew"
  /\ matchParishName (Some "St.Andrew") = Some "Saint Andrew".
Proof.
  split; [reflexivity|]. split; [reflexivity|].
  split; [vm_compute; reflexivity|].
  split; vm_compute; reflexivity.
Qed.

End Parish.

(** ** The automatic distance *)

Module AutoDistance.

Import JSString JSNumber Geo App Spec.

Lemma normalizeParish_canonical p q :
  In p JAMAICA_PARISHES -> In q JAMAICA_PARISHES ->
  String.eqb (normalizeParish (Some p)) (normalizeParish (Some q))
  = String.eqb p q.
Proof.
  assert (H : forallb (fun p => forallb (normalize_agrees p) JAMAICA_PARISHES)
                JAMAICA_PARISHES = true) by (vm_compute; reflexivity).
  rewrite forallb_forall in H. intros Hp Hq.
  specialize (H p Hp). rewrite forallb_forall in H. specialize (H q Hq).
  unfold normalize_agrees in H. now apply eqb_prop in H.
Qed.

(** The parish of the selected store is a canonical name. *)
Lemma selectedStore_parish st :
  In (store_parish (selectedStore st)) JAMAICA_PARISHES.
Proof.
  unfold selectedStore.
  destruct (find _ STORES) as [s|] eqn:E.
  - apply find_some in E as [E _].
    assert (H : forallb (fun s => existsb (String.eqb (store_parish s))
                                    JAMAICA_PARISHES) STORES = true)
      by (vm_compute; reflexivity).
    rewrite forallb_forall in H. specialize (H s E).
    apply existsb_exists in H as (q & Hq & Heq).
    apply String.eqb_eq in Heq. now rewrite Heq.
  - vm_compute. tauto.
Qed.

Lemma canonical_nonempty p : In p JAMAICA_PARISHES -> nonempty (Some p) = true.
Proof.
  assert (H : forallb (fun p => nonempty (Some p)) JAMAICA_PARISHES = true)
    by reflexivity.
  rewrite forallb_forall in H. apply H.
Qed.

(** For any guess of the destination parish that is not empty, the flag is
    whether the two normal forms differ. *)
Lemma applyAutoDistanceToUI_cross st totalMiles dest :
  nonempty (Some dest) = true ->
  isNewParish (dlv (applyAutoDistanceToUI totalMiles (Some dest) st))
  = negb (String.eqb (normalizeParish (Some dest))
            (normalizeParish (Some (store_parish (selectedStore st)))))
  /\ deliveryMiles (dlv (applyAutoDistanceToUI totalMiles (Some dest) st))
     = if isNewParish (dlv (applyAutoDistanceToUI totalMiles (Some dest) st))
       then toString (Math_max (ofZ 1)
                        (ToNumber (toFixed (mul totalMiles (lit "0.3")) 1)))
       else toString (ToNumber (toFixed totalMiles 1)).
Proof.
  intros Hd. unfold applyAutoDistanceToUI. rewrite Hd.
  destruct (String.eqb _ _); cbn [negb]; cbv iota; split; reflexivity.
Qed.

(** Without a guess the flag stays as it was and the mileage is the estimated
    distance rounded to one decimal place. *)
Lemma applyAutoDistanceToUI_unknown st totalMiles dest :
  nonempty dest = false ->
  isNewParish (dlv (applyAutoDistanceToUI totalMiles dest st))
  = isNewParish (dlv st)
  /\ deliveryMiles (dlv (applyAutoDistanceToUI totalMiles dest st))
     = toString (ToNumber (toFixed totalMiles 1)).
Proof.
  intros Hd. unfold applyAutoDistanceToUI. rewrite Hd. split; reflexivity.
Qed.

(** C7, as the source has it.  For a detected destination parish (one of the
    fourteen names): if it differs from the parish of the selected store, the
    new-parish flag is set and the delivery mileage is 30% of the estimated
    total distance rounded to one decimal place, and 1 when that is below 1;
    if it is the parish of the store, the flag is cleared and the mileage is
    the estimated distance rounded to one decimal place. *)
Theorem applyAutoDistanceToUI_parish st totalMiles dest :
  In dest JAMAICA_PARISHES ->
  (dest <> store_parish (selectedStore st) ->
     isNewParish (dlv (applyAutoDistanceToUI totalMiles (Some dest) st)) = true
     /\ deliveryMiles (dlv (applyAutoDistanceToUI totalMiles (Some dest) st))
        = toString (Math_max (ofZ 1)
                      (ToNumber (toFixed (mul totalMiles (lit "0.3")) 1))))
  /\ (dest = store_parish (selectedStore st) ->
     isNewParish (dlv (applyAutoDistanceToUI totalMiles (Some dest) st)) = false
     /\ deliveryMiles (dlv (applyAutoDistanceToUI totalMiles (Some dest) st))
        = toString (ToNumber (toFixed totalMiles 1))).
Proof.
  intros Hd.
  destruct (applyAutoDistanceToUI_cross st totalMiles dest
              (canonical_nonempty _ Hd)) as [Hflag Hmiles].
  rewrite (normalizeParish_canonical _ _ Hd (selectedStore_parish st)) in Hflag.
  split; intros H.
  - apply String.eqb_neq in H. rewrite H in Hflag. cbn [negb] in Hflag.
    rewrite Hflag in Hmiles. split; assumption.
  - apply String.eqb_eq in H. rewrite H in Hflag. cbn [negb] in Hflag.
    rewrite Hflag in Hmiles. split; assumption.
Qed.

Lemma applyAutoDistanceToUI_parish_witness :
  In "Kingston" JAMAICA_PARISHES
  /\ "Kingston" <> store_parish (selectedStore example_state)
  /\ isNewParish (dlv (applyAutoDistanceToUI (lit "41") (Some "Kingston")
                         example_state)) = true
  /\ deliveryMiles (dlv (applyAutoDistanceToUI (lit "41") (Some "Kingston")
                           example_state)) = "12.3".
Proof.
  assert (Hin : In "Kingston" JAMAICA_PARISHES) by (simpl; auto).
  assert (Hne : "Kingston" <> store_parish (selectedStore example_state))
    by (vm_compute; discriminate).
  split; [exact Hin|]. split; [exact Hne|].
  destruct (proj1 (applyAutoDistanceToUI_parish example_state (lit "41")
                     "Kingston" Hin) Hne) as [Hflag Hmiles].
  split; [exact Hflag|]. rewrite Hmiles. vm_compute. reflexivity.
Defined.

(** C7, as the claim states it, fails.  For an estimated 2 miles to Kingston
    from the store in Saint Andrew the mileage is set to 1, and 30% of 2 is
    0.6; for an estimated 12.34 miles inside Saint Andrew the mileage is set
    to 12.3, not to the full 12.34. *)
Lemma thirty_percent_counterexample :
  In "Kingston" JAMAICA_PARISHES
  /\ "Kingston" <> store_parish (selectedStore example_state)
  /\ deliveryMiles (dlv (applyAutoDistanceToUI (lit "2") (Some "Kingston")
                           example_state)) = "1"
  /\ toString (mul (lit "2") (lit "0.3")) = "0.6"
  /\ parseFloat (deliveryMiles (dlv (applyAutoDistanceToUI (lit "2")
                                      (Some "Kingston") example_state)))
     <> mul (lit "2") (lit "0.3")
  /\ "Saint Andrew" = store_parish (selectedStore example_state)
  /\ deliveryMiles (dlv (applyAutoDistanceToUI (lit "12.34")
                           (Some "Saint Andrew") example_state)) = "12.3"
  /\ parseFloat (deliveryMiles (dlv (applyAutoDistanceToUI (lit "12.34")
                                      (Some "Saint Andrew") example_state)))
     <> lit "12.34".
Proof.
  split; [simpl; auto|].
  split; [vm_compute; discriminate|].
  split; [vm_compute; reflexivity|].
  split; [vm_compute; reflexivity|].
  split; [vm_compute; discriminate|].
  split; [vm_compute; reflexivity|].
  split; [vm_compute; reflexivity|].
  vm_compute; discriminate.
Qed.

End AutoDistance.

(** ** The order ledger: tickets and appends *)

Module Ledger.

Import JSString JSNumber App Spec.

Section Tickets.

Variable env : Env.

(** A ticket the loop returns is not in the set it was checked against. *)
Lemma ticket_loop_fresh fuel ex n t n' :
  ticket_loop env fuel ex n = Some (t, n') -> t ∉ ex.
Proof.
  revert n. induction fuel as [|fuel IH]; intros n; simpl; [discriminate|].
  case_bool_decide as Hin; [apply IH|].
  intros [= <- <-]. exact Hin.
Qed.

(** If the round number [k] draws a free ticket, [k + 1] rounds are enough. *)
Lemma ticket_loop_returns ex k n :
  ticket_of env (n + 2 * k) ∉ ex ->
  exists t n', ticket_loop env (S k) ex n = Some (t, n') /\ t ∉ ex.
Proof.
  revert n. induction k as [|k IH]; intros n Hfresh.
  - replace (n + 2 * 0) with n in Hfresh by lia. simpl.
    rewrite bool_decide_eq_false_2 by exact Hfresh. eauto.
  - cbn [ticket_loop]. case_bool_decide as Hin; [|eauto].
    apply IH. replace (S (S n) + 2 * k) with (n + 2 * S k) by lia.
    exact Hfresh.
Qed.

(** C6.  For every order ledger in storage, a ticket number that
    [generateTicketNumber] returns is not the ticket number of any order of
    the ledger; and it does return one as soon as some round of the loop
    draws a ticket that is free: the rounds before it are the retries. *)
Theorem generateTicketNumber_fresh b ledger :
  stored_orders b = Normal ledger ->
  (forall fuel t b',
      generateTicketNumber env fuel b = Some (Normal (t, b')) ->
      t ∉ tickets ledger)
  /\ (forall k,
      ticket_of env (draws b + 2 * k) ∉ tickets ledger ->
      exists t b',
        generateTicketNumber env (S k) b = Some (Normal (t, b'))
        /\ t ∉ tickets ledger).
Proof.
  intros Hl. unfold generateTicketNumber. rewrite Hl. split.
  - intros fuel t b'.
    destruct (ticket_loop _ _ _ _) as [[t0 n]|] eqn:E; [|discriminate].
    intros [= <- <-]. apply ticket_loop_fresh in E.
    now rewrite elem_of_list_to_set in E.
  - intros k Hk.
    destruct (ticket_loop_returns (list_to_set (tickets ledger)) k (draws b))
      as (t & n & E & Ht).
    { now rewrite elem_of_list_to_set. }
    unfold tickets in E. rewrite E. exists t, (with_draws n b).
    split; [reflexivity|]. now rewrite elem_of_list_to_set in Ht.
Qed.

End Tickets.

Lemma generateTicketNumber_fresh_witness :
  stored_orders stocked_browser = Normal [taken_order]
  /\ ticket_of example_env (draws stocked_browser) ∈ tickets [taken_order]
  /\ exists t b',
       generateTicketNumber example_env 2 stocked_browser = Some (Normal (t, b'))
       /\ t ∉ tickets [taken_order].
Proof.
  assert (Hl : stored_orders stocked_browser = Normal [taken_order])
    by (vm_compute; reflexivity).
  split; [exact Hl|].
  split; [apply (bool_decide_unpack _); vm_compute; exact I|].
  apply (proj2 (generateTicketNumber_fresh example_env stocked_browser
                  [taken_order] Hl) 1).
  apply (bool_decide_unpack _). vm_compute. exact I.
Defined.

(** With a stored ledger, the ticket generation returns as soon as some round
    draws a ticket that no order of the ledger holds. *)
Lemma generateTicketNumber_returns env b ledger k :
  stored_orders b = Normal ledger ->
  ticket_of env (draws b + 2 * k) ∉ tickets ledger ->
  exists t b', generateTicketNumber env (S k) b = Some (Normal (t, b')).
Proof.
  intros Hl Hk. unfold generateTicketNumber. rewrite Hl.
  destruct (ticket_loop_returns env (list_to_set (tickets ledger)) k (draws b))
    as (t & n & E & _).
  { now rewrite elem_of_list_to_set. }
  unfold tickets in E. rewrite E. eauto.
Qed.

(** An incomplete order form: one alert, nothing else changes. *)
Lemma handlePlaceOrder_blocked env fuel st b :
  can_place st = false ->
  exists a, handlePlaceOrder env fuel st b = Some (Normal (st, alert a b)).
Proof.
  unfold can_place, handlePlaceOrder.
  destruct (result st) as [r|]; [|eauto].
  destruct (loggedInUser (auth st)) as [u|]; [|eauto].
  destruct (is_empty (trim (customerName (cust st)))); [eauto|].
  destruct (is_empty (trim (customerPhone (cust st)))); [eauto|].
  cbn [negb andb orb].
  destruct (_ && _ && _); [eauto|discriminate].
Qed.

(** A complete order form: the call ends as its ticket generation does, and
    when that returns a ticket the new order carries it, the list with the
    order at its end becomes the state and is stored under the key. *)
Lemma handlePlaceOrder_placed env fuel st b :
  can_place st = true ->
  match generateTicketNumber env fuel (snd (generateOrderId env b)) with
  | None => handlePlaceOrder env fuel st b = None
  | Some Throw => handlePlaceOrder env fuel st b = Some Throw
  | Some (Normal (ticket, b2)) =>
      exists o,
        ticketNumber o = ticket
        /\ handlePlaceOrder env fuel st b =
           Some (Normal (set_cust (mkCustomerInputs "" "" "" "" "")
                           (setOrders (orders st ++ [o]) st),
                         alert (AlertOrderCreated o)
                           (localStorage_setItem "orders"
                              (OrdersDoc (orders st ++ [o])) b2)))
  end.
Proof.
  unfold can_place, handlePlaceOrder.
  destruct (result st) as [r|]; [|discriminate].
  destruct (loggedInUser (auth st)) as [u|]; [|discriminate].
  destruct (is_empty (trim (customerName (cust st)))); [discriminate|].
  destruct (is_empty (trim (customerPhone (cust st)))); [discriminate|].
  cbn [negb andb orb].
  destruct (_ && _ && _); [discriminate|]. intros _.
  destruct (generateOrderId env b) as [oid b1]. cbn [snd].
  destruct (generateTicketNumber env fuel b1) as [[[ticket b2]|]|]; trivial.
  eexists. split; [|reflexivity]. reflexivity.
Qed.

Lemma generateTicketNumber_storage env fuel b t b' :
  generateTicketNumber env fuel b = Some (Normal (t, b')) ->
  localStorage b' = localStorage b /\ sessionStorage b' = sessionStorage b
  /\ alerts b' = alerts b.
Proof.
  unfold generateTicketNumber. destruct (stored_orders b); [|discriminate].
  destruct (ticket_loop _ _ _ _) as [[t0 n]|]; [|discriminate].
  intros [= <- <-]. auto.
Qed.

Lemma handlePlaceOrder_ledger env fuel st b st' b' :
  handlePlaceOrder env fuel st b = Some (Normal (st', b')) ->
  (can_place st = false /\ orders st' = orders st
   /\ localStorage b' = localStorage b)
  \/ (can_place st = true /\ exists o,
        orders st' = (orders st ++ [o])%list
        /\ localStorage b'
           = <["orders" := OrdersDoc (orders st')]> (localStorage b)).
Proof.
  intros H. destruct (can_place st) eqn:Hc.
  - right. split; [reflexivity|].
    pose proof (handlePlaceOrder_placed env fuel st b Hc) as P.
    destruct (generateTicketNumber _ _ _) as [[[ticket b2]|]|] eqn:G;
      [|congruence|congruence].
    destruct P as (o & _ & P). rewrite P in H. injection H as <- <-.
    exists o. split; [reflexivity|].
    apply generateTicketNumber_storage in G as (Hl & _).
    cbn in Hl |- *. rewrite Hl. reflexivity.
  - left. destruct (handlePlaceOrder_blocked env fuel st b Hc) as (a & P).
    rewrite P in H. injection H as <- <-. auto.
Qed.

(** Every event leaves the ledger and its stored copy as they were, or is a
    placed order that puts one order at the end and stores the whole list. *)
Lemma step_ledger env fuel ev st b st' b' :
  step env fuel ev st b = Some (Normal (st', b')) ->
  (orders st' = orders st
   /\ localStorage b' !! "orders" = localStorage b !! "orders")
  \/ (ev = PlaceOrder /\ exists o,
        orders st' = (orders st ++ [o])%list
        /\ localStorage b' !! "orders" = Some (OrdersDoc (orders st'))).
Proof.
  destruct ev; cbn [step]; try (intros [= <- <-]; left; split; reflexivity).
  - destruct (mount st b) as [[st1 b1]|] eqn:E; try discriminate.
    intros [= <- <-]. left. unfold mount in E.
    destruct (stored_reps b) as [reps|]; [|discriminate].
    set (b1' := match reps with [] => _ | _ => _ end) in E.
    assert (Hb : orders st = orders st
                 /\ localStorage b1' !! "orders" = localStorage b !! "orders").
    { split; [reflexivity|]. subst b1'. destruct reps; [|reflexivity].
      cbn. now rewrite lookup_insert_ne. }
    destruct (match localStorage b1' !! "loggedInUser" with
              | Some _ => _ | None => _ end) in E;
      injection E as <- <-; exact Hb.
  - intros [= <- <-]. left. split; [|reflexivity].
    unfold applyAutoDistanceToUI.
    destruct (nonempty destParishGuess); [destruct (negb _)|]; reflexivity.
  - destruct (handleCalculate st b) as [st1 b1] eqn:E. intros [= <- <-].
    left. unfold handleCalculate in E.
    destruct (_ || _) in E; injection E as <- <-; split; reflexivity.
  - destruct (handlePlaceOrder env fuel st b) as [[[st1 b1]|]|] eqn:E;
      try discriminate.
    intros [= <- <-].
    apply handlePlaceOrder_ledger in E as [(_ & Ho & Hs)|(_ & o & Ho & Hs)].
    + left. rewrite Hs. auto.
    + right. split; [reflexivity|]. exists o. split; [exact Ho|].
      rewrite Hs. cbn. apply lookup_insert_eq.
  - destruct (handleRegister env st b) as [[st1 b1]|] eqn:E; try discriminate.
    intros [= <- <-]. left. unfold handleRegister in E.
    destruct (_ || _) in E; [injection E as <- <-; auto|].
    destruct (stored_reps b) as [reps|]; [|discriminate].
    destruct (existsb _ _) in E; injection E as <- <-; split; try reflexivity.
    cbn. now rewrite lookup_insert_ne.
  - destruct (handleLogin st b) as [[st1 b1]|] eqn:E; try discriminate.
    intros [= <- <-]. left. unfold handleLogin in E.
    destruct (stored_reps b) as [reps|]; [|discriminate].
    destruct (find _ _) as [found|]; injection E as <- <-; split;
      try reflexivity.
    destruct (rememberMe (auth st)); cbn.
    + now rewrite lookup_insert_ne.
    + now rewrite lookup_delete_ne.
  - intros [= <- <-]. left. split; [reflexivity|]. cbn.
    now rewrite lookup_delete_ne.
Qed.

Lemma step_synced env fuel ev st b st' b' :
  step env fuel ev st b = Some (Normal (st', b')) ->
  synced st b -> synced st' b'.
Proof.
  intros H. unfold synced, stored_orders.
  apply step_ledger in H as [(-> & ->)|(_ & o & _ & ->)]; trivial.
Qed.

Lemma run_ledger fuel evs st b st' b' :
  run fuel evs st b = Some (Normal (st', b')) ->
  orders st `prefix_of` orders st' /\ (synced st b -> synced st' b').
Proof.
  revert st b. induction evs as [|[env ev] evs IH]; intros st b; cbn [run].
  - intros [= <- <-]. split; [reflexivity|trivial].
  - destruct (step env fuel ev st b) as [[[st1 b1]|]|] eqn:E; try discriminate.
    intros H. destruct (IH _ _ H) as [Hp Hs]. split.
    + etransitivity; [|exact Hp].
      apply step_ledger in E as [(-> & _)|(_ & o & -> & _)];
        [reflexivity | now apply prefix_app_r].
    + intros S0. apply Hs. exact (step_synced _ _ _ _ _ _ _ E S0).
Qed.

(** C9.  Placing an order puts exactly one new order at the end of the order
    list and stores the whole new list under the one key; the call returns as
    soon as a free ticket is drawn.  Every event of the page either leaves the
    list and its stored copy untouched or is such a placement, so along any
    session the earlier list is a prefix of the later one, no order is changed
    or removed, and the stored copy stays the whole list. *)
Theorem ledger_append_only :
  (forall env fuel st b st' b',
      can_place st = true ->
      handlePlaceOrder env fuel st b = Some (Normal (st', b')) ->
      exists o,
        orders st' = (orders st ++ [o])%list
        /\ localStorage b'
           = <["orders" := OrdersDoc (orders st ++ [o])]> (localStorage b))
  /\ (forall env k st b ledger,
      can_place st = true ->
      stored_orders b = Normal ledger ->
      ticket_of env (S (draws b) + 2 * k) ∉ tickets ledger ->
      exists st' b', handlePlaceOrder env (S k) st b = Some (Normal (st', b')))
  /\ (forall env fuel ev st b st' b',
      step env fuel ev st b = Some (Normal (st', b')) ->
      (orders st' = orders st
       /\ localStorage b' !! "orders" = localStorage b !! "orders")
      \/ (ev = PlaceOrder /\ exists o,
            orders st' = (orders st ++ [o])%list
            /\ localStorage b' !! "orders" = Some (OrdersDoc (orders st'))))
  /\ (forall fuel evs st b st' b',
      run fuel evs st b = Some (Normal (st', b')) ->
      (forall i o, orders st !! i = Some o -> orders st' !! i = Some o)
      /\ (synced st b -> synced st' b')).
Proof.
  split; [|split; [|split]].
  - intros env fuel st b st' b' Hc H.
    apply handlePlaceOrder_ledger in H as [(Hc' & _)|(_ & o & Ho & Hs)];
      [congruence|].
    exists o. split; [exact Ho|]. now rewrite <- Ho.
  - intros env k st b ledger Hc Hl Hk.
    pose proof (handlePlaceOrder_placed env (S k) st b Hc) as P.
    destruct (generateTicketNumber_returns env (snd (generateOrderId env b))
                ledger k Hl Hk) as (t & b2 & G).
    rewrite G in P. destruct P as (o & _ & P). rewrite P. eauto.
  - exact step_ledger.
  - intros fuel evs st b st' b' H.
    apply run_ledger in H as [Hp Hs]. split; [|exact Hs].
    intros i o Hi. exact (prefix_lookup_Some _ _ _ _ Hi Hp).
Qed.

Lemma ledger_append_only_witness :
  (* a placement on a ledger that holds an order, after one retry *)
  (can_place stocked_ready = true
   /\ exists st' b' o,
        handlePlaceOrder example_env 2 stocked_ready colliding_browser
        = Some (Normal (st', b'))
        /\ orders st' = [taken_order; o]
        /\ localStorage b'
           = <["orders" := OrdersDoc [taken_order; o]]>
               (localStorage colliding_browser))
  (* the first render writes to the storage and leaves the ledger alone *)
  /\ (exists st' b',
        step example_env 2 Mount stocked_ready colliding_browser
        = Some (Normal (st', b'))
        /\ orders st' = [taken_order]
        /\ localStorage b' !! "orders" = Some (OrdersDoc [taken_order])
        /\ localStorage b' !! "salesReps" = Some (RepsDoc [example_rep]))
  (* the placement as an event of the page *)
  /\ (exists st' b' o,
        step example_env 2 PlaceOrder stocked_ready colliding_browser
        = Some (Normal (st', b'))
        /\ orders st' = [taken_order; o]
        /\ localStorage b' !! "orders" = Some (OrdersDoc [taken_order; o]))
  (* a session with two placements on that ledger *)
  /\ (initialState colliding_browser = Normal stocked_start
      /\ exists st' b',
           run 3 Props.session stocked_start colliding_browser
           = Some (Normal (st', b'))
           /\ orders st' !! 0 = Some taken_order
           /\ synced st' b'
           /\ tickets (orders st')
              = ["TRU-A1B2-ZZZZ"; "TRU-K3K3-QWER"; "TRU-QWER-QWER"]).
Proof.
  destruct ledger_append_only as (Happend & Hreturns & Hstep & Hrun).
  assert (Hc : can_place stocked_ready = true) by (vm_compute; reflexivity).
  destruct (Hreturns example_env 1 stocked_ready colliding_browser [taken_order])
    as (st1 & b1 & H1).
  { exact Hc. }
  { vm_compute. reflexivity. }
  { apply (bool_decide_unpack _). vm_compute. exact I. }
  destruct (Happend _ _ _ _ _ _ Hc H1) as (o & Ho & Hs).
  change (orders stocked_ready ++ [o])%list with [taken_order; o] in Ho, Hs.
  split; [|split; [|split]].
  - split; [exact Hc|]. exists st1, b1, o. auto.
  - destruct (step example_env 2 Mount stocked_ready colliding_browser)
      as [[[st2 b2]|]|] eqn:E2; [|vm_compute in E2; discriminate..].
    destruct (Hstep _ _ _ _ _ _ _ E2) as [[A B]|[Ev _]]; [|discriminate Ev].
    exists st2, b2. split; [reflexivity|]. split; [exact A|].
    split; [rewrite B; vm_compute; reflexivity|].
    vm_compute in E2. injection E2 as _ <-. vm_compute. reflexivity.
  - assert (E3 : step example_env 2 PlaceOrder stocked_ready colliding_browser
                 = Some (Normal (sync_deliveryCost st1, b1)))
      by (cbn [step]; rewrite H1; reflexivity).
    exists (sync_deliveryCost st1), b1, o.
    split; [exact E3|]. split; [exact Ho|].
    destruct (Hstep _ _ _ _ _ _ _ E3) as [[A _]|(_ & o' & _ & B)];
      change (orders (sync_deliveryCost st1)) with (orders st1) in *.
    + change (orders stocked_ready) with [taken_order] in A.
      rewrite Ho in A. apply (f_equal (@List.length Order)) in A.
      discriminate A.
    + rewrite B, Ho. reflexivity.
  - split; [vm_compute; reflexivity|].
    destruct (run 3 Props.session stocked_start colliding_browser)
      as [[[st4 b4]|]|] eqn:E4; [|vm_compute in E4; discriminate..].
    destruct (Hrun _ _ _ _ _ _ E4) as [Hpre Hsync].
    exists st4, b4. split; [reflexivity|].
    split; [apply Hpre; vm_compute; reflexivity|].
    split; [apply Hsync; vm_compute; reflexivity|].
    vm_compute in E4. injection E4 as <- _. vm_compute. reflexivity.
Defined.

End Ledger.

(** ** Bounds: numbers that are never NaN, clamping *)

Module Bounds.

Import JSString JSNumber App Spec Scene Props NumberFacts.

Lemma shr_1_nonneg mrs : (0 <= shr_m mrs)%Z -> (0 <= shr_m (shr_1 mrs))%Z.
Proof.
  destruct mrs as [m r s]. simpl.
  destruct m as [|p|p]; [simpl; lia| |simpl; lia].
  destruct p; simpl; lia.
Qed.

Lemma iter_pos_shr_1_nonneg p mrs :
  (0 <= shr_m mrs)%Z -> (0 <= shr_m (SpecFloat.iter_pos shr_1 p mrs))%Z.
Proof.
  revert mrs. induction p as [p IH|p IH|]; intros mrs H; simpl.
  - apply IH, IH, shr_1_nonneg, H.
  - apply IH, IH, H.
  - apply shr_1_nonneg, H.
Qed.

Lemma shr_fexp_nonneg m e l :
  (0 <= m)%Z -> (0 <= shr_m (fst (shr_fexp prec emax m e l)))%Z.
Proof.
  intros H. unfold shr_fexp, shr.
  assert (H0 : (0 <= shr_m (shr_record_of_loc m l))%Z).
  { destruct l as [|[| |]]; simpl; exact H. }
  destruct (_ - e)%Z; simpl; trivial.
  now apply iter_pos_shr_1_nonneg.
Qed.

Lemma round_nearest_even_nonneg m l :
  (0 <= m)%Z -> (0 <= round_nearest_even m l)%Z.
Proof.
  intros H. destruct l as [|[| |]]; simpl; try lia.
  destruct (Z.even m); lia.
Qed.

(** Rounding a non-negative mantissa never gives NaN. *)
Lemma binary_round_aux_not_NaN s m e l :
  (0 <= m)%Z -> isNaN (binary_round_aux prec emax s m e l) = false.
Proof.
  intros H. unfold binary_round_aux.
  pose proof (shr_fexp_nonneg m e l H) as H1.
  destruct (shr_fexp prec emax m e l) as [mrs e1]. simpl in H1.
  pose proof (shr_fexp_nonneg _ e1 loc_Exact
                (round_nearest_even_nonneg _ (loc_of_shr_record mrs) H1)) as H2.
  destruct (shr_fexp prec emax _ e1 loc_Exact) as [mrs2 e2]. simpl in H2.
  destruct (shr_m mrs2); [reflexivity| |lia].
  destruct (Z.leb _ _); reflexivity.
Qed.

Lemma binary_round_not_NaN s m e : isNaN (binary_round prec emax s m e) = false.
Proof.
  unfold binary_round. destruct (shl_align _ _ _).
  apply binary_round_aux_not_NaN. lia.
Qed.

Lemma binary_normalize_not_NaN z e s :
  isNaN (binary_normalize prec emax z e s) = false.
Proof.
  unfold binary_normalize. destruct z; [reflexivity| |]; apply binary_round_not_NaN.
Qed.

Lemma is_finite_not_NaN v : is_finite v = true -> isNaN v = false.
Proof. destruct v; simpl; congruence. Qed.

(** A difference is NaN only for a NaN operand or for two infinities. *)
Lemma sub_not_NaN a b :
  isNaN a = false -> is_finite b = true -> isNaN (sub a b) = false.
Proof.
  unfold sub, SFsub.
  destruct a as [s|s| |s m e], b as [t|t| |t m' e']; simpl; try discriminate;
    intros _ _; trivial.
  - destruct s, t; reflexivity.
  - apply binary_normalize_not_NaN.
Qed.

(** A quotient by a positive finite number is NaN only for a NaN dividend. *)
Lemma div_finite_not_NaN x m e :
  isNaN x = false -> isNaN (div x (S754_finite false m e)) = false.
Proof.
  intros Hn. destruct x as [s|s| |s mx ex]; try reflexivity; try discriminate.
  unfold div, SFdiv.
  destruct (SFdiv_core_binary _ _ _ _ _ _) as [[mz ez] lz] eqn:E.
  apply binary_round_aux_not_NaN.
  unfold SFdiv_core_binary in E.
  destruct (Z.div_eucl _ _) as [q r] eqn:D in E. injection E as <- _ _.
  match type of D with Z.div_eucl ?a ?b = _ =>
    assert (Hq : q = (a / b)%Z) by (unfold Z.div; now rewrite D);
    assert (Ha : (0 <= a)%Z) end.
  { destruct (_ - _ - _)%Z; try lia. apply Z.shiftl_nonneg. lia. }
  rewrite Hq. apply Z.div_pos; lia.
Qed.

Lemma positive_number_nonneg x : positive_number x -> nonneg x.
Proof. intros [(m & e & ->)| ->]%positive_number_inv; split; reflexivity. Qed.

Lemma nonneg_zero_or_positive x : nonneg x -> x = ofZ 0 \/ positive_number x.
Proof.
  intros [Hs Hn]. destruct x as [s|s| |s m e]; simpl in *; try discriminate;
    subst; [left|right|right]; reflexivity.
Qed.

Lemma mul_positive_nonneg x y :
  positive_number x -> (exists m e, y = S754_finite false m e) -> nonneg (mul x y).
Proof.
  intros [(m & e & ->)| ->]%positive_number_inv (m' & e' & ->); split;
    try reflexivity.
  - apply (mul_signed _ _ false false); reflexivity.
  - apply binary_round_aux_not_NaN. lia.
Qed.

Lemma div_nonneg_finite x m e :
  nonneg x -> nonneg (div x (S754_finite false m e)).
Proof.
  intros [Hs Hn]. split.
  - apply (div_signed _ _ false false); trivial. reflexivity.
  - now apply div_finite_not_NaN.
Qed.

Lemma SFcompare_total x y :
  isNaN x = false -> isNaN y = false -> exists c, SFcompare x y = Some c.
Proof.
  destruct x, y; simpl; try discriminate; intros _ _; eauto.
Qed.

Lemma SFcompare_refl x : isNaN x = false -> SFcompare x x = Some Eq.
Proof.
  destruct x as [s|s| |s m e]; simpl; try discriminate; intros _;
    try (destruct s; reflexivity).
  rewrite Z.compare_refl, Pos.compare_cont_refl. destruct s; reflexivity.
Qed.

Lemma leb_refl x : isNaN x = false -> leb x x = true.
Proof. intros H. unfold leb, SFleb. now rewrite SFcompare_refl. Qed.

(** Two numbers neither of which is below the other compare as equal. *)
Lemma compare_Eq_of_not_ltb x y :
  isNaN x = false -> isNaN y = false ->
  ltb x y = false -> ltb y x = false -> SFcompare x y = Some Eq.
Proof.
  intros Hx Hy. unfold ltb, SFltb.
  destruct (SFcompare_total x y Hx Hy) as [c E].
  rewrite (SFcompare_antisym _ _ _ E), E.
  destruct c; simpl; congruence.
Qed.

(** [Math.max] of two numbers is one of them and is below neither. *)
Lemma Math_max_spec a b :
  isNaN a = false -> isNaN b = false ->
  (Math_max a b = a \/ Math_max a b = b)
  /\ leb a (Math_max a b) = true /\ leb b (Math_max a b) = true.
Proof.
  intros Ha Hb. unfold Math_max. rewrite Ha, Hb. cbn [orb].
  destruct (ltb a b) eqn:Hab.
  - split; [now right|]. split; [|now apply leb_refl].
    unfold ltb, SFltb in Hab. unfold leb, SFleb.
    destruct (SFcompare a b) as [[| |]|]; congruence.
  - destruct (ltb b a) eqn:Hba.
    + split; [now left|]. split; [now apply leb_refl|].
      unfold ltb, SFltb in Hba. unfold leb, SFleb.
      destruct (SFcompare b a) as [[| |]|]; congruence.
    + pose proof (compare_Eq_of_not_ltb a b Ha Hb Hab Hba) as E.
      pose proof (SFcompare_antisym _ _ _ E) as E'. simpl in E'.
      assert (Hab' : leb a b = true) by (unfold leb, SFleb; now rewrite E).
      assert (Hba' : leb b a = true) by (unfold leb, SFleb; now rewrite E').
      destruct a as [[|]| | |]; destruct b as [[|]| | |];
        (split; [auto|]); split; trivial; now apply leb_refl.
Qed.

(** [Math.min] of two numbers is one of them and is above neither. *)
Lemma Math_min_spec a b :
  isNaN a = false -> isNaN b = false ->
  (Math_min a b = a \/ Math_min a b = b)
  /\ leb (Math_min a b) a = true /\ leb (Math_min a b) b = true.
Proof.
  intros Ha Hb. unfold Math_min. rewrite Ha, Hb. cbn [orb].
  destruct (ltb a b) eqn:Hab.
  - split; [now left|]. split; [now apply leb_refl|].
    unfold ltb, SFltb in Hab. unfold leb, SFleb.
    destruct (SFcompare a b) as [[| |]|]; congruence.
  - destruct (ltb b a) eqn:Hba.
    + split; [now right|]. split; [|now apply leb_refl].
      unfold ltb, SFltb in Hba. unfold leb, SFleb.
      destruct (SFcompare b a) as [[| |]|]; congruence.
    + pose proof (compare_Eq_of_not_ltb a b Ha Hb Hab Hba) as E.
      pose proof (SFcompare_antisym _ _ _ E) as E'. simpl in E'.
      assert (Hab' : leb a b = true) by (unfold leb, SFleb; now rewrite E).
      assert (Hba' : leb b a = true) by (unfold leb, SFleb; now rewrite E').
      destruct a as [[|]| | |]; destruct b as [[|]| | |];
        (split; [auto|]); split; trivial; now apply leb_refl.
Qed.

Lemma Math_max_not_NaN a b :
  isNaN a = false -> isNaN b = false -> isNaN (Math_max a b) = false.
Proof.
  intros Ha Hb. destruct (Math_max_spec a b Ha Hb) as [[-> | ->] _]; trivial.
Qed.

Lemma Math_min_not_NaN a b :
  isNaN a = false -> isNaN b = false -> isNaN (Math_min a b) = false.
Proof.
  intros Ha Hb. destruct (Math_min_spec a b Ha Hb) as [[-> | ->] _]; trivial.
Qed.

(** [Math.min(hi, Math.max(lo, x))] lies between [lo] and [hi]. *)
Lemma clamp_min_max lo hi x :
  isNaN lo = false -> isNaN hi = false -> isNaN x = false ->
  leb lo hi = true ->
  leb lo (Math_min hi (Math_max lo x)) = true
  /\ leb (Math_min hi (Math_max lo x)) hi = true.
Proof.
  intros Hlo Hhi Hx Hle.
  destruct (Math_max_spec lo x Hlo Hx) as (_ & Hl & _).
  pose proof (Math_max_not_NaN lo x Hlo Hx) as Hy.
  destruct (Math_min_spec hi _ Hhi Hy) as ([E | E] & Hh & _); rewrite E in *;
    split; trivial.
Qed.

(** [Math.max(lo, Math.min(hi, x))] lies between [lo] and [hi]. *)
Lemma clamp_max_min lo hi x :
  isNaN lo = false -> isNaN hi = false -> isNaN x = false ->
  leb lo hi = true ->
  leb lo (Math_max lo (Math_min hi x)) = true
  /\ leb (Math_max lo (Math_min hi x)) hi = true.
Proof.
  intros Hlo Hhi Hx Hle.
  destruct (Math_min_spec hi x Hhi Hx) as (_ & Hh & _).
  pose proof (Math_min_not_NaN hi x Hhi Hx) as Hy.
  destruct (Math_max_spec lo _ Hlo Hy) as ([E | E] & Hl & _); rewrite E in *;
    split; trivial.
Qed.

Lemma guard_false_positive v :
  isNaN v || leb v (ofZ 0) = false -> positive_number v.
Proof.
  destruct v as [s|s| |s m e]; try destruct s; simpl; try discriminate;
    intros _; reflexivity.
Qed.

(** [convertToMeters] never returns NaN or a number with the sign minus. *)
Lemma convertToMeters_nonneg value unit : nonneg (convertToMeters value unit).
Proof.
  unfold convertToMeters.
  destruct (isNaN (parseFloat value) || leb (parseFloat value) (ofZ 0)) eqn:G;
    [split; reflexivity|].
  apply guard_false_positive in G.
  destruct (String.eqb unit "ft");
    [apply mul_positive_nonneg; [exact G | vm_compute; eauto]|].
  destruct (String.eqb unit "in");
    [apply mul_positive_nonneg; [exact G | vm_compute; eauto]|].
  now apply positive_number_nonneg.
Qed.

Lemma or_else_positive x d :
  nonneg x -> positive_number d -> positive_number (or_else x d).
Proof.
  intros [Hs Hn] Hd. unfold or_else.
  destruct x as [s|s| |s m e]; simpl in *; try discriminate; subst; trivial;
    reflexivity.
Qed.

(** A converted length with a positive fallback is positive. *)
Lemma dimension_positive s un d :
  positive_number d -> positive_number (or_else (convertToMeters s un) d).
Proof. intros Hd. apply or_else_positive; [apply convertToMeters_nonneg|exact Hd]. Qed.

Lemma floorSize_nonneg u st :
  nonneg (floorSizeX u st) /\ nonneg (floorSizeY u st).
Proof.
  assert (H10 : positive_number (ofZ 10)) by (vm_compute; reflexivity).
  unfold floorSizeX, floorSizeY, roomWm, roomLm.
  split; apply positive_number_nonneg; destruct u; trivial;
    now apply dimension_positive.
Qed.

Lemma neg_leb h : nonneg h -> leb (neg h) h = true /\ isNaN (neg h) = false.
Proof.
  intros [Hs Hn]. destruct h as [s|s| |s m e]; simpl in *; try discriminate;
    subst; split; reflexivity.
Qed.

Lemma half_nonneg x : nonneg x -> nonneg (div x (ofZ 2)).
Proof.
  intros H. change (ofZ 2) with (S754_finite false 4503599627370496 (-51)).
  now apply div_nonneg_finite.
Qed.

(** A clamped point lies in the rectangle of the room around the origin. *)
Lemma clampToRoom_within sizeX sizeY x z :
  nonneg sizeX -> nonneg sizeY -> isNaN x = false -> isNaN z = false ->
  leb (neg (div sizeX (ofZ 2))) (fst (clampToRoom sizeX sizeY x z)) = true
  /\ leb (fst (clampToRoom sizeX sizeY x z)) (div sizeX (ofZ 2)) = true
  /\ leb (neg (div sizeY (ofZ 2))) (snd (clampToRoom sizeX sizeY x z)) = true
  /\ leb (snd (clampToRoom sizeX sizeY x z)) (div sizeY (ofZ 2)) = true.
Proof.
  intros HX HY Hx Hz. unfold clampToRoom. cbn [fst snd].
  destruct (half_nonneg _ HX) as [HsX HnX]. destruct (half_nonneg _ HY) as [HsY HnY].
  destruct (neg_leb _ (conj HsX HnX)) as [LX NX].
  destruct (neg_leb _ (conj HsY HnY)) as [LY NY].
  destruct (clamp_min_max _ _ x NX HnX Hx LX) as [A B].
  destruct (clamp_min_max _ _ z NY HnY Hz LY) as [C D].
  auto.
Qed.

End Bounds.

(** ** Lengths, drawn dimensions and the two calculators *)

Module Dimensions.

Import JSString JSNumber App Spec Scene Props NumberFacts Calculator Bounds.

(** X1.  Whatever the text and the unit, [convertToMeters] returns either
    exactly 0 or a number greater than 0: never NaN, never a negative number
    and never -0. *)
Theorem convertToMeters_zero_or_positive value unit :
  convertToMeters value unit = ofZ 0
  \/ positive_number (convertToMeters value unit).
Proof. apply nonneg_zero_or_positive, convertToMeters_nonneg. Qed.

(** X2.  The room and the tile are always drawn with positive dimensions:
    the four lengths the component computes in its body, and the floor size
    with or without real scale, are greater than 0 for every state. *)
Theorem drawn_dimensions_positive st u :
  positive_number (roomWm st) /\ positive_number (roomLm st)
  /\ positive_number (tileWm st) /\ positive_number (tileLm st)
  /\ positive_number (floorSizeX u st) /\ positive_number (floorSizeY u st).
Proof.
  assert (H10 : positive_number (ofZ 10)) by (vm_compute; reflexivity).
  assert (H03 : positive_number (lit "0.3")) by (vm_compute; reflexivity).
  unfold roomWm, roomLm, tileWm, tileLm, floorSizeX, floorSizeY.
  repeat split; try (now apply dimension_positive); destruct u; trivial;
    now apply dimension_positive.
Qed.

(** X3.  Calculate with an unusable input: when one of the four lengths has
    no leading number or is not positive, or the price is NaN or zero, the
    state stays as it is and the one alert "Please enter all values
    correctly" is shown. *)
Theorem handleCalculate_rejection st b :
  unusable (tileLength (calc st)) \/ unusable (tileWidth (calc st))
  \/ unusable (roomLength (calc st)) \/ unusable (roomWidth (calc st))
  \/ truthy (parseFloat (tilePrice (calc st))) = false ->
  handleCalculate st b = (st, alert AlertEnterValues b).
Proof. intros H. apply handleCalculate_rejects. exact H. Qed.

Lemma handleCalculate_rejection_witness :
  unusable (roomLength (calc bad_room_state))
  /\ handleCalculate bad_room_state example_browser
     = (bad_room_state, alert AlertEnterValues example_browser).
Proof.
  assert (H : unusable (roomLength (calc bad_room_state)))
    by (left; vm_compute; reflexivity).
  split; [exact H|].
  apply handleCalculate_rejection. right. right. left. exact H.
Defined.

(** X4.  Calculate changes nothing but the result and the alerts: the
    ledger, the inputs, the login and both storages stay as they are, and
    either the state is unchanged and the one alert is added, or a result is
    stored and no alert is shown. *)
Theorem handleCalculate_frame st b :
  orders (fst (handleCalculate st b)) = orders st
  /\ calc (fst (handleCalculate st b)) = calc st
  /\ dlv (fst (handleCalculate st b)) = dlv st
  /\ cust (fst (handleCalculate st b)) = cust st
  /\ auth (fst (handleCalculate st b)) = auth st
  /\ localStorage (snd (handleCalculate st b)) = localStorage b
  /\ sessionStorage (snd (handleCalculate st b)) = sessionStorage b
  /\ draws (snd (handleCalculate st b)) = draws b
  /\ ((fst (handleCalculate st b) = st
       /\ alerts (snd (handleCalculate st b))
          = (alerts b ++ [AlertEnterValues])%list)
      \/ (exists r, result (fst (handleCalculate st b)) = Some r
                    /\ alerts (snd (handleCalculate st b)) = alerts b)).
Proof.
  unfold handleCalculate. destruct (_ || _); cbn [fst snd].
  - repeat (split; [reflexivity|]). left. split; reflexivity.
  - repeat (split; [reflexivity|]). right. eexists. split; reflexivity.
Qed.

(** X5.  The calculator of the first showroom counts tiles of 0.25 square
    metres.  For a room given in metres or feet it stores the same tile count
    as the calculator of the page does for tiles of 0.5 m by 0.5 m, whenever
    the page accepts the input. *)
Theorem showroom_agrees_with_app sr shown price st b :
  Showroom.sr_unit sr = "m" \/ Showroom.sr_unit sr = "ft" ->
  valid_input (showroom_calc sr price) ->
  exists n r,
    Showroom.handleCalculate sr shown
    = (Showroom.mkState (Showroom.sr_tile sr) (Showroom.sr_wallColor sr)
         (Showroom.sr_length sr) (Showroom.sr_width sr) (Showroom.sr_unit sr)
         (Some n), shown)
    /\ handleCalculate (set_calc (showroom_calc sr price) st) b
       = (setResult r (set_calc (showroom_calc sr price) st), b)
    /\ tilesNeeded r = n.
Proof.
  intros Hunit Hv.
  destruct (handleCalculate_accepts (set_calc (showroom_calc sr price) st) b Hv)
    as (r & Hr & Ht & _).
  destruct Hv as (_ & _ & H3 & H4 & _).
  apply meters_positive_inv, positive_number_guard in H3, H4.
  apply orb_false_iff in H3 as [N3 _], H4 as [N4 _].
  cbn [showroom_calc roomLength roomWidth] in N3, N4.
  unfold Showroom.handleCalculate. rewrite N3, N4. cbn [orb].
  eexists _, r. split; [reflexivity|]. split; [exact Hr|].
  rewrite Ht. unfold roomArea, tileArea, meters.
  cbn [set_calc calc showroom_calc tileLength tileWidth tileUnit roomLength
       roomWidth roomUnit].
  change (mul (if "m" =? "ft" then _ else _) (if "m" =? "ft" then _ else _))
    with (lit "0.25").
  destruct Hunit as [-> | ->]; reflexivity.
Qed.

Lemma showroom_agrees_with_app_witness :
  valid_input (showroom_calc example_showroom "100")
  /\ exists r,
       Showroom.sr_result (fst (Showroom.handleCalculate example_showroom []))
       = Some (ofZ 80)
       /\ handleCalculate
            (set_calc (showroom_calc example_showroom "100") example_state)
            example_browser
          = (setResult r
               (set_calc (showroom_calc example_showroom "100") example_state),
             example_browser)
       /\ tilesNeeded r = ofZ 80.
Proof.
  assert (Hv : valid_input (showroom_calc example_showroom "100"))
    by (repeat split; vm_compute; reflexivity).
  split; [exact Hv|].
  destruct (showroom_agrees_with_app example_showroom [] "100" example_state
              example_browser (or_introl eq_refl) Hv) as (n & r & Hs & Hr & Hn).
  assert (E : n = ofZ 80).
  { apply (f_equal (fun p => Showroom.sr_result (fst p))) in Hs.
    vm_compute in Hs. injection Hs as <-. reflexivity. }
  exists r. rewrite Hs. cbn [fst Showroom.sr_result]. rewrite E in *.
  repeat split; assumption.
Defined.

End Dimensions.

(** ** Parish names: case, and what a match returns *)

Module ParishNames.

Import JSString JSNumber Geo App Spec Props.

Lemma upper_char_case_map : case_map upper_char.
Proof.
  intros [[|] [|] [|] [|] [|] [|] [|] [|]]; vm_compute; repeat split.
Qed.

Lemma lower_char_case_map : case_map lower_char.
Proof.
  intros [[|] [|] [|] [|] [|] [|] [|] [|]]; vm_compute; repeat split.
Qed.

Section CaseMap.

Variable f : ascii -> ascii.
Hypothesis Hf : case_map f.

Lemma toLowerCase_map s : toLowerCase (map_chars f s) = toLowerCase s.
Proof.
  induction s as [|c s IH]; simpl; [reflexivity|].
  unfold toLowerCase in *. simpl. rewrite IH. now rewrite (proj1 (Hf c)).
Qed.

(** Removing the word "parish" commutes with a change of case. *)
Lemma remove_parish_map k s :
  remove_parish k (map_chars f s) = map_chars f (remove_parish k s).
Proof.
  revert k. induction s as [|c s IH]; intros k; [reflexivity|].
  cbn [map_chars remove_parish]. destruct k as [|k]; [|apply IH].
  change (String (f c) (map_chars f s)) with (map_chars f (String c s)).
  rewrite toLowerCase_map.
  destruct (startsWith "parish" (toLowerCase (String c s))); [apply IH|].
  cbn [map_chars]. now rewrite IH.
Qed.

Lemma trimStart_map s : trimStart (map_chars f s) = map_chars f (trimStart s).
Proof.
  induction s as [|c s IH]; [reflexivity|]. cbn [map_chars trimStart].
  rewrite (proj1 (proj2 (Hf c))). destruct (is_ws c); [exact IH|reflexivity].
Qed.

Lemma trimEnd_map s : trimEnd (map_chars f s) = map_chars f (trimEnd s).
Proof.
  induction s as [|c s IH]; [reflexivity|]. cbn [map_chars trimEnd].
  rewrite IH, (proj1 (proj2 (Hf c))).
  destruct (trimEnd s); cbn [map_chars]; [destruct (is_ws c)|]; reflexivity.
Qed.

Lemma trim_map s : trim (map_chars f s) = map_chars f (trim s).
Proof. unfold trim. now rewrite trimStart_map, trimEnd_map. Qed.

(** Expanding a leading "St." gives the same lower-case text in either case. *)
Lemma toLowerCase_expand_st_map s :
  toLowerCase (expand_st (map_chars f s)) = toLowerCase (expand_st s).
Proof.
  destruct s as [|a [|b [|c r]]]; try apply toLowerCase_map.
  cbn [map_chars expand_st].
  rewrite (proj1 (Hf a)), (proj1 (Hf b)), (proj2 (proj2 (Hf c))),
    (proj1 (proj2 (Hf c))).
  destruct (_ && _ && _).
  - change (toLowerCase ("Saint " ++ map_chars f r))
      with ("saint " ++ toLowerCase (map_chars f r)).
    now rewrite toLowerCase_map.
  - change (String (f a) (String (f b) (String (f c) (map_chars f r))))
      with (map_chars f (String a (String b (String c r)))).
    apply toLowerCase_map.
Qed.

End CaseMap.

(** Lower-casing commutes with trimming. *)
Lemma toLowerCase_trim s : toLowerCase (trim s) = trim (toLowerCase s).
Proof. symmetry. apply (trim_map lower_char lower_char_case_map). Qed.

Lemma normalizeParish_formula s :
  normalizeParish (Some s) = toLowerCase (trim (expand_st (remove_parish 0 s))).
Proof. destruct s; reflexivity. Qed.

Lemma normalizeParish_map f s :
  case_map f ->
  normalizeParish (Some (map_chars f s)) = normalizeParish (Some s).
Proof.
  intros Hf. rewrite !normalizeParish_formula, !toLowerCase_trim.
  rewrite (remove_parish_map f Hf). now rewrite (toLowerCase_expand_st_map f Hf).
Qed.

Lemma matchParishName_map f s :
  case_map f ->
  matchParishName (Some (map_chars f s)) = matchParishName (Some s).
Proof.
  intros Hf. unfold matchParishName.
  rewrite (normalizeParish_map f s Hf).
  destruct s; reflexivity.
Qed.

(** X6.  Matching a parish name ignores case: for a text of code units below
    128, the text in upper case and the text in lower case match the same
    parish as the text itself, or none of them matches. *)
Theorem matchParishName_ignores_case s :
  ascii_only s = true ->
  matchParishName (Some (toUpperCase s)) = matchParishName (Some s)
  /\ matchParishName (Some (toLowerCase s)) = matchParishName (Some s).
Proof.
  intros _. split.
  - apply matchParishName_map, upper_char_case_map.
  - apply matchParishName_map, lower_char_case_map.
Qed.

Lemma matchParishName_ignores_case_witness :
  ascii_only "Saint andrew PARISH" = true
  /\ toUpperCase "Saint andrew PARISH" = "SAINT ANDREW PARISH"
  /\ matchParishName (Some "Saint andrew PARISH") = Some "Saint Andrew"
  /\ matchParishName (Some (toUpperCase "Saint andrew PARISH"))
     = Some "Saint Andrew"
  /\ matchParishName (Some (toLowerCase "Saint andrew PARISH"))
     = Some "Saint Andrew".
Proof.
  assert (Ha : ascii_only "Saint andrew PARISH" = true) by reflexivity.
  assert (Hm : matchParishName (Some "Saint andrew PARISH") = Some "Saint Andrew")
    by (vm_compute; reflexivity).
  destruct (matchParishName_ignores_case "Saint andrew PARISH" Ha) as [Hu Hl].
  split; [exact Ha|]. split; [reflexivity|]. split; [exact Hm|].
  split; [now rewrite Hu | now rewrite Hl].
Defined.

(** X7.  What [matchParishName] returns is one of the fourteen names of
    [JAMAICA_PARISHES] in its canonical spelling, and matching that name
    again returns it unchanged. *)
Theorem matchParishName_sound s p :
  matchParishName s = Some p ->
  In p JAMAICA_PARISHES /\ matchParishName (Some p) = Some p.
Proof.
  intros H.
  assert (Hin : In p JAMAICA_PARISHES).
  { unfold matchParishName in H. destruct s as [[|c s]|]; try discriminate.
    now apply find_some in H. }
  split; [exact Hin|].
  cbv in Hin.
  repeat (destruct Hin as [<- | Hin]; [vm_compute; reflexivity|]).
  destruct Hin.
Qed.

Lemma matchParishName_sound_witness :
  matchParishName (Some "SAINT Andrew Parish") = Some "Saint Andrew"
  /\ In "Saint Andrew" JAMAICA_PARISHES
  /\ matchParishName (Some "Saint Andrew") = Some "Saint Andrew".
Proof.
  assert (H : matchParishName (Some "SAINT Andrew Parish") = Some "Saint Andrew")
    by (vm_compute; reflexivity).
  split; [exact H|].
  exact (matchParishName_sound _ _ H).
Defined.

End ParishNames.

(** ** Lists *)

Module ListFacts.

Lemma find_app_last {A} (f : A -> bool) l x :
  (forall y, In y l -> f y = false) -> f x = true ->
  List.find f (l ++ [x])%list = Some x.
Proof.
  induction l as [|a l IH]; intros Hl Hx; simpl.
  - now rewrite Hx.
  - rewrite (Hl a) by now left. apply IH; trivial. intros y Hy. apply Hl. now right.
Qed.

Lemma find_filter_keep {A} (f g : A -> bool) l :
  (forall x, f x = true -> g x = true) ->
  List.find f (List.filter g l) = List.find f l.
Proof.
  intros H. induction l as [|a l IH]; simpl; [reflexivity|].
  destruct (f a) eqn:Fa.
  - rewrite (H a Fa). simpl. now rewrite Fa.
  - destruct (g a); simpl; [rewrite Fa|]; exact IH.
Qed.

Lemma filter_all_true {A} (f : A -> bool) l :
  (forall x, In x l -> f x = true) -> List.filter f l = l.
Proof.
  induction l as [|a l IH]; intros H; simpl; [reflexivity|].
  rewrite (H a) by now left. f_equal. apply IH. intros x Hx. apply H. now right.
Qed.

Lemma NoDup_app_fresh (l : list string) x :
  List.NoDup l -> ~ In x l -> List.NoDup (l ++ [x])%list.
Proof.
  intros Hl Hx. induction Hl as [|a l Ha Hl IH]; simpl.
  - constructor; [tauto|constructor].
  - constructor.
    + rewrite in_app_iff. simpl. intros [H|[H|[]]]; [tauto|].
      subst. apply Hx. now left.
    + apply IH. intros H. apply Hx. now right.
Qed.

End ListFacts.

(** ** Sales reps: registration, login, logout and the first render *)

Module Access.

Import JSString JSNumber App Spec Props ListFacts.

Lemma form_filled_guard st :
  is_empty (name (auth st)) || is_empty (username (auth st))
  || is_empty (password (auth st)) || is_empty (employeeId_input (auth st))
  = negb (form_filled st).
Proof.
  unfold form_filled.
  destruct (is_empty (name _)), (is_empty (username _)), (is_empty (password _)),
    (is_empty (employeeId_input _)); reflexivity.
Qed.

Lemma stored_reps_setItem b l :
  stored_reps (localStorage_setItem "salesReps" (RepsDoc l) b) = Normal l.
Proof. unfold stored_reps. cbn. now rewrite lookup_insert_eq. Qed.

Lemma stored_reps_alert a b : stored_reps (alert a b) = stored_reps b.
Proof. reflexivity. Qed.

(** A filled form with a free username: the rep is put at the end of the stored
    list, the form is cleared and the alert is shown. *)
Lemma handleRegister_success env st b reps :
  stored_reps b = Normal reps -> form_filled st = true ->
  username_taken (username (auth st)) reps = false ->
  handleRegister env st b
  = Normal (set_auth (mkAuthState (loggedInUser (auth st)) "" "" "" ""
                        (rememberMe (auth st)) false) st,
            alert AlertRegistered
              (localStorage_setItem "salesReps"
                 (RepsDoc (reps ++ [newRep env st])) b)).
Proof.
  intros Hr Hf Ht. unfold handleRegister.
  rewrite form_filled_guard, Hf, Hr. cbn [negb].
  unfold username_taken in Ht. rewrite Ht. reflexivity.
Qed.

Lemma username_free_credentials u reps st :
  username_taken u reps = false -> username (auth st) = u ->
  forall y, In y reps -> credentials_of st y = false.
Proof.
  intros Ht Hu y Hy. unfold credentials_of. rewrite Hu.
  unfold username_taken in Ht.
  destruct (String.eqb (rep_username y) u) eqn:E; [|reflexivity].
  exfalso. assert (existsb (fun rep => String.eqb (rep_username rep) u) reps = true).
  { apply existsb_exists. eauto. }
  congruence.
Qed.

Lemma username_taken_In u reps :
  username_taken u reps = false -> ~ In u (usernames reps).
Proof.
  intros Ht Hin. unfold usernames in Hin. apply in_map_iff in Hin as (y & <- & Hy).
  assert (username_taken (rep_username y) reps = true).
  { apply existsb_exists. exists y. split; trivial. apply String.eqb_refl. }
  congruence.
Qed.

Lemma handleLogin_found st b reps found :
  stored_reps b = Normal reps ->
  List.find (credentials_of st) reps = Some found ->
  handleLogin st b
  = Normal (set_auth (mkAuthState (Some found) "" "" (name (auth st))
                        (employeeId_input (auth st)) false
                        (isRegistering (auth st))) st,
            remember st found b).
Proof.
  intros Hr Hfind. unfold handleLogin. rewrite Hr.
  unfold credentials_of in Hfind. rewrite Hfind. reflexivity.
Qed.

(** A login keeps the stored reps and leaves the user in exactly one of the
    two storages. *)
Lemma remember_storage st found b :
  stored_reps (remember st found b) = stored_reps b
  /\ alerts (remember st found b) = alerts b
  /\ (if rememberMe (auth st)
      then localStorage (remember st found b) !! "loggedInUser"
           = Some (UserDoc found)
           /\ sessionStorage (remember st found b) !! "loggedInUser" = None
      else localStorage (remember st found b) !! "loggedInUser" = None
           /\ sessionStorage (remember st found b) !! "loggedInUser"
              = Some (UserDoc found)).
Proof.
  unfold remember, stored_reps. destruct (rememberMe (auth st)); cbn.
  - rewrite lookup_insert_ne by discriminate. split; [reflexivity|].
    split; [reflexivity|]. split; [apply lookup_insert_eq | apply lookup_delete_eq].
  - rewrite lookup_delete_ne by discriminate. split; [reflexivity|].
    split; [reflexivity|]. split; [apply lookup_delete_eq | apply lookup_insert_eq].
Qed.

(** X8.  A rep who registers with a filled form and a free username can log
    in afterwards with the same username and password: the registration
    stores the new rep at the end of the list, and the login finds exactly
    that rep. *)
Theorem register_then_login env st b reps st' :
  stored_reps b = Normal reps ->
  form_filled st = true ->
  username_taken (username (auth st)) reps = false ->
  username (auth st') = username (auth st) ->
  password (auth st') = password (auth st) ->
  exists st1 b1 st2 b2,
    handleRegister env st b = Normal (st1, b1)
    /\ stored_reps b1 = Normal (reps ++ [newRep env st])%list
    /\ handleLogin st' b1 = Normal (st2, b2)
    /\ loggedInUser (auth st2) = Some (newRep env st).
Proof.
  intros Hr Hf Ht Hu Hp.
  rewrite (handleRegister_success env st b reps Hr Hf Ht).
  eexists _, _.
  assert (Hs : stored_reps (alert AlertRegistered
             (localStorage_setItem "salesReps" (RepsDoc (reps ++ [newRep env st])) b))
             = Normal (reps ++ [newRep env st])%list).
  { rewrite stored_reps_alert. apply stored_reps_setItem. }
  assert (Hfind : List.find (credentials_of st') (reps ++ [newRep env st])%list
                  = Some (newRep env st)).
  { apply find_app_last.
    - apply (username_free_credentials (username (auth st))); trivial.
    - unfold credentials_of, newRep. cbn. rewrite Hu, Hp.
      now rewrite !String.eqb_refl. }
  rewrite (handleLogin_found st' _ _ _ Hs Hfind).
  eexists _, _. repeat split; first [reflexivity | exact Hs].
Qed.

Lemma register_then_login_witness :
  exists st1 b1 st2 b2,
    handleRegister example_env register_form rep_browser = Normal (st1, b1)
    /\ handleLogin ann_login_form b1 = Normal (st2, b2)
    /\ loggedInUser (auth st2)
       = Some (mkSalesRep 1762041600000 "Ann Lee" "ann" "pw1" "EMP002").
Proof.
  destruct (register_then_login example_env register_form rep_browser
              [defaultRep] ann_login_form)
    as (st1 & b1 & st2 & b2 & A & _ & C & D);
    try (vm_compute; reflexivity).
  exists st1, b1, st2, b2. repeat split; assumption.
Defined.

(** X9.  Registration never removes or changes a stored rep and keeps the
    usernames distinct: after a call the stored list is the old one, or the
    old one with the new rep at its end, and usernames that were pairwise
    different still are. *)
Theorem handleRegister_keeps_usernames_unique env st b reps st1 b1 :
  stored_reps b = Normal reps ->
  handleRegister env st b = Normal (st1, b1) ->
  exists reps',
    stored_reps b1 = Normal reps'
    /\ (reps' = reps \/ reps' = (reps ++ [newRep env st])%list)
    /\ (List.NoDup (usernames reps) -> List.NoDup (usernames reps')).
Proof.
  intros Hr H. unfold handleRegister in H.
  rewrite form_filled_guard, Hr in H.
  destruct (form_filled st); cbn [negb] in H.
  - destruct (existsb _ reps) eqn:E in H; injection H as <- <-.
    + exists reps. rewrite stored_reps_alert. auto.
    + exists (reps ++ [newRep env st])%list.
      rewrite stored_reps_alert, stored_reps_setItem.
      split; [reflexivity|]. split; [now right|].
      intros Hn. unfold usernames. rewrite map_app. cbn [map].
      apply NoDup_app_fresh; [exact Hn|].
      now apply username_taken_In.
  - injection H as <- <-. exists reps. rewrite stored_reps_alert. auto.
Qed.

Lemma handleRegister_keeps_usernames_unique_witness :
  exists st1 b1 reps',
    handleRegister example_env register_form rep_browser = Normal (st1, b1)
    /\ stored_reps b1 = Normal reps'
    /\ List.NoDup (usernames reps').
Proof.
  destruct (handleRegister example_env register_form rep_browser)
    as [[st1 b1]|] eqn:E; [|vm_compute in E; discriminate].
  destruct (handleRegister_keeps_usernames_unique example_env register_form
              rep_browser [defaultRep] st1 b1) as (reps' & A & _ & C);
    [vm_compute; reflexivity | exact E |].
  exists st1, b1, reps'. split; [reflexivity|]. split; [exact A|].
  apply C, NoDup_ListNoDup, (bool_decide_unpack _). vm_compute. exact I.
Defined.

(** X10.  A registration form with an empty field, or with a username that a
    stored rep already has, is refused: the one alert is shown, and neither
    the state nor the storage changes. *)
Theorem handleRegister_refused env st b reps :
  stored_reps b = Normal reps ->
  (form_filled st = false ->
   handleRegister env st b = Normal (st, alert AlertFillAllFields b))
  /\ (form_filled st = true ->
      In (username (auth st)) (usernames reps) ->
      handleRegister env st b = Normal (st, alert AlertUsernameExists b)).
Proof.
  intros Hr. unfold handleRegister. rewrite form_filled_guard. split.
  - intros ->. reflexivity.
  - intros -> Hin. cbn [negb]. rewrite Hr.
    replace (existsb _ reps) with true; [reflexivity|].
    symmetry. apply existsb_exists. unfold usernames in Hin.
    apply in_map_iff in Hin as (y & Hy & Hin). exists y. split; trivial.
    now apply String.eqb_eq.
Qed.

Lemma handleRegister_refused_witness :
  handleRegister example_env example_state rep_browser
  = Normal (example_state, alert AlertFillAllFields rep_browser)
  /\ handleRegister example_env taken_form rep_browser
     = Normal (taken_form, alert AlertUsernameExists rep_browser).
Proof.
  assert (Hr : stored_reps rep_browser = Normal [defaultRep])
    by (vm_compute; reflexivity).
  split.
  - apply (proj1 (handleRegister_refused example_env example_state rep_browser
                    [defaultRep] Hr)).
    vm_compute. reflexivity.
  - apply (proj2 (handleRegister_refused example_env taken_form rep_browser
                    [defaultRep] Hr)).
    + vm_compute. reflexivity.
    + left. reflexivity.
Defined.

(** X11.  The outcome of a login.  When a stored rep has the username and the
    password of the form, the first such rep is logged in, both fields are
    cleared, no alert is shown, the stored reps stay, and the rep is kept
    under the key "loggedInUser" in local storage when "remember me" is set
    and in session storage otherwise, never in both.  When no stored rep has
    them, the state stays as it is and the one alert is shown. *)
Theorem handleLogin_outcome st b reps :
  stored_reps b = Normal reps ->
  (forall found,
      List.find (credentials_of st) reps = Some found ->
      exists st' b',
        handleLogin st b = Normal (st', b')
        /\ loggedInUser (auth st') = Some found
        /\ In found reps
        /\ rep_username found = username (auth st)
        /\ rep_password found = password (auth st)
        /\ username (auth st') = "" /\ password (auth st') = ""
        /\ alerts b' = alerts b
        /\ stored_reps b' = Normal reps
        /\ (if rememberMe (auth st)
            then localStorage b' !! "loggedInUser" = Some (UserDoc found)
                 /\ sessionStorage b' !! "loggedInUser" = None
            else localStorage b' !! "loggedInUser" = None
                 /\ sessionStorage b' !! "loggedInUser" = Some (UserDoc found)))
  /\ (List.find (credentials_of st) reps = None ->
      handleLogin st b = Normal (st, alert AlertInvalidLogin b)).
Proof.
  intros Hr. split.
  - intros found Hfind. rewrite (handleLogin_found st b reps found Hr Hfind).
    eexists _, _. split; [reflexivity|].
    pose proof (find_some _ _ Hfind) as [Hin Hc].
    apply andb_true_iff in Hc as [Hu Hp].
    apply String.eqb_eq in Hu, Hp.
    destruct (remember_storage st found b) as (Hs & Ha & Hk).
    cbn [set_auth auth loggedInUser username password].
    repeat (split; [first [reflexivity | assumption]|]).
    split; [now rewrite Hs|exact Hk].
  - unfold handleLogin. rewrite Hr. unfold credentials_of.
    intros ->. reflexivity.
Qed.

Lemma handleLogin_outcome_witness :
  (exists st' b',
      handleLogin login_form rep_browser = Normal (st', b')
      /\ loggedInUser (auth st') = Some defaultRep
      /\ localStorage b' !! "loggedInUser" = Some (UserDoc defaultRep)
      /\ sessionStorage b' !! "loggedInUser" = None)
  /\ handleLogin taken_form rep_browser
     = Normal (taken_form, alert AlertInvalidLogin rep_browser).
Proof.
  assert (Hr : stored_reps rep_browser = Normal [defaultRep])
    by (vm_compute; reflexivity).
  split.
  - destruct (proj1 (handleLogin_outcome login_form rep_browser [defaultRep] Hr)
                defaultRep)
      as (st' & b' & A & B & _ & _ & _ & _ & _ & _ & _ & K);
      [vm_compute; reflexivity|].
    change (rememberMe (auth login_form)) with true in K.
    exists st', b'. destruct K as [K1 K2]. repeat split; assumption.
  - apply (proj2 (handleLogin_outcome taken_form rep_browser [defaultRep] Hr)).
    vm_compute. reflexivity.
Defined.

(** X12.  A login survives a reload: after a successful login, the effect of
    the first render on the browser the login left logs the same rep in
    again and writes nothing. *)
Theorem login_survives_reload st b reps found st' b' st0 :
  stored_reps b = Normal reps ->
  List.find (credentials_of st) reps = Some found ->
  handleLogin st b = Normal (st', b') ->
  exists st1,
    mount st0 b' = Normal (st1, b')
    /\ loggedInUser (auth st1) = Some found.
Proof.
  intros Hr Hfind H.
  rewrite (handleLogin_found st b reps found Hr Hfind) in H.
  injection H as <- <-.
  destruct (remember_storage st found b) as (Hs & _ & Hk).
  pose proof (find_some _ _ Hfind) as [Hin _].
  unfold mount. rewrite Hs, Hr.
  destruct reps as [|r0 reps]; [destruct Hin|].
  destruct (rememberMe (auth st)); destruct Hk as [Hl Hss]; rewrite Hl, ?Hss;
    eexists; split; reflexivity.
Qed.

Lemma login_survives_reload_witness :
  exists st' b' st1,
    handleLogin login_form rep_browser = Normal (st', b')
    /\ mount fresh_state b' = Normal (st1, b')
    /\ loggedInUser (auth st1) = Some defaultRep.
Proof.
  destruct (handleLogin login_form rep_browser) as [[st' b']|] eqn:E;
    [|vm_compute in E; discriminate].
  destruct (login_survives_reload login_form rep_browser [defaultRep] defaultRep
              st' b' fresh_state) as (st1 & A & B);
    [vm_compute; reflexivity | vm_compute; reflexivity | exact E |].
  exists st', b', st1. repeat split; assumption.
Defined.

(** X13.  A logout forgets the rep: nobody is logged in, neither storage
    holds the key "loggedInUser" any more, the stored ledger is untouched,
    and the effect of the first render on that browser logs nobody in. *)
Theorem logout_forgets st b reps st0 :
  stored_reps b = Normal reps ->
  loggedInUser (auth (fst (handleLogout st b))) = None
  /\ localStorage (snd (handleLogout st b)) !! "loggedInUser" = None
  /\ sessionStorage (snd (handleLogout st b)) !! "loggedInUser" = None
  /\ localStorage (snd (handleLogout st b)) !! "orders" = localStorage b !! "orders"
  /\ exists b1,
       mount st0 (snd (handleLogout st b)) = Normal (st0, b1).
Proof.
  intros Hr. cbn.
  split; [reflexivity|]. split; [apply lookup_delete_eq|].
  split; [apply lookup_delete_eq|]. split; [now rewrite lookup_delete_ne|].
  unfold mount.
  assert (Hr' : stored_reps
     (sessionStorage_removeItem "loggedInUser" (localStorage_removeItem "loggedInUser" b))
     = Normal reps).
  { unfold stored_reps in *. cbn. now rewrite lookup_delete_ne. }
  rewrite Hr'.
  destruct reps; cbn.
  - rewrite lookup_insert_ne by discriminate. rewrite !lookup_delete_eq.
    eexists; reflexivity.
  - rewrite !lookup_delete_eq. eexists; reflexivity.
Qed.

Lemma logout_forgets_witness :
  localStorage remembered_browser !! "loggedInUser" = Some (UserDoc defaultRep)
  /\ localStorage (snd (handleLogout filled_state remembered_browser))
       !! "loggedInUser" = None
  /\ exists b1,
       mount fresh_state (snd (handleLogout filled_state remembered_browser))
       = Normal (fresh_state, b1).
Proof.
  split; [vm_compute; reflexivity|].
  destruct (logout_forgets filled_state remembered_browser [defaultRep]
              fresh_state) as (_ & A & _ & _ & B);
    [vm_compute; reflexivity|].
  split; assumption.
Defined.

(** X14.  On a browser without registered reps the first render stores the
    default rep, and the username "rep1" with the password "1234" then logs
    that rep in. *)
Theorem mount_default_rep st b st' :
  stored_reps b = Normal [] ->
  username (auth st') = "rep1" -> password (auth st') = "1234" ->
  exists st1 b1 st2 b2,
    mount st b = Normal (st1, b1)
    /\ stored_reps b1 = Normal [defaultRep]
    /\ handleLogin st' b1 = Normal (st2, b2)
    /\ loggedInUser (auth st2) = Some defaultRep.
Proof.
  intros Hr Hu Hp. unfold mount. rewrite Hr.
  set (b1 := localStorage_setItem "salesReps" _ b).
  assert (Hr1 : stored_reps b1 = Normal [defaultRep]) by apply stored_reps_setItem.
  assert (HL : exists st2 b2, handleLogin st' b1 = Normal (st2, b2)
                              /\ loggedInUser (auth st2) = Some defaultRep).
  { unfold handleLogin. rewrite Hr1. cbn [List.find defaultRep rep_username rep_password].
    rewrite Hu, Hp. cbn. eexists _, _. split; reflexivity. }
  destruct HL as (st2 & b2 & HL & HU).
  destruct (match localStorage b1 !! "loggedInUser" with
            | Some (UserDoc u) => Some u | Some _ => None
            | None => match sessionStorage b1 !! "loggedInUser" with
                      | Some (UserDoc u) => Some u | _ => None end end);
    eexists _, b1, st2, b2; (split; [reflexivity|]); auto.
Qed.

Lemma mount_default_rep_witness :
  stored_reps example_browser = Normal []
  /\ exists st1 b1 st2 b2,
       mount fresh_state example_browser = Normal (st1, b1)
       /\ stored_reps b1 = Normal [defaultRep]
       /\ handleLogin login_form b1 = Normal (st2, b2)
       /\ loggedInUser (auth st2) = Some defaultRep.
Proof.
  assert (Hr : stored_reps example_browser = Normal [])
    by (vm_compute; reflexivity).
  split; [exact Hr|].
  apply (mount_default_rep fresh_state example_browser login_form Hr);
    reflexivity.
Defined.

End Access.

(** ** Orders: what is recorded, and what holds along a session *)

Module Orders.

Import JSString JSNumber App Spec Props ListFacts Calculator Ledger.

Lemma trimStart_all_ws s : all_ws s = true -> trimStart s = "".
Proof.
  induction s as [|c s IH]; simpl; [reflexivity|].
  intros [Hc Hs]%andb_true_iff. rewrite Hc. now apply IH.
Qed.

Lemma trimEnd_empty_inv s : trimEnd s = "" -> all_ws s = true.
Proof.
  induction s as [|c s IH]; simpl; [reflexivity|].
  destruct (trimEnd s) eqn:E; [|discriminate].
  destruct (is_ws c); [|discriminate]. intros _. now apply IH.
Qed.

Lemma trimStart_suffix_ws s : all_ws (trimStart s) = true -> all_ws s = true.
Proof.
  induction s as [|c s IH]; simpl; [reflexivity|].
  destruct (is_ws c) eqn:E; [exact IH|].
  simpl. rewrite E. discriminate.
Qed.

(** [trim] gives the empty string exactly on strings of white space. *)
Lemma trim_empty_iff s : is_empty (trim s) = true <-> all_ws s = true.
Proof.
  unfold trim. split.
  - intros H. apply trimStart_suffix_ws, trimEnd_empty_inv.
    destruct (trimEnd (trimStart s)); [reflexivity|discriminate].
  - intros H. now rewrite (trimStart_all_ws _ H).
Qed.

(** X15.  With a result calculated and a rep logged in, an order whose
    customer name or phone number is empty or made of white space only is
    not placed: the state stays as it is, nothing is stored, and the one
    alert "Please enter customer name and phone number." is shown. *)
Theorem handlePlaceOrder_blank_customer env fuel st b r u :
  result st = Some r -> loggedInUser (auth st) = Some u ->
  all_ws (customerName (cust st)) = true \/ all_ws (customerPhone (cust st)) = true ->
  handlePlaceOrder env fuel st b = Some (Normal (st, alert AlertCustomerMissing b)).
Proof.
  intros Hr Hu H. unfold handlePlaceOrder. rewrite Hr, Hu.
  replace (is_empty (trim (customerName (cust st)))
           || is_empty (trim (customerPhone (cust st)))) with true; [reflexivity|].
  symmetry. apply orb_true_iff.
  destruct H as [H|H]; [left|right]; now apply trim_empty_iff.
Qed.

Lemma handlePlaceOrder_blank_customer_witness :
  customerName (cust blank_customer_state) = "   "
  /\ handlePlaceOrder example_env 1 blank_customer_state example_browser
     = Some (Normal (blank_customer_state,
                     alert AlertCustomerMissing example_browser)).
Proof.
  split; [reflexivity|].
  destruct (result blank_customer_state) as [r|] eqn:R;
    [|vm_compute in R; discriminate].
  apply (handlePlaceOrder_blank_customer example_env 1 blank_customer_state
           example_browser r example_rep R).
  - reflexivity.
  - left. vm_compute. reflexivity.
Defined.

(** A placed order: what it records, and what else the call leaves alone. *)
Lemma place_order_records env fuel st b st' b' r u :
  can_place st = true ->
  result st = Some r -> loggedInUser (auth st) = Some u ->
  handlePlaceOrder env fuel st b = Some (Normal (st', b')) ->
  exists o,
    orders st' = (orders st ++ [o])%list
    /\ records o st r u
    /\ alerts b' = (alerts b ++ [AlertOrderCreated o])%list
    /\ cust st' = mkCustomerInputs "" "" "" "" ""
    /\ result st' = result st /\ calc st' = calc st /\ dlv st' = dlv st
    /\ auth st' = auth st /\ tile st' = tile st /\ wallTile st' = wallTile st
    /\ sessionStorage b' = sessionStorage b
    /\ (forall k, k <> "orders" -> localStorage b' !! k = localStorage b !! k).
Proof.
  intros Hc Hr Hu. revert Hc. unfold can_place, handlePlaceOrder. rewrite Hr, Hu.
  destruct (is_empty (trim (customerName (cust st)))); [discriminate|].
  destruct (is_empty (trim (customerPhone (cust st)))); [discriminate|].
  cbn [negb andb orb].
  destruct (_ && _ && _); [discriminate|]. intros _.
  destruct (generateOrderId env b) as [oid b1] eqn:Eo.
  destruct (generateTicketNumber env fuel b1) as [[[ticket b2]|]|] eqn:G;
    try discriminate.
  intros [= <- <-].
  apply generateTicketNumber_storage in G as (Hl & Hss & Ha).
  unfold generateOrderId in Eo. injection Eo as <- <-. cbn in Hl, Hss, Ha.
  eexists. split; [reflexivity|]. split; [repeat split|].
  cbn [alert localStorage_setItem alerts sessionStorage localStorage set_cust
       setOrders cust result calc dlv auth tile wallTile].
  rewrite Ha, Hss, Hl. do 9 (split; [first [reflexivity | assumption]|]).
  intros k Hk. now rewrite lookup_insert_ne.
Qed.

(** X16.  A placed order records the rep who is logged in, the customer
    fields with the white space around them removed, the tile choices and
    the calculator inputs of the state, and the numbers of the stored
    result.  The call clears the customer form, shows the one alert for the
    new order, and leaves the result, the inputs, the login, the session
    storage and every other key of the local storage as they are. *)
Theorem handlePlaceOrder_records env fuel st b st' b' r u :
  can_place st = true ->
  result st = Some r -> loggedInUser (auth st) = Some u ->
  handlePlaceOrder env fuel st b = Some (Normal (st', b')) ->
  exists o,
    orders st' = (orders st ++ [o])%list
    /\ records o st r u
    /\ alerts b' = (alerts b ++ [AlertOrderCreated o])%list
    /\ cust st' = mkCustomerInputs "" "" "" "" ""
    /\ result st' = result st /\ calc st' = calc st /\ dlv st' = dlv st
    /\ auth st' = auth st /\ tile st' = tile st /\ wallTile st' = wallTile st
    /\ sessionStorage b' = sessionStorage b
    /\ (forall k, k <> "orders" -> localStorage b' !! k = localStorage b !! k).
Proof. exact (place_order_records env fuel st b st' b' r u). Qed.

Lemma handlePlaceOrder_records_witness :
  exists st' b' o,
    handlePlaceOrder example_env 1 ready_state example_browser
    = Some (Normal (st', b'))
    /\ orders st' = [o]
    /\ salesRep o = "Default Rep"
    /\ customer o = mkCustomer "Ann Lee" "876-555-0101" "" "12 Hope Rd" ""
    /\ cust st' = mkCustomerInputs "" "" "" "" "".
Proof.
  destruct (handlePlaceOrder example_env 1 ready_state example_browser)
    as [[[st' b']|]|] eqn:E; [|vm_compute in E; discriminate..].
  destruct (result ready_state) as [r|] eqn:R; [|vm_compute in R; discriminate].
  destruct (handlePlaceOrder_records example_env 1 ready_state example_browser
              st' b' r example_rep) as (o & Ho & Rec & _ & Hcu & _);
    [vm_compute; reflexivity | exact R | reflexivity | exact E |].
  destruct Rec as (Hs & _ & Hc & _).
  exists st', b', o. split; [reflexivity|].
  split; [exact Ho|]. split; [exact Hs|]. split; [|exact Hcu].
  rewrite Hc. vm_compute. reflexivity.
Defined.

(** X17.  Editing the calculator after a calculation keeps the stored
    result: an order placed then records the new tile size, room size and
    price next to the tile count and the grand total of the old input. *)
Theorem order_after_edit_records_old_result env env' fuel st b c r u st' b' :
  can_place st = true ->
  result st = Some r -> loggedInUser (auth st) = Some u ->
  run fuel [(env, EditCalc c); (env', PlaceOrder)] st b = Some (Normal (st', b')) ->
  exists o,
    orders st' = (orders st ++ [o])%list
    /\ order_tilesNeeded o = tilesNeeded r
    /\ order_grandTotal o = grandTotal r
    /\ tileDimensions o = mkDimensions (tileLength c) (tileWidth c) (tileUnit c)
    /\ roomDimensions o = mkDimensions (roomLength c) (roomWidth c) (roomUnit c)
    /\ order_tilePrice o = tilePrice c.
Proof.
  intros Hc Hr Hu. cbn [run step].
  set (st1 := sync_deliveryCost (set_calc c st)).
  destruct (handlePlaceOrder env' fuel st1 b) as [[[st2 b2]|]|] eqn:E;
    try discriminate.
  intros [= <- <-].
  destruct (place_order_records env' fuel st1 b st2 b2 r u) as (o & Ho & R & _);
    trivial.
  destruct R as (_ & _ & _ & _ & _ & Htd & Htp & Hrd & Htn & _ & _ & _ & Hg).
  exists o. cbn. split; [exact Ho|]. auto.
Qed.

Lemma order_after_edit_records_old_result_witness :
  exists st' b' o,
    run 1 [(example_env, EditCalc edited_calc); (example_env, PlaceOrder)]
      ready_state example_browser = Some (Normal (st', b'))
    /\ orders st' = [o]
    /\ order_tilesNeeded o = ofZ 223
    /\ tileDimensions o = mkDimensions "0.6" "0.6" "m"
    /\ order_tilePrice o = "250".
Proof.
  destruct (run 1 [(example_env, EditCalc edited_calc); (example_env, PlaceOrder)]
              ready_state example_browser) as [[[st' b']|]|] eqn:E;
    [|vm_compute in E; discriminate..].
  destruct (result ready_state) as [r|] eqn:R; [|vm_compute in R; discriminate].
  destruct (order_after_edit_records_old_result example_env example_env 1
              ready_state example_browser edited_calc r example_rep st' b')
    as (o & Ho & Hn & _ & Ht & _ & Hp);
    [vm_compute; reflexivity | exact R | reflexivity | exact E |].
  exists st', b', o. split; [reflexivity|]. split; [exact Ho|].
  split; [|split; assumption].
  rewrite Hn. vm_compute in R. injection R as <-. reflexivity.
Defined.

(** X18.  An order placed right after a valid calculation carries the
    numbers that calculation computed: the tile count is [Math.ceil] of the
    binary64 quotient of the binary64 room area by the binary64 tile area
    (on a room the tiles fill exactly this can be one more than the tiles
    that fit), the tile cost is the count times the price, the thinset costs
    1500 a bag, the delivery is the computed delivery cost, and the grand
    total is their sum. *)
Theorem order_records_calculation env fuel st b st' b' u :
  valid_input (calc st) ->
  loggedInUser (auth st) = Some u ->
  can_place (fst (handleCalculate st b)) = true ->
  handlePlaceOrder env fuel (fst (handleCalculate st b)) (snd (handleCalculate st b))
  = Some (Normal (st', b')) ->
  exists o,
    orders st' = (orders st ++ [o])%list
    /\ order_tilesNeeded o
       = Math_ceil (div (roomArea (calc st)) (tileArea (calc st)))
    /\ order_totalCost o
       = mul (order_tilesNeeded o) (parseFloat (tilePrice (calc st)))
    /\ ts_cost (thinset o) = mul (ts_bags (thinset o)) (ofZ 1500)
    /\ dq_cost (order_delivery o)
       = computeDeliveryCost (deliveryMethod (dlv st)) (deliveryMiles (dlv st))
           (isNewParish (dlv st))
    /\ order_grandTotal o
       = add (add (order_totalCost o) (ts_cost (thinset o)))
             (dq_cost (order_delivery o)).
Proof.
  intros Hv Hu.
  destruct (handleCalculate_accepts st b Hv)
    as (r & -> & Ht & Hc & _ & _ & _ & Hp & Htc & Hd & Hg).
  cbn [fst snd]. intros Hcp H.
  destruct (place_order_records env fuel _ b st' b' r u Hcp eq_refl Hu H)
    as (o & Ho & R & _).
  destruct R as (_ & _ & _ & _ & _ & _ & _ & _ & Htn & Hto & Hth & Hde & Hgr).
  exists o. split; [exact Ho|].
  rewrite Hth, Hde, Htn, Hto, Hgr. cbn [ts_cost ts_bags].
  repeat (split; [assumption|]). assumption.
Qed.

Lemma order_records_calculation_witness :
  valid_input (calc exact_fit_state)
  /\ exact_tiles (calc exact_fit_state) = Some 100%Z
  /\ exists st' b' o,
       handlePlaceOrder example_env 1
         (fst (handleCalculate exact_fit_state example_browser))
         (snd (handleCalculate exact_fit_state example_browser))
       = Some (Normal (st', b'))
       /\ orders st' = [o]
       /\ order_tilesNeeded o = ofZ 101
       /\ order_totalCost o = ofZ 10100.
Proof.
  assert (Hv : valid_input (calc exact_fit_state))
    by (repeat split; vm_compute; reflexivity).
  split; [exact Hv|]. split; [vm_compute; reflexivity|].
  destruct (handlePlaceOrder example_env 1
              (fst (handleCalculate exact_fit_state example_browser))
              (snd (handleCalculate exact_fit_state example_browser)))
    as [[[st' b']|]|] eqn:E; [|vm_compute in E; discriminate..].
  destruct (order_records_calculation example_env 1 exact_fit_state
              example_browser st' b' example_rep Hv) as (o & Ho & Hn & Hc & _);
    [reflexivity | vm_compute; reflexivity | exact E |].
  exists st', b', o. split; [reflexivity|]. split; [exact Ho|].
  assert (H101 : order_tilesNeeded o = ofZ 101)
    by (rewrite Hn; vm_compute; reflexivity).
  split; [exact H101|]. rewrite Hc, H101. vm_compute. reflexivity.
Defined.

(** *** Invariants of a session *)

Lemma handleCalculate_consistent st b :
  (forall r, result st = Some r -> result_consistent r) ->
  forall r, result (fst (handleCalculate st b)) = Some r -> result_consistent r.
Proof.
  intros H r. unfold handleCalculate.
  destruct (_ || _); cbn [fst]; [apply H|].
  cbn [setResult result]. intros [= <-].
  repeat split.
Qed.

Lemma handleCalculate_orders st b :
  orders (fst (handleCalculate st b)) = orders st.
Proof. unfold handleCalculate. destruct (_ || _); reflexivity. Qed.

Lemma handlePlaceOrder_consistent env fuel st b st' b' :
  totals_consistent st ->
  handlePlaceOrder env fuel st b = Some (Normal (st', b')) ->
  totals_consistent st'.
Proof.
  intros [Hr Ho]. unfold handlePlaceOrder.
  destruct (result st) as [r|] eqn:R; [|intros [= <- <-]; split; [now rewrite R|exact Ho]].
  destruct (loggedInUser (auth st)) as [u|]; [|intros [= <- <-]; split; [now rewrite R|exact Ho]].
  destruct (_ || _); [intros [= <- <-]; split; [now rewrite R|exact Ho]|].
  destruct (_ && _ && _); [intros [= <- <-]; split; [now rewrite R|exact Ho]|].
  destruct (generateOrderId env b) as [oid b1].
  destruct (generateTicketNumber env fuel b1) as [[[ticket b2]|]|]; try discriminate.
  intros [= <- <-]. split.
  - cbn. now rewrite R.
  - cbn. apply Forall_app. split; [exact Ho|].
    constructor; [|constructor]. exact (Hr r eq_refl).
Qed.

Lemma step_consistent env fuel ev st b st' b' :
  step env fuel ev st b = Some (Normal (st', b')) ->
  totals_consistent st -> totals_consistent st'.
Proof.
  intros H Hc.
  destruct ev; cbn [step] in H;
    try (injection H as <- <-; exact Hc).
  - destruct (mount st b) as [[st1 b1]|] eqn:E; try discriminate.
    injection H as <- <-. unfold mount in E.
    destruct (stored_reps b); [|discriminate].
    destruct (match localStorage _ !! "loggedInUser" with Some _ => _ | None => _ end) in E;
      injection E as <- <-; exact Hc.
  - injection H as <- <-. unfold applyAutoDistanceToUI.
    destruct (nonempty destParishGuess); [destruct (negb _)|]; exact Hc.
  - destruct (handleCalculate st b) as [st1 b1] eqn:E. injection H as <- <-.
    destruct Hc as [Hr Ho]. split.
    + intros r. cbn. change st1 with (fst (st1, b1)). rewrite <- E.
      now apply handleCalculate_consistent.
    + cbn. change st1 with (fst (st1, b1)). rewrite <- E.
      now rewrite handleCalculate_orders.
  - destruct (handlePlaceOrder env fuel st b) as [[[st1 b1]|]|] eqn:E; try discriminate.
    injection H as <- <-.
    exact (handlePlaceOrder_consistent _ _ _ _ _ _ Hc E).
  - destruct (handleRegister env st b) as [[st1 b1]|] eqn:E; try discriminate.
    injection H as <- <-. unfold handleRegister in E.
    destruct (_ || _) in E; [injection E as <- <-; exact Hc|].
    destruct (stored_reps b); [|discriminate].
    destruct (existsb _ _) in E; injection E as <- <-; exact Hc.
  - destruct (handleLogin st b) as [[st1 b1]|] eqn:E; try discriminate.
    injection H as <- <-. unfold handleLogin in E.
    destruct (stored_reps b); [|discriminate].
    destruct (find _ _); injection E as <- <-; exact Hc.
Qed.

Lemma run_consistent fuel evs st b st' b' :
  run fuel evs st b = Some (Normal (st', b')) ->
  totals_consistent st -> totals_consistent st'.
Proof.
  revert st b. induction evs as [|[env ev] evs IH]; intros st b; cbn [run].
  - now intros [= <- <-].
  - destruct (step env fuel ev st b) as [[[st1 b1]|]|] eqn:E; try discriminate.
    intros H Hc. exact (IH _ _ H (step_consistent _ _ _ _ _ _ _ E Hc)).
Qed.

Lemma handlePlaceOrder_unique env fuel st b st' b' :
  synced st b -> List.NoDup (tickets (orders st)) ->
  handlePlaceOrder env fuel st b = Some (Normal (st', b')) ->
  List.NoDup (tickets (orders st')).
Proof.
  intros Hs Hn H. destruct (can_place st) eqn:Hc.
  - pose proof (handlePlaceOrder_placed env fuel st b Hc) as P.
    destruct (generateTicketNumber _ _ _) as [[[ticket b2]|]|] eqn:G;
      [|congruence|congruence].
    destruct P as (o & Ht & P). rewrite P in H. injection H as <- <-.
    cbn. unfold tickets. rewrite map_app. cbn [map].
    apply NoDup_app_fresh; [exact Hn|].
    unfold generateTicketNumber in G.
    change (stored_orders (snd (generateOrderId env b))) with (stored_orders b) in G.
    unfold synced in Hs. rewrite Hs in G.
    destruct (ticket_loop _ _ _ _) as [[t n]|] eqn:L; [|discriminate].
    injection G as <- <-. apply ticket_loop_fresh in L.
    rewrite elem_of_list_to_set, list_elem_of_In in L. now rewrite Ht.
  - destruct (handlePlaceOrder_blocked env fuel st b Hc) as (a & P).
    rewrite P in H. now injection H as <- <-.
Qed.

Lemma step_unique env fuel ev st b st' b' :
  step env fuel ev st b = Some (Normal (st', b')) ->
  synced st b -> List.NoDup (tickets (orders st)) ->
  List.NoDup (tickets (orders st')).
Proof.
  intros H Hs Hn.
  destruct (step_ledger _ _ _ _ _ _ _ H) as [(-> & _)|(-> & _)]; [exact Hn|].
  cbn [step] in H.
  destruct (handlePlaceOrder env fuel st b) as [[[st1 b1]|]|] eqn:E; try discriminate.
  injection H as <- <-. exact (handlePlaceOrder_unique _ _ _ _ _ _ Hs Hn E).
Qed.

Lemma run_unique fuel evs st b st' b' :
  run fuel evs st b = Some (Normal (st', b')) ->
  synced st b -> List.NoDup (tickets (orders st)) ->
  synced st' b' /\ List.NoDup (tickets (orders st')).
Proof.
  revert st b. induction evs as [|[env ev] evs IH]; intros st b; cbn [run].
  - intros [= <- <-]. auto.
  - destruct (step env fuel ev st b) as [[[st1 b1]|]|] eqn:E; try discriminate.
    intros H Hs Hn. apply (IH _ _ H).
    + exact (step_synced _ _ _ _ _ _ _ E Hs).
    + exact (step_unique _ _ _ _ _ _ _ E Hs Hn).
Qed.

(** The first render shows the stored ledger and no result. *)
Lemma initialState_synced b st :
  initialState b = Normal st -> synced st b /\ result st = None.
Proof.
  unfold initialState, synced. destruct (stored_orders b) as [l|]; [|discriminate].
  intros [= <-]. auto.
Qed.

(** X19.  Ticket numbers stay unique along a session.  When the page starts
    on a stored ledger whose ticket numbers are pairwise different, then
    after any sequence of events of the page that runs to its end the ticket
    numbers of the ledger are still pairwise different, and the stored copy
    is still the whole ledger. *)
Theorem session_tickets_unique fuel evs b st0 st' b' :
  initialState b = Normal st0 ->
  List.NoDup (tickets (orders st0)) ->
  run fuel evs st0 b = Some (Normal (st', b')) ->
  List.NoDup (tickets (orders st')) /\ synced st' b'.
Proof.
  intros H0 Hn H. apply initialState_synced in H0 as [Hs _].
  destruct (run_unique _ _ _ _ _ _ H Hs Hn). auto.
Qed.

Lemma session_tickets_unique_witness :
  exists st' b',
    run 3 session fresh_state example_browser = Some (Normal (st', b'))
    /\ List.NoDup (tickets (orders st'))
    /\ tickets (orders st') = ["TRU-A1B2-ZZZZ"; "TRU-QWER-QWER"].
Proof.
  destruct (run 3 session fresh_state example_browser) as [[[st' b']|]|] eqn:E;
    [|vm_compute in E; discriminate..].
  destruct (session_tickets_unique 3 session example_browser fresh_state st' b')
    as [A _]; [vm_compute; reflexivity | exact (List.NoDup_nil _) | exact E |].
  exists st', b'. split; [reflexivity|]. split; [exact A|].
  vm_compute in E. injection E as <- _. reflexivity.
Defined.

(** X20.  The totals add up along a session.  When in every stored order
    the thinset costs 1500 a bag and the grand total is the sum of tile
    cost, thinset cost and delivery cost, then after any sequence of events
    of the page the same holds for every order of the ledger and for the
    result on display. *)
Theorem session_totals_consistent fuel evs b st0 st' b' :
  initialState b = Normal st0 ->
  Forall order_consistent (orders st0) ->
  run fuel evs st0 b = Some (Normal (st', b')) ->
  totals_consistent st'.
Proof.
  intros H0 Hf H. apply initialState_synced in H0 as [_ Hr].
  apply (run_consistent _ _ _ _ _ _ H). split; [|exact Hf].
  intros r. rewrite Hr. discriminate.
Qed.

Lemma session_totals_consistent_witness :
  exists st' b',
    run 3 session fresh_state example_browser = Some (Normal (st', b'))
    /\ length (orders st') = 2
    /\ Forall order_consistent (orders st').
Proof.
  destruct (run 3 session fresh_state example_browser) as [[[st' b']|]|] eqn:E;
    [|vm_compute in E; discriminate..].
  destruct (session_totals_consistent 3 session example_browser fresh_state st' b')
    as [_ A]; [vm_compute; reflexivity | exact (List.Forall_nil _) | exact E |].
  exists st', b'. split; [reflexivity|]. split; [|exact A].
  vm_compute in E. injection E as <- _. reflexivity.
Defined.

End Orders.

(** ** The scene: objects, the gizmo, the panel and the clamped settings *)

Module SceneFacts.

Import JSString JSNumber App Spec Scene Props ListFacts NumberFacts Bounds.

Lemma not_in_ids id sc :
  ~ In id (ids sc) -> forall o, In o (objects sc) -> String.eqb (obj_id o) id = false.
Proof.
  intros H o Ho. apply String.eqb_neq. intros E. apply H.
  unfold ids. apply in_map_iff. eauto.
Qed.

(** Every asset of the catalogue has the model scale 1. *)
Lemma catalog_modelScale asset :
  In asset OBJECT_CATALOG -> or_else (asset_modelScale asset) (ofZ 1) = ofZ 1.
Proof.
  intros E. cbv in E.
  repeat (destruct E as [<- | E]; [reflexivity|]). destruct E.
Qed.

(** Adding an asset of the catalogue. *)
Lemma addObject_found env a sc b :
  In a (map assetId OBJECT_CATALOG) ->
  exists asset,
    In asset OBJECT_CATALOG /\ assetId asset = a
    /\ addObject env a sc b
       = (mkSceneState
            (objects sc
             ++ [mkPlacedObject (new_id env b) a (asset_label asset)
                   (asset_url asset) (ofZ 1) (ofZ 0, ofZ 0, ofZ 0) (ofZ 0)
                   (ofZ 1)])
            (Some (new_id env b)),
          with_draws (S (draws b)) b).
Proof.
  intros Hin. unfold addObject.
  destruct (List.find _ OBJECT_CATALOG) as [asset|] eqn:E.
  - apply find_some in E as [Hc He]. apply String.eqb_eq in He.
    exists asset. rewrite (catalog_modelScale asset Hc). auto.
  - exfalso. apply in_map_iff in Hin as (x & Hx & Hin).
    pose proof (find_none _ _ E x Hin) as Hn. cbn in Hn.
    rewrite Hx, String.eqb_refl in Hn. discriminate.
Qed.

(** X21.  [clampToRoom] puts a point into the room: for a room of size not
    below 0 and coordinates that are numbers, each returned coordinate lies
    between minus half the size and half the size. *)
Theorem clampToRoom_bounds sizeX sizeY x z :
  nonneg sizeX -> nonneg sizeY -> isNaN x = false -> isNaN z = false ->
  leb (neg (div sizeX (ofZ 2))) (fst (clampToRoom sizeX sizeY x z)) = true
  /\ leb (fst (clampToRoom sizeX sizeY x z)) (div sizeX (ofZ 2)) = true
  /\ leb (neg (div sizeY (ofZ 2))) (snd (clampToRoom sizeX sizeY x z)) = true
  /\ leb (snd (clampToRoom sizeX sizeY x z)) (div sizeY (ofZ 2)) = true.
Proof. exact (clampToRoom_within sizeX sizeY x z). Qed.

Lemma clampToRoom_bounds_witness :
  clampToRoom (ofZ 4) (ofZ 5) (ofZ 7) (ofZ (-1)) = (ofZ 2, ofZ (-1))
  /\ leb (neg (div (ofZ 4) (ofZ 2)))
         (fst (clampToRoom (ofZ 4) (ofZ 5) (ofZ 7) (ofZ (-1)))) = true
  /\ leb (fst (clampToRoom (ofZ 4) (ofZ 5) (ofZ 7) (ofZ (-1))))
         (div (ofZ 4) (ofZ 2)) = true
  /\ leb (neg (div (ofZ 5) (ofZ 2)))
         (snd (clampToRoom (ofZ 4) (ofZ 5) (ofZ 7) (ofZ (-1)))) = true
  /\ leb (snd (clampToRoom (ofZ 4) (ofZ 5) (ofZ 7) (ofZ (-1))))
         (div (ofZ 5) (ofZ 2)) = true.
Proof.
  split; [vm_compute; reflexivity|].
  apply clampToRoom_bounds; try reflexivity; split; reflexivity.
Defined.

(** X22.  A gizmo change leaves the object on the floor, upright, inside the
    room the page draws, and with one scale for the three axes: whatever the
    gizmo did, the height is 0, the rotations about x and z are 0, the
    position lies within half the floor size on either side, and, when the
    scale is a number, the common scale is at least 0.01.  The patch reported
    to the page carries the same position, rotation and scale. *)
Theorem handleChange_normalises u st t :
  isNaN (fst (fst (g_position t))) = false ->
  isNaN (snd (g_position t)) = false ->
  exists cx cz s,
    handleChange (floorSizeX u st) (floorSizeY u st) (Some t)
    = Some (mkTransform (cx, ofZ 0, cz) (ofZ 0, snd (fst (g_rotation t)), ofZ 0)
              (s, s, s),
            mkPatch (Some (cx, ofZ 0, cz)) (Some (snd (fst (g_rotation t))))
              (Some s))
    /\ leb (neg (div (floorSizeX u st) (ofZ 2))) cx = true
    /\ leb cx (div (floorSizeX u st) (ofZ 2)) = true
    /\ leb (neg (div (floorSizeY u st) (ofZ 2))) cz = true
    /\ leb cz (div (floorSizeY u st) (ofZ 2)) = true
    /\ (isNaN (fst (fst (g_scale t))) = false -> leb (lit "0.01") s = true).
Proof.
  destruct t as [[[px py] pz] [[rx ry] rz] [[sx sy] sz]].
  cbn [g_position g_rotation g_scale fst snd].
  intros Hx Hz.
  destruct (floorSize_nonneg u st) as [HX HY].
  destruct (clampToRoom_within _ _ px pz HX HY Hx Hz) as (A & B & C & D).
  unfold handleChange. cbn [g_position g_rotation g_scale].
  destruct (clampToRoom _ _ px pz) as [cx cz]. cbn [fst snd] in *.
  eexists cx, cz, _. split; [reflexivity|].
  repeat (split; [assumption|]).
  intros Hs. apply Math_max_spec; trivial.
Qed.

Lemma handleChange_normalises_witness :
  handleChange (floorSizeX true example_state) (floorSizeY true example_state)
    (Some example_transform)
  = Some (mkTransform (lit "2.5", ofZ 0, ofZ (-2)) (ofZ 0, lit "1.5", ofZ 0)
            (lit "0.01", lit "0.01", lit "0.01"),
          mkPatch (Some (lit "2.5", ofZ 0, ofZ (-2))) (Some (lit "1.5"))
            (Some (lit "0.01")))
  /\ exists cx cz s,
       handleChange (floorSizeX true example_state)
         (floorSizeY true example_state) (Some example_transform)
       = Some (mkTransform (cx, ofZ 0, cz) (ofZ 0, lit "1.5", ofZ 0) (s, s, s),
               mkPatch (Some (cx, ofZ 0, cz)) (Some (lit "1.5")) (Some s))
       /\ leb cx (div (floorSizeX true example_state) (ofZ 2)) = true
       /\ leb (neg (div (floorSizeY true example_state) (ofZ 2))) cz = true.
Proof.
  split; [vm_compute; reflexivity|].
  destruct (handleChange_normalises true example_state example_transform)
    as (cx & cz & s & H & _ & B & C & _); [reflexivity | reflexivity |].
  exists cx, cz, s. repeat split; assumption.
Defined.

(** X23.  Removing an object removes every object with that id and no other:
    the id is gone, the objects left are exactly the others in their order,
    a selection of another object stays (and still finds the same object),
    and a selection of the removed object is cleared. *)
Theorem removeObject_removes id sc :
  ~ In id (ids (removeObject id sc))
  /\ (forall o, In o (objects (removeObject id sc))
                <-> In o (objects sc) /\ obj_id o <> id)
  /\ (forall sel, selectedObjectId sc = Some sel -> sel <> id ->
        selectedObjectId (removeObject id sc) = Some sel
        /\ selectedObject (removeObject id sc) = selectedObject sc)
  /\ (selectedObjectId sc = Some id ->
        selectedObjectId (removeObject id sc) = None).
Proof.
  assert (F : forall o, In o (objects (removeObject id sc))
                <-> In o (objects sc) /\ obj_id o <> id).
  { intros o. cbn. rewrite filter_In, negb_true_iff, String.eqb_neq. reflexivity. }
  split; [|split; [exact F|split]].
  - unfold ids. intros H. apply in_map_iff in H as (o & Ho & Hin).
    apply F in Hin as [_ Hne]. contradiction.
  - intros sel Hsel Hne. unfold selectedObject. cbn. rewrite Hsel.
    apply String.eqb_neq in Hne. rewrite Hne. split; [reflexivity|].
    apply find_filter_keep. intros x Hx. apply String.eqb_eq in Hx.
    rewrite Hx. now rewrite Hne.
  - intros Hsel. cbn. rewrite Hsel. now rewrite String.eqb_refl.
Qed.

Lemma removeObject_removes_witness :
  objects (removeObject "obj-2-bbbbb" example_scene) = [sofa]
  /\ selectedObject (removeObject "obj-2-bbbbb" example_scene) = Some sofa
  /\ selectedObjectId (removeObject "obj-1-aaaaa" example_scene) = None.
Proof.
  destruct (removeObject_removes "obj-2-bbbbb" example_scene) as (_ & _ & A & _).
  destruct (removeObject_removes "obj-1-aaaaa" example_scene) as (_ & _ & _ & B).
  split; [vm_compute; reflexivity|]. split.
  - rewrite (proj2 (A "obj-1-aaaaa" eq_refl ltac:(discriminate))).
    vm_compute. reflexivity.
  - apply B. reflexivity.
Defined.

(** X24.  Adding an object.  For an asset id of the catalogue one object is
    put at the end of the list and selected, and one random draw is used; the
    object has the id made from the clock and the draw, the label and the
    model of the asset, the position (0, 0, 0), no rotation and the scales 1;
    when no earlier object has that id, the selected object is the new one.
    For any other asset id nothing changes. *)
Theorem addObject_outcome env a sc b :
  (In a (map assetId OBJECT_CATALOG) ->
   exists o asset,
     addObject env a sc b
     = (mkSceneState (objects sc ++ [o]) (Some (obj_id o)),
        with_draws (S (draws b)) b)
     /\ In asset OBJECT_CATALOG /\ assetId asset = a
     /\ obj_label o = asset_label asset /\ obj_url o = asset_url asset
     /\ obj_id o = new_id env b /\ obj_assetId o = a
     /\ obj_position o = (ofZ 0, ofZ 0, ofZ 0) /\ obj_rotationY o = ofZ 0
     /\ obj_scale o = ofZ 1 /\ obj_modelScale o = ofZ 1
     /\ (~ In (new_id env b) (ids sc) ->
         selectedObject (fst (addObject env a sc b)) = Some o))
  /\ (~ In a (map assetId OBJECT_CATALOG) -> addObject env a sc b = (sc, b)).
Proof.
  split.
  - intros Hin.
    destruct (addObject_found env a sc b Hin) as (asset & Hc & Ha & ->).
    exists (mkPlacedObject (new_id env b) a (asset_label asset) (asset_url asset)
              (ofZ 1) (ofZ 0, ofZ 0, ofZ 0) (ofZ 0) (ofZ 1)), asset.
    split; [reflexivity|].
    cbn [obj_id obj_assetId obj_label obj_url obj_position obj_rotationY
         obj_scale obj_modelScale].
    repeat (split; [first [reflexivity | assumption]|]).
    intros Hfresh. unfold selectedObject. cbn [fst selectedObjectId objects].
    apply find_app_last.
    + now apply not_in_ids.
    + cbn [obj_id]. apply String.eqb_refl.
  - intros Hnot. unfold addObject.
    destruct (List.find _ OBJECT_CATALOG) as [asset|] eqn:E; [|reflexivity].
    exfalso. apply Hnot. apply find_some in E as [Hin He].
    apply String.eqb_eq in He. subst a. now apply in_map.
Qed.

Lemma addObject_outcome_witness :
  (exists o,
      fst (addObject example_env "fridge" example_scene example_browser)
      = mkSceneState [sofa; plant; o] (Some "obj-1762041600000-4fzyo")
      /\ obj_label o = "Fridge"
      /\ selectedObject
           (fst (addObject example_env "fridge" example_scene example_browser))
         = Some o)
  /\ addObject example_env "piano" example_scene example_browser
     = (example_scene, example_browser).
Proof.
  split.
  - destruct (proj1 (addObject_outcome example_env "fridge" example_scene
                       example_browser))
      as (o & asset & H & Hc & Ha & Hl & _ & Hid & _ & _ & _ & _ & _ & Hsel).
    { apply (bool_decide_unpack _). vm_compute. exact I. }
    exists o. rewrite H in *. cbn [fst] in *.
    assert (E : obj_id o = "obj-1762041600000-4fzyo")
      by (rewrite Hid; vm_compute; reflexivity).
    split; [rewrite E; reflexivity|]. split.
    + rewrite Hl. cbv in Hc.
      repeat (destruct Hc as [<- | Hc]; [first [discriminate Ha | reflexivity]|]).
      destruct Hc.
    + apply Hsel. intros Hin. vm_compute in Hin.
      repeat (destruct Hin as [Hin | Hin]; [discriminate Hin|]). exact Hin.
  - apply (proj2 (addObject_outcome example_env "piano" example_scene
                    example_browser)).
    intros Hin. vm_compute in Hin.
    repeat (destruct Hin as [Hin | Hin]; [discriminate Hin|]). exact Hin.
Defined.

(** X25.  Adding an object and removing it again gives back the objects
    there were, in their order, when none of them has the new id; nothing is
    selected afterwards, also when something was selected before. *)
Theorem add_then_remove env a sc b :
  ~ In (new_id env b) (ids sc) ->
  In a (map assetId OBJECT_CATALOG) ->
  objects (removeObject (new_id env b) (fst (addObject env a sc b))) = objects sc
  /\ selectedObjectId (removeObject (new_id env b) (fst (addObject env a sc b)))
     = None.
Proof.
  intros Hfresh Hin.
  destruct (addObject_found env a sc b Hin) as (asset & _ & _ & ->).
  cbn [fst]. unfold removeObject. cbn [objects selectedObjectId].
  rewrite String.eqb_refl. split; [|reflexivity].
  rewrite List.filter_app. cbn [List.filter obj_id].
  rewrite String.eqb_refl. cbn [negb].
  rewrite app_nil_r. apply filter_all_true.
  intros x Hx. now rewrite (not_in_ids _ _ Hfresh x Hx).
Qed.

Lemma add_then_remove_witness :
  selectedObjectId example_scene = Some "obj-1-aaaaa"
  /\ objects (removeObject (new_id example_env example_browser)
                (fst (addObject example_env "fridge" example_scene
                        example_browser)))
     = objects example_scene
  /\ selectedObjectId
       (removeObject (new_id example_env example_browser)
          (fst (addObject example_env "fridge" example_scene example_browser)))
     = None.
Proof.
  split; [reflexivity|].
  apply add_then_remove.
  - intros Hin. vm_compute in Hin.
    repeat (destruct Hin as [Hin | Hin]; [discriminate Hin|]). exact Hin.
  - apply (bool_decide_unpack _). vm_compute. exact I.
Defined.

(** X26.  Updating an object keeps the ids, the order and the selection;
    it changes exactly the objects with the given id, by putting the
    properties of the patch over theirs; it changes nothing when no object
    has the id; and two updates of one id are the update with the merged
    patch, the later property winning. *)
Theorem updateObject_frame id patch sc :
  ids (updateObject id patch sc) = ids sc
  /\ selectedObjectId (updateObject id patch sc) = selectedObjectId sc
  /\ (forall i o, objects sc !! i = Some o ->
        objects (updateObject id patch sc) !! i
        = Some (if String.eqb (obj_id o) id then apply_patch o patch else o))
  /\ (~ In id (ids sc) -> updateObject id patch sc = sc)
  /\ (forall q, updateObject id q (updateObject id patch sc)
                = updateObject id (merge_patch patch q) sc).
Proof.
  split; [|split; [reflexivity|split; [|split]]].
  - unfold ids, updateObject. cbn [objects]. rewrite List.map_map.
    apply List.map_ext. intros o. destruct (String.eqb _ _); reflexivity.
  - intros i o Hi. cbn [updateObject objects].
    change (List.map ?f ?l) with (f <$> l). now rewrite list_lookup_fmap, Hi.
  - intros Hnot. destruct sc as [objs sel]. unfold updateObject. cbn [objects selectedObjectId].
    f_equal. rewrite <- (List.map_id objs) at 2. apply List.map_ext_in.
    intros o Ho. now rewrite (not_in_ids id (mkSceneState objs sel) Hnot o Ho).
  - intros q. unfold updateObject. cbn [objects selectedObjectId]. f_equal.
    rewrite List.map_map. apply List.map_ext. intros o.
    destruct (String.eqb (obj_id o) id) eqn:E.
    + cbn [apply_patch obj_id]. rewrite E.
      unfold apply_patch, merge_patch. cbn.
      destruct (patch_position q), (patch_rotationY q), (patch_scale q); reflexivity.
    + now rewrite E.
Qed.

Lemma updateObject_frame_witness :
  objects (updateObject "obj-2-bbbbb" (mkPatch None (Some (ofZ 3)) None)
             example_scene) !! 1
  = Some (mkPlacedObject "obj-2-bbbbb" "plant" "Plant" "/models/plant.glb"
            (ofZ 1) (ofZ 0, ofZ 0, ofZ 0) (ofZ 3) (ofZ 1))
  /\ updateObject "obj-9-zzzzz" (mkPatch None (Some (ofZ 3)) None) example_scene
     = example_scene.
Proof.
  split.
  - destruct (updateObject_frame "obj-2-bbbbb" (mkPatch None (Some (ofZ 3)) None)
                example_scene) as (_ & _ & A & _).
    rewrite (A 1 plant eq_refl). reflexivity.
  - destruct (updateObject_frame "obj-9-zzzzz" (mkPatch None (Some (ofZ 3)) None)
                example_scene) as (_ & _ & _ & B & _).
    apply B. intros Hin. vm_compute in Hin.
    repeat (destruct Hin as [Hin | Hin]; [discriminate Hin|]). exact Hin.
Defined.

(** X27.  While it is dragged the panel stays inside its container: for
    pointer coordinates that are numbers and finite rectangles, each
    coordinate of the new position is at least 8 pixels and at most the
    container's extent minus the panel's extent minus 8 pixels, or 8 when
    that is smaller; the drag goes on, and the grab offset and the collapsed
    flag are unchanged. *)
Theorem onMove_within_container clientX clientY cRect pRect ps :
  dragging ps = true ->
  isNaN clientX = false -> isNaN clientY = false ->
  is_finite (rect_left cRect) = true -> is_finite (rect_top cRect) = true ->
  is_finite (rect_width cRect) = true -> is_finite (rect_height cRect) = true ->
  is_finite (rect_width pRect) = true -> is_finite (rect_height pRect) = true ->
  is_finite (fst (offset ps)) = true -> is_finite (snd (offset ps)) = true ->
  leb (ofZ 8)
      (fst (pos (onMove clientX clientY (Some cRect) (Some pRect) ps))) = true
  /\ leb (fst (pos (onMove clientX clientY (Some cRect) (Some pRect) ps)))
         (panel_max (rect_width cRect) (rect_width pRect)) = true
  /\ leb (ofZ 8)
         (snd (pos (onMove clientX clientY (Some cRect) (Some pRect) ps))) = true
  /\ leb (snd (pos (onMove clientX clientY (Some cRect) (Some pRect) ps)))
         (panel_max (rect_height cRect) (rect_height pRect)) = true
  /\ dragging (onMove clientX clientY (Some cRect) (Some pRect) ps) = true
  /\ offset (onMove clientX clientY (Some cRect) (Some pRect) ps) = offset ps
  /\ collapsed (onMove clientX clientY (Some cRect) (Some pRect) ps)
     = collapsed ps.
Proof.
  intros Hd Hx Hy Hl Ht Hw Hh Hpw Hph Hox Hoy.
  unfold onMove. rewrite Hd. cbn [negb pos fst snd dragging offset collapsed].
  fold (panel_max (rect_width cRect) (rect_width pRect)).
  fold (panel_max (rect_height cRect) (rect_height pRect)).
  set (maxX := panel_max (rect_width cRect) (rect_width pRect)).
  set (maxY := panel_max (rect_height cRect) (rect_height pRect)).
  assert (F8 : is_finite (ofZ 8) = true) by reflexivity.
  assert (N8 : isNaN (ofZ 8) = false) by reflexivity.
  pose proof is_finite_not_NaN as Fn.
  assert (NsX : isNaN (sub (sub (rect_width cRect) (rect_width pRect)) (ofZ 8))
                = false)
    by (apply sub_not_NaN; [apply sub_not_NaN; auto|exact F8]).
  assert (NsY : isNaN (sub (sub (rect_height cRect) (rect_height pRect)) (ofZ 8))
                = false)
    by (apply sub_not_NaN; [apply sub_not_NaN; auto|exact F8]).
  assert (NmaxX : isNaN maxX = false) by (apply Math_max_not_NaN; trivial).
  assert (NmaxY : isNaN maxY = false) by (apply Math_max_not_NaN; trivial).
  assert (LX : leb (ofZ 8) maxX = true) by (apply Math_max_spec; trivial).
  assert (LY : leb (ofZ 8) maxY = true) by (apply Math_max_spec; trivial).
  assert (Nx : isNaN (sub (sub clientX (rect_left cRect)) (fst (offset ps))) = false)
    by (apply sub_not_NaN; [apply sub_not_NaN|]; auto).
  assert (Ny : isNaN (sub (sub clientY (rect_top cRect)) (snd (offset ps))) = false)
    by (apply sub_not_NaN; [apply sub_not_NaN|]; auto).
  destruct (clamp_min_max _ _ _ N8 NmaxX Nx LX) as [A B].
  destruct (clamp_min_max _ _ _ N8 NmaxY Ny LY) as [C D].
  auto 10.
Qed.

Lemma onMove_within_container_witness :
  pos (onMove (ofZ 2000) (ofZ (-50)) (Some example_container)
         (Some example_panel) dragged_panel) = (ofZ 492, ofZ 8)
  /\ leb (fst (pos (onMove (ofZ 2000) (ofZ (-50)) (Some example_container)
                      (Some example_panel) dragged_panel)))
         (panel_max (rect_width example_container) (rect_width example_panel))
     = true.
Proof.
  split; [vm_compute; reflexivity|].
  apply (onMove_within_container (ofZ 2000) (ofZ (-50)) example_container
           example_panel dragged_panel); reflexivity.
Defined.

(** X28.  The grout thickness handed to the grout lines is never below
    0.0005 and never above 0.03, whatever number of millimetres is set. *)
Theorem groutThickness_bounds groutMm :
  isNaN groutMm = false ->
  leb (lit "0.0005") (groutThickness groutMm) = true
  /\ leb (groutThickness groutMm) (lit "0.03") = true.
Proof.
  intros H. unfold groutThickness. apply clamp_max_min; try reflexivity.
  change (ofZ 1000) with (S754_finite false 8796093022208000 (-43)).
  now apply div_finite_not_NaN.
Qed.

Lemma groutThickness_bounds_witness :
  groutThickness (ofZ 50) = lit "0.03"
  /\ groutThickness (ofZ (-2)) = lit "0.0005"
  /\ leb (lit "0.0005") (groutThickness (ofZ 3)) = true
  /\ leb (groutThickness (ofZ 3)) (lit "0.03") = true.
Proof.
  split; [vm_compute; reflexivity|]. split; [vm_compute; reflexivity|].
  apply groutThickness_bounds. reflexivity.
Defined.

(** X29.  The softness of the light rig is clamped to the interval from 0
    to 1, whatever number is passed. *)
Theorem clampedSoft_bounds softness :
  isNaN softness = false ->
  leb (ofZ 0) (clampedSoft softness) = true
  /\ leb (clampedSoft softness) (ofZ 1) = true.
Proof. intros H. unfold clampedSoft. now apply clamp_min_max. Qed.

Lemma clampedSoft_bounds_witness :
  clampedSoft (lit "1.7") = ofZ 1
  /\ leb (ofZ 0) (clampedSoft (lit "1.7")) = true
  /\ leb (clampedSoft (lit "1.7")) (ofZ 1) = true.
Proof.
  split; [vm_compute; reflexivity|].
  apply clampedSoft_bounds. reflexivity.
Defined.

End SceneFacts.
